(** * Modbus protocol engine: CRC, framing, receive loop, client and server

    A shallow embedding of [modbus.cpp] (class [c_modbus]).  Bytes and C
    integers are [Z]; a [uint8_t] array is a [list Z] read with [get] and
    written with [poke]; the conversions C performs on assignment are written
    out ([uint8], [uint16], [uint32], [int8], [int16], [int32]).  The serial line or
    socket is a script of events ([wire]) consumed by [select] and [read]. *)

From Stdlib Require Import ZArith Lia.
From stdpp Require Import base tactics numbers list.

Local Open Scope Z_scope.

(** ** Integer conversions *)

Definition uint8 (z : Z) : Z := z mod 256.
Definition uint16 (z : Z) : Z := z mod 65536.
Definition uint32 (z : Z) : Z := z mod 4294967296.
Definition int8 (z : Z) : Z := (z + 128) mod 256 - 128.
Definition int16 (z : Z) : Z := (z + 32768) mod 65536 - 32768.
Definition int32 (z : Z) : Z := (z + 2147483648) mod 4294967296 - 2147483648.

Definition is_byte (z : Z) : Prop := 0 <= z < 256.
Definition is_byteb (z : Z) : bool := (0 <=? z) && (z <? 256).

(** ** Buffers

    [get] is [buf[i]]; a read outside the list (outside what the model knows
    of the array) gives 0.  [poke] is [buf[i] = v] with the conversion to
    [uint8_t]; the list grows when the index is past its end. *)

Definition get (buf : list Z) (i : Z) : Z :=
  if i <? 0 then 0 else default 0 (buf !! Z.to_nat i).

Definition poke (buf : list Z) (i : Z) (v : Z) : list Z :=
  <[Z.to_nat i := uint8 v]> (buf ++ replicate (S (Z.to_nat i) - length buf) 0).

(** [memcpy (dst + d, src + s, n)] *)
Fixpoint memcpy (dst : list Z) (d : Z) (src : list Z) (s : Z) (n : nat) : list Z :=
  match n with
  | O => dst
  | S n' => memcpy (poke dst d (get src s)) (d + 1) src (s + 1) n'
  end.

(** [takeZ n l]: the first [n] elements of [l], for a C length [n]. *)
Fixpoint takeZ (n : Z) (l : list Z) : list Z :=
  match l with
  | [] => []
  | x :: t => if n <=? 0 then [] else x :: takeZ (n - 1) t
  end.

Fixpoint dropZ (n : Z) (l : list Z) : list Z :=
  match l with
  | [] => []
  | x :: t => if n <=? 0 then l else dropZ (n - 1) t
  end.

(** ** modbus.h

    The header is not among the sources.  What the specification fixes is
    given as definitions; the error sentinels, whose values it leaves open,
    are a record the functions take as an argument. *)

Inductive type_com_t := RTU | TCP.

(** Modelled from the spec: HEADER_LENGTH_RTU of modbus.h, the RTU header
    length (1 byte, the unit id). *)
Definition HEADER_LENGTH_RTU : Z := 1.

(** Modelled from the spec: HEADER_LENGTH_TCP of modbus.h, the TCP (MBAP)
    header length (7 bytes). *)
Definition HEADER_LENGTH_TCP : Z := 7.

(** Modelled from the spec: CHECKSUM_LENGTH_RTU of modbus.h (2-byte CRC). *)
Definition CHECKSUM_LENGTH_RTU : Z := 2.

(** Modelled from the spec: CHECKSUM_LENGTH_TCP of modbus.h (no checksum). *)
Definition CHECKSUM_LENGTH_TCP : Z := 0.

(** Modelled from the spec: MAX_ADU_LENGTH_RTU of modbus.h (max ADU 256). *)
Definition MAX_ADU_LENGTH_RTU : Z := 256.

(** Modelled from the spec: MAX_ADU_LENGTH_TCP of modbus.h (max ADU 260). *)
Definition MAX_ADU_LENGTH_TCP : Z := 260.

(** Modelled from the spec: PRESET_RESPONSE_LENGTH_RTU of modbus.h; the
    response header is the transport header and the function byte. *)
Definition PRESET_RESPONSE_LENGTH_RTU : Z := 2.

(** Modelled from the spec: PRESET_RESPONSE_LENGTH_TCP of modbus.h; the
    response header is the transport header and the function byte. *)
Definition PRESET_RESPONSE_LENGTH_TCP : Z := 8.

(** Modelled from the spec: PRESET_QUERY_LENGTH_RTU of modbus.h (RTU request
    headers write 6 bytes). *)
Definition PRESET_QUERY_LENGTH_RTU : Z := 6.

(** Modelled from the spec: PRESET_QUERY_LENGTH_TCP of modbus.h (TCP request
    headers write 12 bytes). *)
Definition PRESET_QUERY_LENGTH_TCP : Z := 12.

(** Modelled from the spec: EXCEPTION_RESPONSE_LENGTH_RTU of modbus.h
    (RTU exception response: header + 2 + CRC = 5). *)
Definition EXCEPTION_RESPONSE_LENGTH_RTU : Z := 5.

(** Modelled from the spec: FC_READ_COIL_STATUS of modbus.h (0x01 read
    coils). *)
Definition FC_READ_COIL_STATUS : Z := 0x01.

(** Modelled from the spec: FC_READ_INPUT_STATUS of modbus.h (0x02 read
    discrete inputs). *)
Definition FC_READ_INPUT_STATUS : Z := 0x02.

(** Modelled from the spec: FC_READ_HOLDING_REGISTERS of modbus.h (0x03). *)
Definition FC_READ_HOLDING_REGISTERS : Z := 0x03.

(** Modelled from the spec: FC_READ_INPUT_REGISTERS of modbus.h (0x04). *)
Definition FC_READ_INPUT_REGISTERS : Z := 0x04.

(** Modelled from the spec: FC_FORCE_SINGLE_COIL of modbus.h (0x05 write
    single coil). *)
Definition FC_FORCE_SINGLE_COIL : Z := 0x05.

(** Modelled from the spec: FC_PRESET_SINGLE_REGISTER of modbus.h (0x06 write
    single register). *)
Definition FC_PRESET_SINGLE_REGISTER : Z := 0x06.

(** Modelled from the spec: FC_READ_EXCEPTION_STATUS of modbus.h (0x07). *)
Definition FC_READ_EXCEPTION_STATUS : Z := 0x07.

(** Modelled from the spec: FC_FORCE_MULTIPLE_COILS of modbus.h (0x0F write
    multiple coils). *)
Definition FC_FORCE_MULTIPLE_COILS : Z := 0x0F.

(** Modelled from the spec: FC_PRESET_MULTIPLE_REGISTERS of modbus.h (0x10
    write multiple registers). *)
Definition FC_PRESET_MULTIPLE_REGISTERS : Z := 0x10.

(** Modelled from the spec: FC_REPORT_SLAVE_ID of modbus.h (0x11). *)
Definition FC_REPORT_SLAVE_ID : Z := 0x11.

(** Modelled from the spec: ILLEGAL_DATA_ADDRESS of modbus.h, exception code
    0x02; the macro is the negated code ([response_exception] writes
    [-exception_code] as the "positive exception code"). *)
Definition ILLEGAL_DATA_ADDRESS : Z := - 0x02.

(** Modelled from the spec: ILLEGAL_DATA_VALUE of modbus.h, exception code
    0x03, negated like [ILLEGAL_DATA_ADDRESS]. *)
Definition ILLEGAL_DATA_VALUE : Z := - 0x03.

(** Modelled from the spec: MODBUS_BROADCAST_ADDRESS of modbus.h (the
    broadcast address is 0). *)
Definition MODBUS_BROADCAST_ADDRESS : Z := 0.

(** Modelled from the spec: MAX_REGISTERS of modbus.h (125 registers). *)
Definition MAX_REGISTERS : Z := 125.

(** Modelled from the spec: ON of modbus.h, the value of a set bit (the map
    is bit-valued). *)
Definition ON : Z := 1.

(** Modelled from the spec: OFF of modbus.h, the value of a cleared bit. *)
Definition OFF : Z := 0.

(** The error sentinels of modbus.h and MSG_LENGTH_UNDEFINED, whose values
    the specification leaves open: the functions take them as an argument. *)
Record modbus_h := {
  INVALID_DATA : Z;
  INVALID_CRC : Z;
  INVALID_EXCEPTION_CODE : Z;
  SELECT_TIMEOUT : Z;
  SELECT_FAILURE : Z;
  SOCKET_FAILURE : Z;
  CONNECTION_CLOSED : Z;
  MB_EXCEPTION : Z;
  MSG_LENGTH_UNDEFINED : Z
}.

Definition sentinels (E : modbus_h) : list Z :=
  [INVALID_DATA E; INVALID_CRC E; INVALID_EXCEPTION_CODE E; SELECT_TIMEOUT E;
   SELECT_FAILURE E; SOCKET_FAILURE E; CONNECTION_CLOSED E; MB_EXCEPTION E].

(** What the specification says of the sentinels: they are negative, and
    they are distinct tags. *)
Definition sentinels_ok (E : modbus_h) : Prop :=
  Forall (fun s => s < 0) (sentinels E) /\ NoDup (sentinels E).

(** Modelled from the spec: the sentinels of modbus.h for the runs that are
    evaluated on concrete frames.  The specification says they are negative
    and gives no values; these are the values of libmodbus 2.0, from which
    modbus.cpp derives. *)
Definition libmodbus_h : modbus_h := {|
  INVALID_DATA := - 0x10;
  INVALID_CRC := - 0x11;
  INVALID_EXCEPTION_CODE := - 0x12;
  SELECT_TIMEOUT := - 0x13;
  SELECT_FAILURE := - 0x14;
  SOCKET_FAILURE := - 0x15;
  CONNECTION_CLOSED := - 0x16;
  MB_EXCEPTION := - 0x17;
  MSG_LENGTH_UNDEFINED := - 1
|}.

Definition TAB_HEADER_LENGTH (t : type_com_t) : Z :=
  match t with RTU => HEADER_LENGTH_RTU | TCP => HEADER_LENGTH_TCP end.

Definition TAB_CHECKSUM_LENGTH (t : type_com_t) : Z :=
  match t with RTU => CHECKSUM_LENGTH_RTU | TCP => CHECKSUM_LENGTH_TCP end.

Definition TAB_MAX_ADU_LENGTH (t : type_com_t) : Z :=
  match t with RTU => MAX_ADU_LENGTH_RTU | TCP => MAX_ADU_LENGTH_TCP end.

(** ** CRC tables *)

Definition table_crc_hi : list Z := [
    0x00; 0xC1; 0x81; 0x40; 0x01; 0xC0; 0x80; 0x41; 0x01; 0xC0;
    0x80; 0x41; 0x00; 0xC1; 0x81; 0x40; 0x01; 0xC0; 0x80; 0x41;
    0x00; 0xC1; 0x81; 0x40; 0x00; 0xC1; 0x81; 0x40; 0x01; 0xC0;
    0x80; 0x41; 0x01; 0xC0; 0x80; 0x41; 0x00; 0xC1; 0x81; 0x40;
    0x00; 0xC1; 0x81; 0x40; 0x01; 0xC0; 0x80; 0x41; 0x00; 0xC1;
    0x81; 0x40; 0x01; 0xC0; 0x80; 0x41; 0x01; 0xC0; 0x80; 0x41;
    0x00; 0xC1; 0x81; 0x40; 0x01; 0xC0; 0x80; 0x41; 0x00; 0xC1;
    0x81; 0x40; 0x00; 0xC1; 0x81; 0x40; 0x01; 0xC0; 0x80; 0x41;
    0x00; 0xC1; 0x81; 0x40; 0x01; 0xC0; 0x80; 0x41; 0x01; 0xC0;
    0x80; 0x41; 0x00; 0xC1; 0x81; 0x40; 0x00; 0xC1; 0x81; 0x40;
    0x01; 0xC0; 0x80; 0x41; 0x01; 0xC0; 0x80; 0x41; 0x00; 0xC1;
    0x81; 0x40; 0x01; 0xC0; 0x80; 0x41; 0x00; 0xC1; 0x81; 0x40;
    0x00; 0xC1; 0x81; 0x40; 0x01; 0xC0; 0x80; 0x41; 0x01; 0xC0;
    0x80; 0x41; 0x00; 0xC1; 0x81; 0x40; 0x00; 0xC1; 0x81; 0x40;
    0x01; 0xC0; 0x80; 0x41; 0x00; 0xC1; 0x81; 0x40; 0x01; 0xC0;
    0x80; 0x41; 0x01; 0xC0; 0x80; 0x41; 0x00; 0xC1; 0x81; 0x40;
    0x00; 0xC1; 0x81; 0x40; 0x01; 0xC0; 0x80; 0x41; 0x01; 0xC0;
    0x80; 0x41; 0x00; 0xC1; 0x81; 0x40; 0x01; 0xC0; 0x80; 0x41;
    0x00; 0xC1; 0x81; 0x40; 0x00; 0xC1; 0x81; 0x40; 0x01; 0xC0;
    0x80; 0x41; 0x00; 0xC1; 0x81; 0x40; 0x01; 0xC0; 0x80; 0x41;
    0x01; 0xC0; 0x80; 0x41; 0x00; 0xC1; 0x81; 0x40; 0x01; 0xC0;
    0x80; 0x41; 0x00; 0xC1; 0x81; 0x40; 0x00; 0xC1; 0x81; 0x40;
    0x01; 0xC0; 0x80; 0x41; 0x01; 0xC0; 0x80; 0x41; 0x00; 0xC1;
    0x81; 0x40; 0x00; 0xC1; 0x81; 0x40; 0x01; 0xC0; 0x80; 0x41;
    0x00; 0xC1; 0x81; 0x40; 0x01; 0xC0; 0x80; 0x41; 0x01; 0xC0;
    0x80; 0x41; 0x00; 0xC1; 0x81; 0x40
  ].

Definition table_crc_lo : list Z := [
    0x00; 0xC0; 0xC1; 0x01; 0xC3; 0x03; 0x02; 0xC2; 0xC6; 0x06;
    0x07; 0xC7; 0x05; 0xC5; 0xC4; 0x04; 0xCC; 0x0C; 0x0D; 0xCD;
    0x0F; 0xCF; 0xCE; 0x0E; 0x0A; 0xCA; 0xCB; 0x0B; 0xC9; 0x09;
    0x08; 0xC8; 0xD8; 0x18; 0x19; 0xD9; 0x1B; 0xDB; 0xDA; 0x1A;
    0x1E; 0xDE; 0xDF; 0x1F; 0xDD; 0x1D; 0x1C; 0xDC; 0x14; 0xD4;
    0xD5; 0x15; 0xD7; 0x17; 0x16; 0xD6; 0xD2; 0x12; 0x13; 0xD3;
    0x11; 0xD1; 0xD0; 0x10; 0xF0; 0x30; 0x31; 0xF1; 0x33; 0xF3;
    0xF2; 0x32; 0x36; 0xF6; 0xF7; 0x37; 0xF5; 0x35; 0x34; 0xF4;
    0x3C; 0xFC; 0xFD; 0x3D; 0xFF; 0x3F; 0x3E; 0xFE; 0xFA; 0x3A;
    0x3B; 0xFB; 0x39; 0xF9; 0xF8; 0x38; 0x28; 0xE8; 0xE9; 0x29;
    0xEB; 0x2B; 0x2A; 0xEA; 0xEE; 0x2E; 0x2F; 0xEF; 0x2D; 0xED;
    0xEC; 0x2C; 0xE4; 0x24; 0x25; 0xE5; 0x27; 0xE7; 0xE6; 0x26;
    0x22; 0xE2; 0xE3; 0x23; 0xE1; 0x21; 0x20; 0xE0; 0xA0; 0x60;
    0x61; 0xA1; 0x63; 0xA3; 0xA2; 0x62; 0x66; 0xA6; 0xA7; 0x67;
    0xA5; 0x65; 0x64; 0xA4; 0x6C; 0xAC; 0xAD; 0x6D; 0xAF; 0x6F;
    0x6E; 0xAE; 0xAA; 0x6A; 0x6B; 0xAB; 0x69; 0xA9; 0xA8; 0x68;
    0x78; 0xB8; 0xB9; 0x79; 0xBB; 0x7B; 0x7A; 0xBA; 0xBE; 0x7E;
    0x7F; 0xBF; 0x7D; 0xBD; 0xBC; 0x7C; 0xB4; 0x74; 0x75; 0xB5;
    0x77; 0xB7; 0xB6; 0x76; 0x72; 0xB2; 0xB3; 0x73; 0xB1; 0x71;
    0x70; 0xB0; 0x50; 0x90; 0x91; 0x51; 0x93; 0x53; 0x52; 0x92;
    0x96; 0x56; 0x57; 0x97; 0x55; 0x95; 0x94; 0x54; 0x9C; 0x5C;
    0x5D; 0x9D; 0x5F; 0x9F; 0x9E; 0x5E; 0x5A; 0x9A; 0x9B; 0x5B;
    0x99; 0x59; 0x58; 0x98; 0x88; 0x48; 0x49; 0x89; 0x4B; 0x8B;
    0x8A; 0x4A; 0x4E; 0x8E; 0x8F; 0x4F; 0x8D; 0x4D; 0x4C; 0x8C;
    0x44; 0x84; 0x85; 0x45; 0x87; 0x47; 0x46; 0x86; 0x82; 0x42;
    0x43; 0x83; 0x41; 0x81; 0x80; 0x40
  ].

(** ** crc16, check_crc16 *)

(** One turn of the loop of [crc16] on the byte [b]. *)
Definition crc16_step (st : Z * Z) (b : Z) : Z * Z :=
  let '(crc_hi, crc_lo) := st in
  let i := Z.lxor crc_hi b in
  (uint8 (Z.lxor crc_lo (get table_crc_hi i)), uint8 (get table_crc_lo i)).

(** [while (buffer_length--)], the pointer [buffer] being the index [p]. *)
Fixpoint crc16_loop (n : nat) (buffer : list Z) (p : Z) (st : Z * Z) : Z * Z :=
  match n with
  | O => st
  | S n' => crc16_loop n' buffer (p + 1) (crc16_step st (get buffer p))
  end.

Definition crc16 (buffer : list Z) (buffer_length : Z) : Z :=
  let '(crc_hi, crc_lo) :=
    crc16_loop (Z.to_nat (uint16 buffer_length)) buffer 0 (0xFF, 0xFF) in
  uint16 (Z.lor (Z.shiftl crc_hi 8) crc_lo).

Definition check_crc16 (E : modbus_h) (msg : list Z) (msg_length : Z) : Z :=
  let crc_calc := crc16 msg (msg_length - 2) in
  let crc_received :=
    uint16 (Z.lor (Z.shiftl (get msg (msg_length - 2)) 8)
                  (get msg (msg_length - 1))) in
  if crc_calc =? crc_received then msg_length else INVALID_CRC E.

(** The two bytes [modbus_send] appends in RTU mode: [s_crc >> 8] then
    [s_crc & 0x00FF]. *)
Definition crc16_bytes (s : list Z) : list Z :=
  let s_crc := crc16 s (Z.of_nat (length s)) in
  [uint8 (Z.shiftr s_crc 8); uint8 (Z.land s_crc 0x00FF)].

(** ** Session parameters ([modbus_param_t]) *)

Record modbus_param_t := {
  type_com : type_com_t;
  slave : Z
}.

(** [(a << 8) | b] and [(a << 8) + b], as the source writes them. *)
Definition word_or (a b : Z) : Z := Z.lor (Z.shiftl a 8) b.
Definition word_add (a b : Z) : Z := Z.shiftl a 8 + b.

(** [(nb / 8) + ((nb % 8) ? 1 : 0)] *)
Definition byte_count (nb : Z) : Z :=
  Z.quot nb 8 + (if Z.rem nb 8 =? 0 then 0 else 1).

(** ** compute_response_length *)

Definition compute_response_length (E : modbus_h) (mb_param : modbus_param_t)
    (query : list Z) (data_type : Z) : Z :=
  let offset := TAB_HEADER_LENGTH (type_com mb_param) in
  let fc := get query offset in
  let finite length := length + offset + TAB_CHECKSUM_LENGTH (type_com mb_param) in
  if (fc =? FC_READ_COIL_STATUS) || (fc =? FC_READ_INPUT_STATUS) then
    let nb := word_or (get query (offset + 3)) (get query (offset + 4)) in
    finite (2 + Z.quot nb 8 + (if Z.rem nb 8 =? 0 then 0 else 1))
  else if (fc =? FC_READ_HOLDING_REGISTERS) || (fc =? FC_READ_INPUT_REGISTERS) then
    let nb := word_or (get query (offset + 3)) (get query (offset + 4)) in
    match data_type with
    | 0 | 1 => finite (2 + nb)
    | 2 | 3 => finite (2 + 2 * nb)
    | 4 | 5 => finite (2 + 4 * nb)
    | 6 | 7 => finite (2 + 2 * nb)
    | 8 => finite (2 + 2 * nb)
    | 9 => finite (2 + 2 * nb)
    | _ => finite (2 + 2 * nb)
    end
  else if fc =? FC_READ_EXCEPTION_STATUS then finite 3
  else if fc =? FC_REPORT_SLAVE_ID then MSG_LENGTH_UNDEFINED E
  else finite 5.

(** ** Headers *)

Definition build_query_basis_rtu (slave function start_addr nb : Z)
    (query : list Z) : Z * list Z :=
  let query := poke query 0 slave in
  let query := poke query 1 function in
  let query := poke query 2 (Z.shiftr start_addr 8) in
  let query := poke query 3 (Z.land start_addr 0x00ff) in
  let query := poke query 4 (Z.shiftr nb 8) in
  let query := poke query 5 (Z.land nb 0x00ff) in
  (PRESET_QUERY_LENGTH_RTU, query).

(** The static [t_id] is passed in and returned. *)
Definition build_query_basis_tcp (slave function start_addr nb : Z)
    (query : list Z) (t_id : Z) : Z * list Z * Z :=
  let t_id := if t_id <? 0xFFFF then t_id + 1 else 0 in
  let query := poke query 0 (Z.shiftr t_id 8) in
  let query := poke query 1 (Z.land t_id 0x00ff) in
  let query := poke query 2 0 in
  let query := poke query 3 0 in
  let query := poke query 6 slave in
  let query := poke query 7 function in
  let query := poke query 8 (Z.shiftr start_addr 8) in
  let query := poke query 9 (Z.land start_addr 0x00ff) in
  let query := poke query 10 (Z.shiftr nb 8) in
  let query := poke query 11 (Z.land nb 0x00ff) in
  (PRESET_QUERY_LENGTH_TCP, query, t_id).

Definition build_query_basis (mb_param : modbus_param_t)
    (function start_addr nb : Z) (query : list Z) (t_id : Z) : Z * list Z * Z :=
  match type_com mb_param with
  | RTU =>
      let '(len, query) :=
        build_query_basis_rtu (slave mb_param) function start_addr nb query in
      (len, query, t_id)
  | TCP => build_query_basis_tcp (slave mb_param) function start_addr nb query t_id
  end.

Record sft_t := {
  sft_slave : Z;
  sft_function : Z;
  sft_t_id : Z
}.

Definition build_response_basis_rtu (sft : sft_t) (response : list Z) : Z * list Z :=
  let response := poke response 0 (sft_slave sft) in
  let response := poke response 1 (sft_function sft) in
  (PRESET_RESPONSE_LENGTH_RTU, response).

Definition build_response_basis_tcp (sft : sft_t) (response : list Z) : Z * list Z :=
  let response := poke response 0 (Z.shiftr (sft_t_id sft) 8) in
  let response := poke response 1 (Z.land (sft_t_id sft) 0x00ff) in
  let response := poke response 2 0 in
  let response := poke response 3 0 in
  let response := poke response 6 (sft_slave sft) in
  let response := poke response 7 (sft_function sft) in
  (PRESET_RESPONSE_LENGTH_TCP, response).

Definition build_response_basis (mb_param : modbus_param_t) (sft : sft_t)
    (response : list Z) : Z * list Z :=
  match type_com mb_param with
  | RTU => build_response_basis_rtu sft response
  | TCP => build_response_basis_tcp sft response
  end.

Definition set_message_length_tcp (msg : list Z) (msg_length : Z) : list Z :=
  let mbap_length := msg_length - 6 in
  let msg := poke msg 4 (Z.shiftr mbap_length 8) in
  poke msg 5 (Z.land mbap_length 0x00FF).

(** ** modbus_send

    [bytes_at buf n] is what [write (fd, buf, n)] is handed.  [wrote] is the
    value the [write] or [send] system call returns.  The result is the
    return value, the buffer (the CRC or the MBAP length is written into it)
    and the bytes put on the line. *)

Definition bytes_at (buf : list Z) (n : Z) : list Z :=
  fmap (fun i => get buf (Z.of_nat i)) (seq 0 (Z.to_nat n)).

Definition modbus_send (E : modbus_h) (mb_param : modbus_param_t)
    (query : list Z) (query_length : Z) (wrote : Z) : Z * list Z * list Z :=
  let '(query, query_length) :=
    match type_com mb_param with
    | RTU =>
        let s_crc := crc16 query query_length in
        let query := poke query query_length (Z.shiftr s_crc 8) in
        let query := poke query (query_length + 1) (Z.land s_crc 0x00FF) in
        (query, query_length + 2)
    | TCP => (set_message_length_tcp query query_length, query_length)
    end in
  let ret :=
    if (wrote =? -1) || negb (wrote =? query_length)
    then SOCKET_FAILURE E else wrote in
  (ret, query, bytes_at query query_length).

(** ** Lengths of an incoming query *)

Definition compute_query_length_header (function : Z) : Z :=
  if (function <=? FC_FORCE_SINGLE_COIL) || (function =? FC_PRESET_SINGLE_REGISTER)
  then 4
  else if (function =? FC_FORCE_MULTIPLE_COILS) ||
          (function =? FC_PRESET_MULTIPLE_REGISTERS)
  then 5
  else if function =? FC_REPORT_SLAVE_ID then 1
  else 0.

Definition compute_query_length_data (mb_param : modbus_param_t) (msg : list Z) : Z :=
  let function := get msg (TAB_HEADER_LENGTH (type_com mb_param)) in
  let length :=
    if (function =? FC_FORCE_MULTIPLE_COILS) ||
       (function =? FC_PRESET_MULTIPLE_REGISTERS)
    then get msg (TAB_HEADER_LENGTH (type_com mb_param) + 5)
    else if function =? FC_REPORT_SLAVE_ID
    then get msg (TAB_HEADER_LENGTH (type_com mb_param) + 1)
    else 0 in
  length + TAB_CHECKSUM_LENGTH (type_com mb_param).

(** ** The line

    What the descriptor does is a script.  Each [select] consumes one event;
    after the last event nothing more arrives, and every [select] runs into
    its timeout.  [Readable p] makes [select] return a positive value; the
    [read] or [recv] that follows sees [p]. *)

Inductive pending :=
  | Bytes (bs : list Z)   (* bytes are waiting; a read takes up to its count *)
  | HangUp                (* the peer closed: read returns 0 *)
  | ReadFails.            (* read returns -1 *)

Inductive event :=
  | Silence               (* select returns 0, the timeout has run out *)
  | Interrupted           (* select returns -1 with errno EINTR *)
  | SelectFails           (* select returns -1, another errno *)
  | Readable (p : pending).

Definition wire := list event.

(** How [WAIT_DATA ()] ends: the enclosing function goes on with data to
    read, or it returns [ret]. *)
Inductive waited :=
  | Ready (p : pending) (w : wire)
  | Return (ret : Z) (w : wire).

(** The timeout branch of [WAIT_DATA ()]; [msg_length] is the local of
    [receive_msg], the number of bytes received so far. *)
Definition wait_timeout (E : modbus_h) (mb_param : modbus_param_t)
    (msg_length : Z) : Z :=
  if msg_length =? TAB_HEADER_LENGTH (type_com mb_param) + 2 +
                   TAB_CHECKSUM_LENGTH (type_com mb_param)
  then MB_EXCEPTION E
  else SELECT_TIMEOUT E.

Fixpoint WAIT_DATA (E : modbus_h) (mb_param : modbus_param_t)
    (msg_length : Z) (w : wire) : waited :=
  match w with
  | [] => Return (wait_timeout E mb_param msg_length) []
  | Silence :: w' => Return (wait_timeout E mb_param msg_length) w'
  | Interrupted :: w' => WAIT_DATA E mb_param msg_length w'
  | SelectFails :: w' => Return (SELECT_FAILURE E) w'
  | Readable p :: w' => Ready p w'
  end.

(** The count of [read] is a [size_t]. *)
Definition size_t (z : Z) : Z := z mod 2 ^ 64.

(** [read (fd, p_msg, count)] when [p] is pending: the return value, the
    bytes stored and the line afterwards (bytes not taken stay readable). *)
Definition sys_read (p : pending) (count : Z) (w : wire) : Z * list Z * wire :=
  match p with
  | Bytes bs =>
      let got := takeZ (size_t count) bs in
      let rest := dropZ (size_t count) bs in
      (Z.of_nat (length got), got,
       match rest with [] => w | _ => Readable (Bytes rest) :: w end)
  | HangUp => (0, [], w)
  | ReadFails => (-1, [], w)
  end.

(** [store msg pos bs]: the bytes [bs] written at [msg + pos]. *)
Fixpoint store (msg : list Z) (pos : Z) (bs : list Z) : list Z :=
  match bs with
  | [] => msg
  | b :: bs' => store (poke msg pos b) (pos + 1) bs'
  end.

Inductive rcv_state := FUNCTION | BYTE | COMPLETE.

(** ** receive_msg

    [receive_loop] is the [while (select_ret)] loop, entered with [p]
    pending.  The result is the return value, the buffer [msg] and the line
    that is left; [None] when the fuel runs out (see [receive_msg_total]). *)

Fixpoint receive_loop (fuel : nat) (E : modbus_h) (mb_param : modbus_param_t)
    (p : pending) (w : wire) (msg : list Z)
    (msg_length msg_length_computed length_to_read : Z) (state : rcv_state)
    : option (Z * list Z * wire) :=
  match fuel with
  | O => None
  | S fuel' =>
    let '(read_ret, got, w) := sys_read p length_to_read w in
    if read_ret =? 0 then Some (CONNECTION_CLOSED E, msg, w)
    else if read_ret <? 0 then Some (SOCKET_FAILURE E, msg, w)
    else
      let msg := store msg msg_length got in
      let msg_length := msg_length + read_ret in
      let finish (w : wire) :=
        match type_com mb_param with
        | RTU => Some (check_crc16 E msg msg_length, msg, w)
        | TCP => Some (msg_length, msg, w)
        end in
      let continue (length_to_read msg_length_computed : Z) (state : rcv_state) :=
        if 0 <? length_to_read then
          match WAIT_DATA E mb_param msg_length w with
          | Return ret w => Some (ret, msg, w)
          | Ready p w =>
              receive_loop fuel' E mb_param p w msg
                msg_length msg_length_computed length_to_read state
          end
        else finish w in
      if msg_length <? msg_length_computed then
        continue (msg_length_computed - msg_length) msg_length_computed state
      else
        match state with
        | FUNCTION =>
            let length_to_read :=
              compute_query_length_header
                (get msg (TAB_HEADER_LENGTH (type_com mb_param))) in
            continue length_to_read (msg_length_computed + length_to_read) BYTE
        | BYTE =>
            let length_to_read := compute_query_length_data mb_param msg in
            let msg_length_computed := msg_length_computed + length_to_read in
            if TAB_MAX_ADU_LENGTH (type_com mb_param) <? msg_length_computed
            then Some (INVALID_DATA E, msg, w)
            else continue length_to_read msg_length_computed COMPLETE
        | COMPLETE => continue 0 msg_length_computed COMPLETE
        end
  end.

Fixpoint wire_weight (w : wire) : nat :=
  match w with
  | [] => O
  | Readable (Bytes bs) :: w' => S (length bs + wire_weight w')
  | _ :: w' => S (wire_weight w')
  end.

Definition receive_msg (E : modbus_h) (mb_param : modbus_param_t)
    (msg_length_computed : Z) (msg : list Z) (w : wire)
    : option (Z * list Z * wire) :=
  let msg_length := 0 in
  let '(state, msg_length_computed) :=
    if msg_length_computed =? MSG_LENGTH_UNDEFINED E
    then (FUNCTION, TAB_HEADER_LENGTH (type_com mb_param) + 1)
    else (COMPLETE, msg_length_computed) in
  let length_to_read := msg_length_computed in
  match WAIT_DATA E mb_param msg_length w with
  | Return ret w => Some (ret, msg, w)
  | Ready p w' =>
      receive_loop (S (wire_weight w)) E mb_param p w' msg
        msg_length msg_length_computed length_to_read state
  end.

Definition modbus_slave_receive (E : modbus_h) (mb_param : modbus_param_t)
    (query : list Z) (w : wire) : option (Z * list Z * wire) :=
  receive_msg E mb_param (MSG_LENGTH_UNDEFINED E) query w.

(** ** modbus_receive

    [response] is the caller's buffer as it is before the call.  [junk] is
    the indeterminate value of the local [response_nb_value], which the
    register cases for the data types 6 and above leave unassigned before
    the comparison reads it.  The result is the return value, the buffer
    and the line that is left. *)

Definition NB_TAB_ERROR_MSG : Z := 12.

Definition modbus_receive (E : modbus_h) (mb_param : modbus_param_t)
    (query response : list Z) (data_type : Z) (junk : Z) (w : wire)
    : option (Z * list Z * wire) :=
  let offset := TAB_HEADER_LENGTH (type_com mb_param) in
  let response_length_computed :=
    compute_response_length E mb_param query data_type in
  match receive_msg E mb_param response_length_computed response w with
  | None => None
  | Some (ret, response, w) =>
    if 0 <=? ret then
      let fc := get response offset in
      let '(query_nb_value, response_nb_value) :=
        if (fc =? FC_READ_COIL_STATUS) || (fc =? FC_READ_INPUT_STATUS) then
          let query_nb_value :=
            word_add (get query (offset + 3)) (get query (offset + 4)) in
          (Z.quot query_nb_value 8 + (if Z.rem query_nb_value 8 =? 0 then 0 else 1),
           get response (offset + 1))
        else if (fc =? FC_READ_HOLDING_REGISTERS) ||
                (fc =? FC_READ_INPUT_REGISTERS) then
          let query_nb_value :=
            word_add (get query (offset + 3)) (get query (offset + 4)) in
          (query_nb_value,
           match data_type with
           | 0 | 1 => get response (offset + 1)
           | 2 | 3 => Z.quot (get response (offset + 1)) 2
           | 4 | 5 => Z.quot (get response (offset + 1)) 4
           | _ => junk
           end)
        else if (fc =? FC_FORCE_MULTIPLE_COILS) ||
                (fc =? FC_PRESET_MULTIPLE_REGISTERS) then
          (word_add (get query (offset + 3)) (get query (offset + 4)),
           word_or (get response (offset + 3)) (get response (offset + 4)))
        else if fc =? FC_REPORT_SLAVE_ID then (ret, ret)
        else (1, 1) in
      if query_nb_value =? response_nb_value
      then Some (response_nb_value, response, w)
      else Some (INVALID_DATA E, response, w)
    else if ret =? MB_EXCEPTION E then
      let check (ret : Z) :=
        if 0x80 + get query offset =? get response offset then
          let exception_code := get response (offset + 1) in
          if exception_code <? NB_TAB_ERROR_MSG
          then Some (- exception_code, response, w)
          else Some (INVALID_EXCEPTION_CODE E, response, w)
        else Some (ret, response, w) in
      match type_com mb_param with
      | RTU =>
          let ret := check_crc16 E response EXCEPTION_RESPONSE_LENGTH_RTU in
          if ret <? 0 then Some (ret, response, w) else check ret
      | TCP => check ret
      end
    else Some (ret, response, w)
  end.

(** ** The server's map ([modbus_mapping_t]) *)

Record modbus_mapping_t := {
  nb_coil_status : Z;
  nb_input_status : Z;
  nb_input_registers : Z;
  nb_holding_registers : Z;
  tab_coil_status : list Z;
  tab_input_status : list Z;
  tab_input_registers : list Z;
  tab_holding_registers : list Z
}.

Definition set_tab_coil_status (m : modbus_mapping_t) (tab : list Z) :=
  {| nb_coil_status := nb_coil_status m;
     nb_input_status := nb_input_status m;
     nb_input_registers := nb_input_registers m;
     nb_holding_registers := nb_holding_registers m;
     tab_coil_status := tab;
     tab_input_status := tab_input_status m;
     tab_input_registers := tab_input_registers m;
     tab_holding_registers := tab_holding_registers m |}.

Definition set_tab_holding_registers (m : modbus_mapping_t) (tab : list Z) :=
  {| nb_coil_status := nb_coil_status m;
     nb_input_status := nb_input_status m;
     nb_input_registers := nb_input_registers m;
     nb_holding_registers := nb_holding_registers m;
     tab_coil_status := tab_coil_status m;
     tab_input_status := tab_input_status m;
     tab_input_registers := tab_input_registers m;
     tab_holding_registers := tab |}.

(** [tab[i] = v] on an array of the map; the source guards every such write
    by the size of the array, and outside the list nothing is written. *)
Definition tab_set (tab : list Z) (i : Z) (v : Z) : list Z :=
  if i <? 0 then tab else <[Z.to_nat i := v]> tab.

(** The loop of [response_io_status], [n] turns left, at index [i]. *)
Fixpoint response_io_status_loop (n : nat) (i : Z) (tab_io_status : list Z)
    (response : list Z) (offset shift byte : Z) : list Z * Z * Z * Z :=
  match n with
  | O => (response, offset, shift, byte)
  | S n' =>
      let byte := Z.lor byte (Z.shiftl (get tab_io_status i) shift) in
      if shift =? 7
      then response_io_status_loop n' (i + 1) tab_io_status
             (poke response offset byte) (offset + 1) 0 0
      else response_io_status_loop n' (i + 1) tab_io_status
             response offset (shift + 1) byte
  end.

Definition response_io_status (address nb : Z) (tab_io_status : list Z)
    (response : list Z) (offset : Z) : Z * list Z :=
  let '(response, offset, shift, byte) :=
    response_io_status_loop (Z.to_nat nb) address tab_io_status
      response offset 0 0 in
  if shift =? 0 then (offset, response)
  else (offset + 1, poke response offset byte).

Definition response_exception (mb_param : modbus_param_t) (sft : sft_t)
    (exception_code : Z) (response : list Z) : Z * list Z :=
  let sft := {| sft_slave := sft_slave sft;
                sft_function := sft_function sft + 0x80;
                sft_t_id := sft_t_id sft |} in
  let '(response_length, response) := build_response_basis mb_param sft response in
  (response_length + 1, poke response response_length (- exception_code)).

(** The loop of [set_bits_from_bytes]; [tab_byte] is [query + base]. *)
Fixpoint set_bits_from_bytes_loop (n : nat) (dest : list Z) (address i : Z)
    (query : list Z) (base : Z) (shift : Z) : list Z :=
  match n with
  | O => dest
  | S n' =>
      let bit :=
        Z.land (get query (base + Z.quot (i - address) 8)) (Z.shiftl 1 shift) in
      set_bits_from_bytes_loop n'
        (tab_set dest i (if bit =? 0 then OFF else ON)) address (i + 1)
        query base (Z.rem (shift + 1) 8)
  end.

Definition set_bits_from_bytes (dest : list Z) (address nb_bits : Z)
    (query : list Z) (base : Z) : list Z :=
  set_bits_from_bytes_loop (Z.to_nat nb_bits) dest address address query base 0.

(** The register loops of [modbus_slave_manage]. *)
Fixpoint read_registers_loop (n : nat) (i : Z) (tab : list Z)
    (response : list Z) (resp_length : Z) : Z * list Z :=
  match n with
  | O => (resp_length, response)
  | S n' =>
      let response := poke response resp_length (Z.shiftr (get tab i) 8) in
      let response := poke response (resp_length + 1) (Z.land (get tab i) 0xFF) in
      read_registers_loop n' (i + 1) tab response (resp_length + 2)
  end.

Fixpoint preset_registers_loop (n : nat) (i j : Z) (tab : list Z)
    (query : list Z) (offset : Z) : list Z :=
  match n with
  | O => tab
  | S n' =>
      preset_registers_loop n' (i + 1) (j + 2)
        (tab_set tab i
           (uint16 (word_add (get query (offset + j)) (get query (offset + j + 1)))))
        query offset
  end.

(** ** modbus_slave_manage

    [manage_switch] is the [switch (function)]: the map, the buffer
    [response] and [resp_length] after it.  [response] is the local array,
    passed in with its indeterminate contents. *)

Definition manage_switch (mb_param : modbus_param_t) (sft : sft_t)
    (query : list Z) (query_length : Z) (mb_mapping : modbus_mapping_t)
    (response : list Z) : modbus_mapping_t * list Z * Z :=
  let offset := TAB_HEADER_LENGTH (type_com mb_param) in
  let function := get query offset in
  let address := uint16 (word_add (get query (offset + 1)) (get query (offset + 2))) in
  let resp_length := 0 in
  let exception (code : Z) :=
    let '(resp_length, response) := response_exception mb_param sft code response in
    (mb_mapping, response, resp_length) in
  if function =? FC_READ_COIL_STATUS then
    let nb := word_add (get query (offset + 3)) (get query (offset + 4)) in
    if nb_coil_status mb_mapping <? address + nb then exception ILLEGAL_DATA_ADDRESS
    else
      let '(resp_length, response) := build_response_basis mb_param sft response in
      let response := poke response resp_length (byte_count nb) in
      let '(resp_length, response) :=
        response_io_status address nb (tab_coil_status mb_mapping)
          response (resp_length + 1) in
      (mb_mapping, response, resp_length)
  else if function =? FC_READ_INPUT_STATUS then
    let nb := word_add (get query (offset + 3)) (get query (offset + 4)) in
    if nb_input_status mb_mapping <? address + nb then exception ILLEGAL_DATA_ADDRESS
    else
      let '(resp_length, response) := build_response_basis mb_param sft response in
      let response := poke response resp_length (byte_count nb) in
      let '(resp_length, response) :=
        response_io_status address nb (tab_input_status mb_mapping)
          response (resp_length + 1) in
      (mb_mapping, response, resp_length)
  else if function =? FC_READ_HOLDING_REGISTERS then
    let nb := word_add (get query (offset + 3)) (get query (offset + 4)) in
    if nb_holding_registers mb_mapping <? address + nb
    then exception ILLEGAL_DATA_ADDRESS
    else
      let '(resp_length, response) := build_response_basis mb_param sft response in
      let response := poke response resp_length (Z.shiftl nb 1) in
      let '(resp_length, response) :=
        read_registers_loop (Z.to_nat nb) address
          (tab_holding_registers mb_mapping) response (resp_length + 1) in
      (mb_mapping, response, resp_length)
  else if function =? FC_READ_INPUT_REGISTERS then
    let nb := word_add (get query (offset + 3)) (get query (offset + 4)) in
    if nb_input_registers mb_mapping <? address + nb
    then exception ILLEGAL_DATA_ADDRESS
    else
      let '(resp_length, response) := build_response_basis mb_param sft response in
      let response := poke response resp_length (Z.shiftl nb 1) in
      let '(resp_length, response) :=
        read_registers_loop (Z.to_nat nb) address
          (tab_input_registers mb_mapping) response (resp_length + 1) in
      (mb_mapping, response, resp_length)
  else if function =? FC_FORCE_SINGLE_COIL then
    if nb_coil_status mb_mapping <=? address then exception ILLEGAL_DATA_ADDRESS
    else
      let data := word_add (get query (offset + 3)) (get query (offset + 4)) in
      if (data =? 0xFF00) || (data =? 0x0) then
        (set_tab_coil_status mb_mapping
           (tab_set (tab_coil_status mb_mapping) address
              (if data =? 0 then OFF else ON)),
         memcpy response 0 query 0 (Z.to_nat query_length),
         query_length)
      else exception ILLEGAL_DATA_VALUE
  else if function =? FC_PRESET_SINGLE_REGISTER then
    if nb_holding_registers mb_mapping <=? address then exception ILLEGAL_DATA_ADDRESS
    else
      let data := word_add (get query (offset + 3)) (get query (offset + 4)) in
      (set_tab_holding_registers mb_mapping
         (tab_set (tab_holding_registers mb_mapping) address (uint16 data)),
       memcpy response 0 query 0 (Z.to_nat query_length),
       query_length)
  else if function =? FC_FORCE_MULTIPLE_COILS then
    let nb := word_add (get query (offset + 3)) (get query (offset + 4)) in
    if nb_coil_status mb_mapping <? address + nb then exception ILLEGAL_DATA_ADDRESS
    else
      let tab :=
        set_bits_from_bytes (tab_coil_status mb_mapping) address nb
          query (offset + 6) in
      let '(resp_length, response) := build_response_basis mb_param sft response in
      (set_tab_coil_status mb_mapping tab,
       memcpy response resp_length query resp_length 4,
       resp_length + 4)
  else if function =? FC_PRESET_MULTIPLE_REGISTERS then
    let nb := word_add (get query (offset + 3)) (get query (offset + 4)) in
    if nb_holding_registers mb_mapping <? address + nb
    then exception ILLEGAL_DATA_ADDRESS
    else
      let tab :=
        preset_registers_loop (Z.to_nat nb) address 6
          (tab_holding_registers mb_mapping) query offset in
      let '(resp_length, response) := build_response_basis mb_param sft response in
      (set_tab_holding_registers mb_mapping tab,
       memcpy response resp_length query resp_length 4,
       resp_length + 4)
  else
    (* FC_READ_EXCEPTION_STATUS, FC_REPORT_SLAVE_ID: "Not implemented";
       any other function: no case *)
    (mb_mapping, response, resp_length).

(** The result is the map and the frames handed to [write] or [send], one
    per call of [modbus_send]. *)
Definition modbus_slave_manage (E : modbus_h) (mb_param : modbus_param_t)
    (query : list Z) (query_length : Z) (mb_mapping : modbus_mapping_t)
    (response : list Z) (wrote : Z) : modbus_mapping_t * list (list Z) :=
  let offset := TAB_HEADER_LENGTH (type_com mb_param) in
  let slave_ := get query (offset - 1) in
  let function := get query offset in
  if negb (slave_ =? slave mb_param) && negb (slave_ =? MODBUS_BROADCAST_ADDRESS)
  then (mb_mapping, [])
  else
    let '(sft, query_length) :=
      match type_com mb_param with
      | TCP =>
          ({| sft_slave := slave_; sft_function := function;
              sft_t_id := word_add (get query 0) (get query 1) |},
           query_length)
      | RTU =>
          ({| sft_slave := slave_; sft_function := function; sft_t_id := 0 |},
           query_length - CHECKSUM_LENGTH_RTU)
      end in
    let '(mb_mapping, response, resp_length) :=
      manage_switch mb_param sft query query_length mb_mapping response in
    let '(_, _, frame) := modbus_send E mb_param response resp_length wrote in
    (mb_mapping, [frame]).

(** ** read_registers

    The [switch (data_type)] of the decoding loop, statement by statement: a
    case without [break] runs on into the next one.  [b k] is
    [response[offset + k + ...]]; the result is what [data_dest[i]], a
    [uint32_t], holds after the switch. *)

Definition decode8_signed (response : list Z) (offset i : Z) : Z :=
  uint32 (int8 (get response (offset + 2 + i))).
Definition decode8_unsigned (response : list Z) (offset i : Z) : Z :=
  uint32 (uint8 (get response (offset + 2 + i))).
Definition decode16_signed (response : list Z) (offset i : Z) : Z :=
  uint32 (int16 (Z.lor (Z.shiftl (get response (offset + 2 + Z.shiftl i 1)) 8)
                       (get response (offset + 3 + Z.shiftl i 1)))).
Definition decode16_unsigned (response : list Z) (offset i : Z) : Z :=
  uint32 (uint16 (Z.lor (Z.shiftl (get response (offset + 2 + Z.shiftl i 1)) 8)
                        (get response (offset + 3 + Z.shiftl i 1)))).
Definition word32 (response : list Z) (offset i : Z) : Z :=
  Z.lor (Z.lor (Z.lor (Z.shiftl (get response (offset + 2 + Z.shiftl i 2)) 24)
                      (Z.shiftl (get response (offset + 3 + Z.shiftl i 2)) 16))
               (Z.shiftl (get response (offset + 4 + Z.shiftl i 2)) 8))
        (get response (offset + 5 + Z.shiftl i 2)).
Definition decode32_signed (response : list Z) (offset i : Z) : Z :=
  uint32 (int32 (word32 response offset i)).
Definition decode32_unsigned (response : list Z) (offset i : Z) : Z :=
  uint32 (uint32 (word32 response offset i)).

Definition decode_switch (data_type : Z) (response : list Z) (offset i : Z) : Z :=
  match data_type with
  | 0 =>
      let d := decode8_signed response offset i in      (* case 0, no break *)
      let d := decode8_unsigned response offset i in    (* case 1 *)
      d
  | 1 => decode8_unsigned response offset i
  | 2 =>
      let d := decode16_signed response offset i in     (* case 2, no break *)
      let d := decode16_unsigned response offset i in   (* case 3 *)
      d
  | 3 => decode16_unsigned response offset i
  | 4 =>
      let d := decode32_signed response offset i in     (* case 4, no break *)
      let d := decode32_unsigned response offset i in   (* case 5 *)
      d
  | 5 => decode32_unsigned response offset i
  | _ => decode32_unsigned response offset i            (* 6 .. 9, default *)
  end.

(** [for (i = 0; i < ret; i++)], [n] turns left. *)
Fixpoint decode_loop (n : nat) (i : Z) (data_type : Z) (response : list Z)
    (offset : Z) (data_dest : list Z) : list Z :=
  match n with
  | O => data_dest
  | S n' =>
      decode_loop n' (i + 1) data_type response offset
        (tab_set data_dest i (decode_switch data_type response offset i))
  end.

(** [t_id] is the static counter of [build_query_basis_tcp], [wrote] the
    return value of the system call in [modbus_send], [response] the local
    array with its indeterminate contents.  The result is the return value,
    [data_dest], the counter and the line that is left. *)
Definition read_registers (E : modbus_h) (mb_param : modbus_param_t)
    (function start_addr nb : Z) (data_dest : list Z) (data_type : Z)
    (t_id wrote : Z) (response : list Z) (junk : Z) (w : wire)
    : option (Z * list Z * Z * wire) :=
  if MAX_REGISTERS <? nb then Some (INVALID_DATA E, data_dest, t_id, w)
  else
    let '(query_length, query, t_id) :=
      build_query_basis mb_param function start_addr nb [] t_id in
    let '(ret, query, _) := modbus_send E mb_param query query_length wrote in
    if 0 <? ret then
      match modbus_receive E mb_param query response data_type junk w with
      | None => None
      | Some (ret, response, w) =>
          let offset := TAB_HEADER_LENGTH (type_com mb_param) in
          Some (ret,
                decode_loop (Z.to_nat ret) 0 data_type response offset data_dest,
                t_id, w)
      end
    else Some (ret, data_dest, t_id, w).

(** * More of modbus.cpp *)

(** Modelled from the spec: MAX_STATUS of modbus.h (2000 bits). *)
Definition MAX_STATUS : Z := 2000.

(** Modelled from the spec: TRUE of modbus.h, the value a client stores for
    a set bit (it returns boolean values). *)
Definition TRUE : Z := 1.

(** Modelled from the spec: FALSE of modbus.h, the value a client stores for
    a cleared bit. *)
Definition FALSE : Z := 0.

(** Modelled from the spec: UINT16 of modbus.h, the data-type tag U16,
    fourth of {I8, U8, I16, U16, ...}; the comments of
    [compute_response_length] number the tags from 0. *)
Definition UINT16 : Z := 3.

(** ** Utils *)

(** The loop of [set_bits_from_byte], [n] turns left. *)
Fixpoint set_bits_from_byte_loop (n : nat) (i : Z) (dest : list Z)
    (address value : Z) : list Z :=
  match n with
  | O => dest
  | S n' =>
      set_bits_from_byte_loop n' (i + 1)
        (tab_set dest (address + i)
           (if Z.land value (Z.shiftl 1 i) =? 0 then OFF else ON))
        address value
  end.

Definition set_bits_from_byte (dest : list Z) (address value : Z) : list Z :=
  set_bits_from_byte_loop 8 0 dest address value.

(** The loop of [get_byte_from_bits]; [value] is a [uint8_t]. *)
Fixpoint get_byte_from_bits_loop (n : nat) (i : Z) (src : list Z)
    (address value : Z) : Z :=
  match n with
  | O => value
  | S n' =>
      get_byte_from_bits_loop n' (i + 1) src address
        (uint8 (Z.lor value (Z.shiftl (get src (address + i)) i)))
  end.

Definition get_byte_from_bits (src : list Z) (address nb_bits : Z) : Z :=
  let nb_bits := if 8 <? nb_bits then 8 else nb_bits in
  get_byte_from_bits_loop (Z.to_nat nb_bits) 0 src address 0.

(** [modbus_read_float] and [modbus_write_float] copy a [float] to and from
    a [uint32_t] with [memcpy]; the float is stood for by these 32 bits.
    [src] and [dest] are arrays of [uint16_t]. *)
Definition modbus_read_float (src : list Z) : Z :=
  uint32 (uint32 (Z.shiftl (uint32 (get src 1)) 16) + get src 0).

Definition modbus_write_float (real : Z) (dest : list Z) : list Z :=
  let i := uint32 real in
  let dest := tab_set dest 0 (uint16 i) in
  tab_set dest 1 (uint16 (Z.shiftr i 16)).

(** ** modbus_mapping_new

    [malloc] is taken to succeed; the four arrays are [memset] to 0. *)
Definition modbus_mapping_new (nb_coil_status nb_input_status
    nb_holding_registers nb_input_registers : Z) : Z * modbus_mapping_t :=
  (0,
   {| nb_coil_status := nb_coil_status;
      nb_input_status := nb_input_status;
      nb_input_registers := nb_input_registers;
      nb_holding_registers := nb_holding_registers;
      tab_coil_status := replicate (Z.to_nat nb_coil_status) 0;
      tab_input_status := replicate (Z.to_nat nb_input_status) 0;
      tab_input_registers := replicate (Z.to_nat nb_input_registers) 0;
      tab_holding_registers := replicate (Z.to_nat nb_holding_registers) 0 |}).

(** ** rcv_msg

    One wait, one read of up to 1024 bytes, the CRC check in RTU mode.
    [msg_length], which [WAIT_DATA ()] reads, is a local that is never
    assigned: [junk] is its indeterminate value.  The sleep between the wait
    and the read does not show in the model: [Bytes bs] is what the read
    finds. *)
Definition rcv_msg (E : modbus_h) (mb_param : modbus_param_t)
    (msg : list Z) (junk : Z) (w : wire) : Z * list Z * wire :=
  let length_to_read := 1024 in
  match WAIT_DATA E mb_param junk w with
  | Return ret w => (ret, msg, w)
  | Ready p w =>
      let '(read_ret, got, w) := sys_read p length_to_read w in
      if read_ret =? 0 then (CONNECTION_CLOSED E, msg, w)
      else if read_ret <? 0 then (SOCKET_FAILURE E, msg, w)
      else
        let msg := store msg 0 got in
        match type_com mb_param with
        | RTU => (check_crc16 E msg read_ret, msg, w)
        | TCP => (read_ret, msg, w)
        end
  end.

(** ** Client operations *)

(** The inner loop of [read_io_status]: [for (bit = 0x01; (bit & 0xff) &&
    (pos < nb);)].  [bit] is shifted out of [0xff] after eight turns, so a
    fuel of nine is enough. *)
Fixpoint read_io_bits (fuel : nat) (bit temp pos nb : Z) (data_dest : list Z)
    : Z * list Z :=
  match fuel with
  | O => (pos, data_dest)
  | S fuel' =>
      if negb (Z.land bit 0xff =? 0) && (pos <? nb) then
        read_io_bits fuel' (Z.shiftl bit 1) temp (pos + 1) nb
          (tab_set data_dest pos (if Z.land temp bit =? 0 then FALSE else TRUE))
      else (pos, data_dest)
  end.

(** The outer loop, [for (i = offset; i < offset_end; i++)], [n] turns left. *)
Fixpoint read_io_bytes (n : nat) (i : Z) (response : list Z) (pos nb : Z)
    (data_dest : list Z) : Z * list Z :=
  match n with
  | O => (pos, data_dest)
  | S n' =>
      let temp := get response (i + 2) in
      let '(pos, data_dest) := read_io_bits 9 0x01 temp pos nb data_dest in
      read_io_bytes n' (i + 1) response pos nb data_dest
  end.

(** Arguments and result as for [read_registers]. *)
Definition read_io_status (E : modbus_h) (mb_param : modbus_param_t)
    (function start_addr nb : Z) (data_dest : list Z)
    (t_id wrote : Z) (response : list Z) (junk : Z) (w : wire)
    : option (Z * list Z * Z * wire) :=
  let '(query_length, query, t_id) :=
    build_query_basis mb_param function start_addr nb [] t_id in
  let '(ret, query, _) := modbus_send E mb_param query query_length wrote in
  if 0 <? ret then
    match modbus_receive E mb_param query response UINT16 junk w with
    | None => None
    | Some (ret, response, w) =>
        if ret <? 0 then Some (ret, data_dest, t_id, w)
        else
          let offset := TAB_HEADER_LENGTH (type_com mb_param) in
          Some (ret,
                snd (read_io_bytes (Z.to_nat ret) offset response 0 nb data_dest),
                t_id, w)
    end
  else Some (ret, data_dest, t_id, w).

Definition read_coil_status (E : modbus_h) (mb_param : modbus_param_t)
    (start_addr nb : Z) (data_dest : list Z)
    (t_id wrote : Z) (response : list Z) (junk : Z) (w : wire)
    : option (Z * list Z * Z * wire) :=
  if MAX_STATUS <? nb then Some (INVALID_DATA E, data_dest, t_id, w)
  else
    match read_io_status E mb_param FC_READ_COIL_STATUS start_addr nb data_dest
            t_id wrote response junk w with
    | None => None
    | Some (status, data_dest, t_id, w) =>
        Some (if 0 <? status then nb else status, data_dest, t_id, w)
    end.

Definition read_input_status (E : modbus_h) (mb_param : modbus_param_t)
    (start_addr nb : Z) (data_dest : list Z)
    (t_id wrote : Z) (response : list Z) (junk : Z) (w : wire)
    : option (Z * list Z * Z * wire) :=
  if MAX_STATUS <? nb then Some (INVALID_DATA E, data_dest, t_id, w)
  else
    match read_io_status E mb_param FC_READ_INPUT_STATUS start_addr nb data_dest
            t_id wrote response junk w with
    | None => None
    | Some (status, data_dest, t_id, w) =>
        Some (if 0 <? status then nb else status, data_dest, t_id, w)
    end.

Definition read_holding_registers (E : modbus_h) (mb_param : modbus_param_t)
    (start_addr nb : Z) (data_dest : list Z) (data_type : Z)
    (t_id wrote : Z) (response : list Z) (junk : Z) (w : wire)
    : option (Z * list Z * Z * wire) :=
  if MAX_REGISTERS <? nb then Some (INVALID_DATA E, data_dest, t_id, w)
  else
    read_registers E mb_param FC_READ_HOLDING_REGISTERS start_addr nb data_dest
      data_type t_id wrote response junk w.

(** [set_single]: the result is the return value, the counter and the line
    that is left. *)
Definition set_single (E : modbus_h) (mb_param : modbus_param_t)
    (function addr value : Z)
    (t_id wrote : Z) (response : list Z) (junk : Z) (w : wire)
    : option (Z * Z * wire) :=
  let '(query_length, query, t_id) :=
    build_query_basis mb_param function addr value [] t_id in
  let '(ret, query, _) := modbus_send E mb_param query query_length wrote in
  if 0 <? ret then
    match modbus_receive E mb_param query response UINT16 junk w with
    | None => None
    | Some (ret, _, w) => Some (ret, t_id, w)
    end
  else Some (ret, t_id, w).

Definition force_single_coil (E : modbus_h) (mb_param : modbus_param_t)
    (coil_addr state : Z)
    (t_id wrote : Z) (response : list Z) (junk : Z) (w : wire)
    : option (Z * Z * wire) :=
  let state := if state =? 0 then state else 0xFF00 in
  set_single E mb_param FC_FORCE_SINGLE_COIL coil_addr state
    t_id wrote response junk w.

Definition preset_single_register (E : modbus_h) (mb_param : modbus_param_t)
    (reg_addr value : Z)
    (t_id wrote : Z) (response : list Z) (junk : Z) (w : wire)
    : option (Z * Z * wire) :=
  set_single E mb_param FC_PRESET_SINGLE_REGISTER reg_addr value
    t_id wrote response junk w.








(** ** Vocabulary of the statements *)

(** The two halves of the CRC state are bytes. *)
Definition byte_state (st : Z * Z) : Prop := is_byte (fst st) /\ is_byte (snd st).

(** [crc_hi << 8 | crc_lo] as a [uint16_t], the value [crc16] returns. *)
Definition crc16_pack (st : Z * Z) : Z :=
  uint16 (Z.lor (Z.shiftl (fst st) 8) (snd st)).

(** The quantity of a request: the big-endian 16-bit field at header
    offset + 3. *)
Definition quantity_field (mb_param : modbus_param_t) (query : list Z) : Z :=
  let offset := TAB_HEADER_LENGTH (type_com mb_param) in
  get query (offset + 3) * 256 + get query (offset + 4).

(** ceil(q / 8) *)
Definition ceil_div8 (q : Z) : Z := (q + 7) / 8.

(** Bytes per value as the specification words it, for the tags
    I8, U8, I16, U16, I32, U32, I64, U64, F32, F64 = 0 .. 9. *)
Definition bytes_per_value_spec (data_type : Z) : Z :=
  match data_type with
  | 0 | 1 => 1
  | 2 | 3 => 2
  | 4 | 5 | 8 => 4
  | 6 | 7 | 9 => 8
  | _ => 0
  end.

(** Bytes per value as [compute_response_length] has them. *)
Definition bytes_per_value (data_type : Z) : Z :=
  match data_type with
  | 0 | 1 => 1
  | 2 | 3 => 2
  | 4 | 5 => 4
  | _ => 2
  end.

(** The bytes a read can take at once. *)
Definition pending_bytes (p : pending) : Z :=
  match p with Bytes bs => Z.of_nat (length bs) | _ => 0 end.

(** The bytes a line still holds. *)
Fixpoint wire_bytes (w : wire) : Z :=
  match w with
  | [] => 0
  | Readable p :: w' => pending_bytes p + wire_bytes w'
  | _ :: w' => wire_bytes w'
  end.

(** The measure that bounds the turns of the receive loop, with
    [wire_weight]. *)
Definition pending_weight (p : pending) : nat :=
  match p with Bytes bs => length bs | _ => O end.

(** The first [select] runs into its timeout: nothing is readable before. *)
Fixpoint times_out (w : wire) : bool :=
  match w with
  | [] => true
  | Silence :: _ => true
  | Interrupted :: w' => times_out w'
  | _ => false
  end.

(** The length of an exception response: header, function, code, checksum. *)
Definition exception_response_length (mb_param : modbus_param_t) : Z :=
  TAB_HEADER_LENGTH (type_com mb_param) + 2 +
  TAB_CHECKSUM_LENGTH (type_com mb_param).

(** What [receive_msg] returns when [n] bytes were taken from the line and
    the loop ended without an error. *)
Definition delivered (E : modbus_h) (mb_param : modbus_param_t)
    (msg : list Z) (n : Z) : Z :=
  match type_com mb_param with
  | RTU => check_crc16 E msg n
  | TCP => n
  end.

(** The ways [receive_msg] ends, [n] bytes having been taken from the line. *)
Definition receive_post (E : modbus_h) (mb_param : modbus_param_t)
    (ret : Z) (msg : list Z) (n : Z) : Prop :=
  (ret = MB_EXCEPTION E /\ n = exception_response_length mb_param) \/
  (ret = SELECT_TIMEOUT E /\ n <> exception_response_length mb_param) \/
  In ret [SELECT_FAILURE E; CONNECTION_CLOSED E; SOCKET_FAILURE E; INVALID_DATA E] \/
  (ret = delivered E mb_param msg n /\ 0 < n).

(** The array a request is aimed at, by function code. *)
Definition target_size (mb_mapping : modbus_mapping_t) (fc : Z) : option Z :=
  if (fc =? FC_READ_COIL_STATUS) || (fc =? FC_FORCE_SINGLE_COIL) ||
     (fc =? FC_FORCE_MULTIPLE_COILS) then Some (nb_coil_status mb_mapping)
  else if fc =? FC_READ_INPUT_STATUS then Some (nb_input_status mb_mapping)
  else if (fc =? FC_READ_HOLDING_REGISTERS) || (fc =? FC_PRESET_SINGLE_REGISTER) ||
          (fc =? FC_PRESET_MULTIPLE_REGISTERS)
  then Some (nb_holding_registers mb_mapping)
  else if fc =? FC_READ_INPUT_REGISTERS then Some (nb_input_registers mb_mapping)
  else None.

(** The address of a request: the big-endian 16-bit field at header
    offset + 1. *)
Definition address_field (mb_param : modbus_param_t) (query : list Z) : Z :=
  let offset := TAB_HEADER_LENGTH (type_com mb_param) in
  get query (offset + 1) * 256 + get query (offset + 2).

(** The number of coils or registers a request touches: one for the single
    writes, whose field at offset + 3 is the value; the quantity field for
    the others. *)
Definition request_quantity (mb_param : modbus_param_t) (query : list Z) : Z :=
  let fc := get query (TAB_HEADER_LENGTH (type_com mb_param)) in
  if (fc =? FC_FORCE_SINGLE_COIL) || (fc =? FC_PRESET_SINGLE_REGISTER) then 1
  else quantity_field mb_param query.

(** A line on which the pieces [chunks] become readable one after the
    other. *)
Definition wire_of_chunks (chunks : list (list Z)) : wire :=
  fmap (fun c => Readable (Bytes c)) chunks.

(** The [sft] that [modbus_slave_manage] fills from a query. *)
Definition request_sft (mb_param : modbus_param_t) (query : list Z) : sft_t :=
  let offset := TAB_HEADER_LENGTH (type_com mb_param) in
  {| sft_slave := get query (offset - 1);
     sft_function := get query offset;
     sft_t_id := match type_com mb_param with
                 | TCP => word_add (get query 0) (get query 1)
                 | RTU => 0
                 end |}.

(** The length of a query without its checksum. *)
Definition request_length (mb_param : modbus_param_t) (query_length : Z) : Z :=
  match type_com mb_param with
  | TCP => query_length
  | RTU => query_length - CHECKSUM_LENGTH_RTU
  end.

(** The unit byte of the query is the server's or the broadcast address. *)
Definition addressed (mb_param : modbus_param_t) (query : list Z) : Prop :=
  let offset := TAB_HEADER_LENGTH (type_com mb_param) in
  get query (offset - 1) = slave mb_param \/
  get query (offset - 1) = MODBUS_BROADCAST_ADDRESS.

(** A map as [modbus_mapping_new] makes it and the server keeps it: the
    sizes are the lengths of the arrays, bits are 0 or 1, registers are
    16-bit. *)
Definition is_bit (z : Z) : Prop := z = 0 \/ z = 1.
Definition is_word (z : Z) : Prop := 0 <= z < 65536.

Definition mapping_ok (m : modbus_mapping_t) : Prop :=
  nb_coil_status m = Z.of_nat (length (tab_coil_status m)) /\
  nb_input_status m = Z.of_nat (length (tab_input_status m)) /\
  nb_holding_registers m = Z.of_nat (length (tab_holding_registers m)) /\
  nb_input_registers m = Z.of_nat (length (tab_input_registers m)) /\
  Forall is_bit (tab_coil_status m) /\
  Forall is_bit (tab_input_status m) /\
  Forall is_word (tab_holding_registers m) /\
  Forall is_word (tab_input_registers m).


(** The table a read request is aimed at, by function code. *)
Definition target_registers (mb_mapping : modbus_mapping_t) (fc : Z) : list Z :=
  if fc =? FC_READ_HOLDING_REGISTERS then tab_holding_registers mb_mapping
  else tab_input_registers mb_mapping.

Definition target_status (mb_mapping : modbus_mapping_t) (fc : Z) : list Z :=
  if fc =? FC_READ_COIL_STATUS then tab_coil_status mb_mapping
  else tab_input_status mb_mapping.

(** The frame a client operation puts on the line for the request
    [function], [start_addr], [nb]: the header of [build_query_basis], sent
    by [modbus_send]. *)
Definition request_frame (E : modbus_h) (mb_param : modbus_param_t)
    (function start_addr nb t_id : Z) : list Z :=
  let '(query_length, query, _) :=
    build_query_basis mb_param function start_addr nb [] t_id in
  snd (modbus_send E mb_param query query_length 0).


(** * Properties *)

(** ** Bytes and buffers *)

Lemma uint8_byte (z : Z) : is_byte z -> uint8 z = z.
Proof. unfold is_byte, uint8. intros H. now apply Z.mod_small. Qed.

Lemma uint8_is_byte (z : Z) : is_byte (uint8 z).
Proof. unfold is_byte, uint8. apply Z.mod_pos_bound. lia. Qed.

Lemma is_byteb_spec (z : Z) : is_byteb z = true <-> is_byte z.
Proof. unfold is_byteb, is_byte. rewrite andb_true_iff. lia. Qed.

Lemma byte_high_bits (z n : Z) : is_byte z -> 8 <= n -> Z.testbit z n = false.
Proof.
  intros Hz Hn. rewrite <- (Z.mod_small z (2 ^ 8)) by (unfold is_byte in Hz; lia).
  apply Z.mod_pow2_bits_high. lia.
Qed.

Lemma lxor_is_byte (a b : Z) : is_byte a -> is_byte b -> is_byte (Z.lxor a b).
Proof.
  intros Ha Hb. unfold is_byte in *.
  assert (H0 : 0 <= Z.lxor a b) by (apply Z.lxor_nonneg; lia).
  split; [exact H0|].
  destruct (Z.eq_dec (Z.lxor a b) 0) as [->|Hne]; [lia|].
  apply (Z.log2_lt_pow2 _ 8); [lia|].
  pose proof (Z.log2_lxor a b ltac:(lia) ltac:(lia)) as Hl.
  assert (Z.log2 a < 8).
  { destruct (Z.eq_dec a 0) as [->|]; [reflexivity|]. apply Z.log2_lt_pow2; lia. }
  assert (Z.log2 b < 8).
  { destruct (Z.eq_dec b 0) as [->|]; [reflexivity|]. apply Z.log2_lt_pow2; lia. }
  lia.
Qed.

Lemma word_or_add (hi lo : Z) : is_byte lo -> word_or hi lo = word_add hi lo.
Proof.
  intros Hlo. unfold word_or, word_add.
  assert (Hland : Z.land (Z.shiftl hi 8) lo = 0).
  { apply Z.bits_inj'. intros n Hn. rewrite Z.land_spec, Z.bits_0.
    destruct (Z.ltb_spec n 8).
    - rewrite Z.shiftl_spec_low by lia. reflexivity.
    - rewrite (byte_high_bits lo n) by (auto; lia). apply andb_false_r. }
  rewrite <- Z.lxor_lor by exact Hland.
  symmetry. now apply Z.add_nocarry_lxor.
Qed.

Lemma word_add_eq (hi lo : Z) : word_add hi lo = hi * 256 + lo.
Proof. unfold word_add. rewrite Z.shiftl_mul_pow2 by lia. reflexivity. Qed.

Lemma get_nat (buf : list Z) (i : nat) : get buf (Z.of_nat i) = default 0 (buf !! i).
Proof.
  unfold get. destruct (Z.ltb_spec (Z.of_nat i) 0); [lia|].
  now rewrite Nat2Z.id.
Qed.

Lemma get_poke (buf : list Z) (i j v : Z) :
  0 <= i -> get (poke buf i v) j = if j =? i then uint8 v else get buf j.
Proof.
  intros Hi. unfold get, poke.
  destruct (Z.ltb_spec j 0) as [Hj|Hj].
  { destruct (Z.eqb_spec j i); [lia|reflexivity]. }
  set (pad := buf ++ replicate (S (Z.to_nat i) - length buf) 0).
  assert (Hlen : (Z.to_nat i < length pad)%nat).
  { unfold pad. rewrite length_app, length_replicate. lia. }
  destruct (Z.eqb_spec j i) as [->|Hne].
  - now rewrite list_lookup_insert_eq.
  - rewrite list_lookup_insert_ne by lia.
    unfold pad. destruct (Nat.lt_ge_cases (Z.to_nat j) (length buf)) as [Hlt|Hge].
    + now rewrite lookup_app_l.
    + rewrite lookup_app_r by lia. rewrite (lookup_ge_None_2 buf) by lia.
      simpl. destruct (replicate _ 0 !! _) eqn:Hr; [|reflexivity].
      apply lookup_replicate in Hr. simpl. now destruct Hr.
Qed.

Lemma get_app_r (l1 l2 : list Z) (i : nat) :
  get (l1 ++ l2) (Z.of_nat (length l1 + i)) = get l2 (Z.of_nat i).
Proof.
  rewrite !get_nat. rewrite lookup_app_r by lia.
  now replace (length l1 + i - length l1)%nat with i by lia.
Qed.

(** ** The CRC tables *)

Lemma table_crc_hi_bytes : Forall is_byte table_crc_hi.
Proof.
  apply Forall_forall. intros x Hx. apply is_byteb_spec.
  assert (H : forallb is_byteb table_crc_hi = true) by (vm_compute; reflexivity).
  rewrite forallb_forall in H. apply H. now apply list_elem_of_In.
Qed.

Lemma table_crc_lo_bytes : Forall is_byte table_crc_lo.
Proof.
  apply Forall_forall. intros x Hx. apply is_byteb_spec.
  assert (H : forallb is_byteb table_crc_lo = true) by (vm_compute; reflexivity).
  rewrite forallb_forall in H. apply H. now apply list_elem_of_In.
Qed.

(** The low table is a permutation of the bytes: no value occurs twice. *)
Lemma table_crc_lo_nodup : NoDup table_crc_lo.
Proof. apply (bool_decide_unpack _). vm_compute. exact I. Qed.

Lemma table_lookup (tab : list Z) (i : Z) :
  length tab = 256%nat -> is_byte i ->
  exists x, tab !! Z.to_nat i = Some x /\ get tab i = x.
Proof.
  intros Hlen Hi. unfold is_byte in Hi.
  destruct (lookup_lt_is_Some_2 tab (Z.to_nat i)) as [x Hx]; [lia|].
  exists x. split; [exact Hx|].
  unfold get. destruct (Z.ltb_spec i 0); [lia|]. now rewrite Hx.
Qed.

Lemma get_table_crc_hi_byte (i : Z) : is_byte i -> is_byte (get table_crc_hi i).
Proof.
  intros Hi. destruct (table_lookup table_crc_hi i eq_refl Hi) as (x & Hx & ->).
  pose proof table_crc_hi_bytes as H. rewrite Forall_lookup in H. eauto.
Qed.

Lemma get_table_crc_lo_byte (i : Z) : is_byte i -> is_byte (get table_crc_lo i).
Proof.
  intros Hi. destruct (table_lookup table_crc_lo i eq_refl Hi) as (x & Hx & ->).
  pose proof table_crc_lo_bytes as H. rewrite Forall_lookup in H. eauto.
Qed.

Lemma get_table_crc_lo_inj (i j : Z) :
  is_byte i -> is_byte j -> get table_crc_lo i = get table_crc_lo j -> i = j.
Proof.
  intros Hi Hj Heq.
  destruct (table_lookup table_crc_lo i eq_refl Hi) as (x & Hx & Hgx).
  destruct (table_lookup table_crc_lo j eq_refl Hj) as (y & Hy & Hgy).
  assert (Hxy : y = x) by congruence. rewrite Hxy in Hy.
  pose proof (NoDup_lookup _ _ _ _ table_crc_lo_nodup Hx Hy).
  unfold is_byte in *. lia.
Qed.

(** ** crc16 *)

Lemma crc16_step_state (st : Z * Z) (b : Z) : byte_state (crc16_step st b).
Proof. destruct st as [hi lo]. split; apply uint8_is_byte. Qed.

Lemma crc16_step_bytes (hi lo b : Z) :
  is_byte hi -> is_byte lo -> is_byte b ->
  crc16_step (hi, lo) b =
  (Z.lxor lo (get table_crc_hi (Z.lxor hi b)), get table_crc_lo (Z.lxor hi b)).
Proof.
  intros Hhi Hlo Hb. unfold crc16_step.
  pose proof (lxor_is_byte hi b Hhi Hb) as Hi.
  rewrite !uint8_byte; auto using get_table_crc_lo_byte.
  apply lxor_is_byte; auto using get_table_crc_hi_byte.
Qed.

(** Two different bytes lead one state to two different states. *)
Lemma crc16_step_inj_byte (st : Z * Z) (b b' : Z) :
  byte_state st -> is_byte b -> is_byte b' -> b <> b' ->
  crc16_step st b <> crc16_step st b'.
Proof.
  destruct st as [hi lo]. intros [Hhi Hlo] Hb Hb' Hne Heq. simpl in Hhi, Hlo.
  rewrite !crc16_step_bytes in Heq by assumption.
  injection Heq as _ Heq.
  apply get_table_crc_lo_inj in Heq; auto using lxor_is_byte.
  apply Hne. apply (f_equal (Z.lxor hi)) in Heq.
  rewrite <- !Z.lxor_assoc, !Z.lxor_nilpotent, !Z.lxor_0_l in Heq. exact Heq.
Qed.

(** One byte leads two different states to two different states. *)
Lemma crc16_step_inj_state (st st' : Z * Z) (b : Z) :
  byte_state st -> byte_state st' -> is_byte b -> st <> st' ->
  crc16_step st b <> crc16_step st' b.
Proof.
  destruct st as [hi lo], st' as [hi' lo'].
  intros [Hhi Hlo] [Hhi' Hlo'] Hb Hne Heq. simpl in Hhi, Hlo, Hhi', Hlo'.
  rewrite !crc16_step_bytes in Heq by assumption.
  injection Heq as Hfst Hsnd.
  apply get_table_crc_lo_inj in Hsnd; auto using lxor_is_byte.
  assert (hi = hi').
  { apply (f_equal (fun x => Z.lxor x b)) in Hsnd.
    rewrite !Z.lxor_assoc, !Z.lxor_nilpotent, !Z.lxor_0_r in Hsnd. exact Hsnd. }
  subst hi'.
  assert (lo = lo').
  { apply (f_equal (fun x => Z.lxor x (get table_crc_hi (Z.lxor hi b)))) in Hfst.
    rewrite !Z.lxor_assoc, !Z.lxor_nilpotent, !Z.lxor_0_r in Hfst. exact Hfst. }
  congruence.
Qed.

Lemma crc16_pack_bytes (hi lo : Z) :
  is_byte hi -> is_byte lo -> crc16_pack (hi, lo) = hi * 256 + lo.
Proof.
  intros Hhi Hlo. unfold crc16_pack. simpl.
  fold (word_or hi lo). rewrite word_or_add, word_add_eq by assumption.
  unfold uint16, is_byte in *. apply Z.mod_small. lia.
Qed.

Lemma crc16_fold_state (l : list Z) (st : Z * Z) :
  byte_state st -> byte_state (fold_left crc16_step l st).
Proof.
  revert st. induction l as [|b l IH]; intros st Hst; simpl; [exact Hst|].
  apply IH, crc16_step_state.
Qed.

Lemma crc16_fold_inj (l : list Z) (st st' : Z * Z) :
  Forall is_byte l -> byte_state st -> byte_state st' -> st <> st' ->
  fold_left crc16_step l st <> fold_left crc16_step l st'.
Proof.
  intros Hl. revert st st'.
  induction Hl as [|b l Hb Hl IH]; intros st st' Hst Hst' Hne; simpl; [exact Hne|].
  apply IH; auto using crc16_step_state, crc16_step_inj_state.
Qed.

Lemma crc16_loop_fold (l pre rest : list Z) (st : Z * Z) :
  crc16_loop (length l) (pre ++ l ++ rest) (Z.of_nat (length pre)) st =
  fold_left crc16_step l st.
Proof.
  revert pre st. induction l as [|b l IH]; intros pre st; simpl; [reflexivity|].
  replace (Z.of_nat (length pre)) with (Z.of_nat (length pre + 0)) at 2 by lia.
  rewrite get_app_r. cbn [get]. rewrite get_nat. simpl.
  replace (Z.of_nat (length pre) + 1) with (Z.of_nat (length (pre ++ [b])))
    by (rewrite length_app; simpl; lia).
  replace (pre ++ b :: l ++ rest) with ((pre ++ [b]) ++ l ++ rest)
    by (now rewrite <- app_assoc).
  apply IH.
Qed.

(** [crc16] reads the first [buffer_length] bytes only. *)
Lemma crc16_prefix (l rest : list Z) :
  Z.of_nat (length l) < 65536 ->
  crc16 (l ++ rest) (Z.of_nat (length l)) =
  crc16_pack (fold_left crc16_step l (0xFF, 0xFF)).
Proof.
  intros Hlen. unfold crc16.
  replace (uint16 (Z.of_nat (length l))) with (Z.of_nat (length l))
    by (unfold uint16; rewrite Z.mod_small; lia).
  rewrite Nat2Z.id.
  pose proof (crc16_loop_fold l [] rest (0xFF, 0xFF)) as H.
  change (crc16_loop (length l) (l ++ rest) 0 (0xFF, 0xFF) =
          fold_left crc16_step l (0xFF, 0xFF)) in H.
  rewrite H. now destruct (fold_left crc16_step l (255, 255)).
Qed.

Lemma crc16_bytes_eq (s : list Z) :
  Z.of_nat (length s) < 65536 ->
  exists hi lo, is_byte hi /\ is_byte lo /\
    fold_left crc16_step s (0xFF, 0xFF) = (hi, lo) /\
    crc16_bytes s = [hi; lo].
Proof.
  intros Hlen.
  destruct (fold_left crc16_step s (0xFF, 0xFF)) as [hi lo] eqn:Hfold.
  assert (Hst : byte_state (hi, lo)).
  { rewrite <- Hfold. apply crc16_fold_state. split; simpl; unfold is_byte; lia. }
  destruct Hst as [Hhi Hlo]. simpl in Hhi, Hlo.
  exists hi, lo. repeat split; try apply Hhi; try apply Hlo.
  unfold crc16_bytes.
  pose proof (crc16_prefix s [] Hlen) as Hc. rewrite app_nil_r in Hc.
  rewrite Hc, Hfold, crc16_pack_bytes by assumption.
  unfold is_byte in *.
  rewrite Z.shiftr_div_pow2 by lia.
  change 0x00FF with (Z.ones 8). rewrite Z.land_ones by lia.
  change (2 ^ 8) with 256.
  replace ((hi * 256 + lo) / 256) with hi by (apply Z.div_unique with lo; lia).
  replace ((hi * 256 + lo) mod 256) with lo by (apply Z.mod_unique with hi; lia).
  now rewrite !uint8_byte by (unfold is_byte; lia).
Qed.

(** What [check_crc16] compares on a message of a body and two more bytes. *)
Lemma check_crc16_split (E : modbus_h) (l : list Z) (x y : Z) :
  Z.of_nat (length l) < 65534 -> is_byte x -> is_byte y ->
  check_crc16 E (l ++ [x; y]) (Z.of_nat (length (l ++ [x; y]))) =
  if crc16_pack (fold_left crc16_step l (0xFF, 0xFF)) =? x * 256 + y
  then Z.of_nat (length (l ++ [x; y])) else INVALID_CRC E.
Proof.
  intros Hlen Hx Hy. unfold check_crc16.
  rewrite length_app. simpl length.
  replace (Z.of_nat (length l + 2) - 2) with (Z.of_nat (length l)) by lia.
  replace (Z.of_nat (length l + 2) - 1) with (Z.of_nat (length l + 1)) by lia.
  rewrite crc16_prefix by lia.
  replace (Z.of_nat (length l)) with (Z.of_nat (length l + 0)) at 1 by lia.
  rewrite !get_app_r. rewrite !get_nat. simpl.
  fold (word_or x y). rewrite word_or_add, word_add_eq by assumption.
  replace (uint16 (x * 256 + y)) with (x * 256 + y)
    by (unfold uint16, is_byte in *; rewrite Z.mod_small; lia).
  reflexivity.
Qed.

Lemma crc16_fold_one_byte (s : list Z) (i : nat) (b b' : Z) :
  Forall is_byte s -> s !! i = Some b -> is_byte b' -> b <> b' ->
  fold_left crc16_step (<[i := b']> s) (0xFF, 0xFF) <>
  fold_left crc16_step s (0xFF, 0xFF).
Proof.
  intros Hs Hi Hb' Hne.
  pose proof (lookup_lt_Some _ _ _ Hi) as Hlt.
  rewrite insert_take_drop by exact Hlt.
  rewrite <- (take_drop_middle s i b Hi) at 3.
  rewrite !fold_left_app. simpl.
  assert (Hst : byte_state (fold_left crc16_step (take i s) (0xFF, 0xFF))).
  { apply crc16_fold_state. split; simpl; unfold is_byte; lia. }
  assert (Hb : is_byte b).
  { rewrite Forall_lookup in Hs. eauto. }
  apply crc16_fold_inj.
  - now apply Forall_drop.
  - apply crc16_step_state.
  - apply crc16_step_state.
  - apply crc16_step_inj_byte; auto.
Qed.

(** C1: a body of 1 to 254 bytes followed by the two bytes of its [crc16],
    high byte first, is accepted by [check_crc16], which returns the length
    of the whole message; the same message with exactly one byte replaced by
    another byte is refused with [INVALID_CRC]. *)
Theorem check_crc16_one_byte (E : modbus_h) (s : list Z) :
  Forall is_byte s -> (1 <= length s <= 254)%nat ->
  let msg := s ++ crc16_bytes s in
  let msg_length := Z.of_nat (length msg) in
  check_crc16 E msg msg_length = msg_length /\
  forall (i : nat) (b : Z),
    (i < length msg)%nat -> is_byte b -> msg !! i <> Some b ->
    check_crc16 E (<[i := b]> msg) msg_length = INVALID_CRC E.
Proof.
  intros Hs Hlen.
  destruct (crc16_bytes_eq s ltac:(lia)) as (hi & lo & Hhi & Hlo & Hfold & Hbytes).
  rewrite Hbytes. cbv zeta. split.
  - rewrite check_crc16_split by (auto; lia).
    rewrite Hfold, crc16_pack_bytes, Z.eqb_refl by assumption. reflexivity.
  - intros i b Hi Hb Hne. rewrite length_app in Hi. simpl in Hi.
    assert (Hpack : forall st x y, byte_state st -> is_byte x -> is_byte y ->
              st <> (x, y) -> (crc16_pack st =? x * 256 + y) = false).
    { intros [h l] x y [Hh Hl] Hx Hy Hd. simpl in Hh, Hl.
      rewrite crc16_pack_bytes by assumption.
      apply Z.eqb_neq. intros Heq. apply Hd.
      unfold is_byte in *. f_equal; lia. }
    assert (Hinit : byte_state (0xFF, 0xFF)) by (split; simpl; unfold is_byte; lia).
    destruct (Nat.lt_ge_cases i (length s)) as [Hlt|Hge].
    + destruct (lookup_lt_is_Some_2 s i Hlt) as [b0 Hb0].
      assert (Hb0b : b0 <> b).
      { intros ->. apply Hne. now rewrite lookup_app_l. }
      rewrite insert_app_l by exact Hlt.
      replace (length (s ++ [hi; lo])) with (length (<[i := b]> s ++ [hi; lo]))
        by (rewrite !length_app, length_insert; reflexivity).
      rewrite check_crc16_split by (auto; rewrite length_insert; lia).
      rewrite Hpack; auto.
      * now apply crc16_fold_state.
      * rewrite <- Hfold. now apply crc16_fold_one_byte with b0.
    + rewrite insert_app_r_alt by exact Hge.
      destruct (i - length s)%nat as [|[|k]] eqn:Hk; [| |lia].
      * assert (Hbhi : b <> hi).
        { intros ->. apply Hne. rewrite lookup_app_r by lia. now rewrite Hk. }
        change (<[0%nat := b]> [hi; lo]) with [b; lo].
        replace (length (s ++ [hi; lo])) with (length (s ++ [b; lo]))
          by (rewrite !length_app; reflexivity).
        rewrite check_crc16_split by (auto; lia).
        rewrite Hpack; auto.
        -- now apply crc16_fold_state.
        -- rewrite Hfold. congruence.
      * assert (Hblo : b <> lo).
        { intros ->. apply Hne. rewrite lookup_app_r by lia. now rewrite Hk. }
        change (<[1%nat := b]> [hi; lo]) with [hi; b].
        replace (length (s ++ [hi; lo])) with (length (s ++ [hi; b]))
          by (rewrite !length_app; reflexivity).
        rewrite check_crc16_split by (auto; lia).
        rewrite Hpack; auto.
        -- now apply crc16_fold_state.
        -- rewrite Hfold. congruence.
Qed.

Lemma check_crc16_one_byte_witness :
  let s := [0x01; 0x03; 0x00; 0x00; 0x00; 0x01] in
  s ++ crc16_bytes s = [0x01; 0x03; 0x00; 0x00; 0x00; 0x01; 0x84; 0x0A] /\
  check_crc16 libmodbus_h (s ++ crc16_bytes s) 8 = 8 /\
  check_crc16 libmodbus_h [0x01; 0x03; 0x00; 0x07; 0x00; 0x01; 0x84; 0x0A] 8
  = INVALID_CRC libmodbus_h.
Proof.
  intros s.
  assert (Hs : Forall is_byte s) by (repeat constructor; unfold is_byte; lia).
  assert (Hlen : (1 <= length s <= 254)%nat) by (simpl; lia).
  destruct (check_crc16_one_byte libmodbus_h s Hs Hlen) as [Hok Hbad].
  split; [reflexivity|]. split; [exact Hok|].
  apply (Hbad 3%nat 0x07); [simpl; lia | unfold is_byte; lia | discriminate].
Defined.

(** ** compute_response_length *)

Lemma get_is_byte (buf : list Z) (i : Z) : Forall is_byte buf -> is_byte (get buf i).
Proof.
  intros H. unfold get. destruct (i <? 0); [unfold is_byte; lia|].
  destruct (buf !! Z.to_nat i) as [x|] eqn:Hx; simpl.
  - rewrite Forall_lookup in H. eauto.
  - unfold is_byte; lia.
Qed.

Lemma byte_count_ceil (nb : Z) : 0 <= nb -> byte_count nb = ceil_div8 nb.
Proof.
  intros Hnb. unfold byte_count, ceil_div8.
  rewrite Z.quot_div_nonneg, Z.rem_mod_nonneg by lia.
  pose proof (Z.div_mod nb 8 ltac:(lia)) as Hdm.
  pose proof (Z.mod_pos_bound nb 8 ltac:(lia)) as Hm.
  destruct (Z.eqb_spec (nb mod 8) 0) as [H0|H0].
  - apply Z.div_unique with 7; lia.
  - apply Z.div_unique with (nb mod 8 - 1); lia.
Qed.

Lemma quantity_field_or (mb_param : modbus_param_t) (query : list Z) :
  Forall is_byte query ->
  word_or (get query (TAB_HEADER_LENGTH (type_com mb_param) + 3))
          (get query (TAB_HEADER_LENGTH (type_com mb_param) + 4))
  = quantity_field mb_param query.
Proof.
  intros Hq. rewrite word_or_add by now apply get_is_byte.
  now rewrite word_add_eq.
Qed.

Lemma quantity_field_nonneg (mb_param : modbus_param_t) (query : list Z) :
  Forall is_byte query -> 0 <= quantity_field mb_param query < 65536.
Proof.
  intros Hq. unfold quantity_field.
  pose proof (get_is_byte query (TAB_HEADER_LENGTH (type_com mb_param) + 3) Hq).
  pose proof (get_is_byte query (TAB_HEADER_LENGTH (type_com mb_param) + 4) Hq).
  unfold is_byte in *. lia.
Qed.

(** C2, as the code has it: header + 2 + ceil(quantity/8) + checksum for
    0x01 and 0x02; header + 2 + bytes_per_value times quantity + checksum for
    0x03 and 0x04, with 1 byte per value for I8/U8, 2 for I16/U16, 4 for
    I32/U32 and 2 for I64/U64/F32/F64 and every other tag; header + 3 +
    checksum for 0x07; the undefined length for 0x11; header + 5 + checksum
    for every other function code. *)
Theorem compute_response_length_cases (E : modbus_h) (mb_param : modbus_param_t)
    (query : list Z) (data_type : Z) :
  Forall is_byte query ->
  let header := TAB_HEADER_LENGTH (type_com mb_param) in
  let checksum := TAB_CHECKSUM_LENGTH (type_com mb_param) in
  let fc := get query header in
  let quantity := quantity_field mb_param query in
  let len := compute_response_length E mb_param query data_type in
  (fc = 0x01 \/ fc = 0x02 -> len = header + 2 + ceil_div8 quantity + checksum) /\
  (fc = 0x03 \/ fc = 0x04 ->
     len = header + 2 + bytes_per_value data_type * quantity + checksum) /\
  (fc = 0x07 -> len = header + 3 + checksum) /\
  (fc = 0x11 -> len = MSG_LENGTH_UNDEFINED E) /\
  (fc <> 0x01 -> fc <> 0x02 -> fc <> 0x03 -> fc <> 0x04 -> fc <> 0x07 ->
   fc <> 0x11 -> len = header + 5 + checksum).
Proof.
  intros Hq header checksum fc quantity len.
  pose proof (quantity_field_or mb_param query Hq) as Hor.
  pose proof (quantity_field_nonneg mb_param query Hq) as Hnn.
  pose proof (byte_count_ceil quantity ltac:(subst quantity; lia)) as Hceil.
  unfold byte_count in Hceil.
  subst len. unfold compute_response_length. cbv zeta.
  rewrite !Hor. fold header checksum fc quantity.
  unfold FC_READ_COIL_STATUS, FC_READ_INPUT_STATUS, FC_READ_HOLDING_REGISTERS,
    FC_READ_INPUT_REGISTERS, FC_READ_EXCEPTION_STATUS, FC_REPORT_SLAVE_ID.
  repeat split.
  - intros [->| ->]; simpl; lia.
  - intros [->| ->]; simpl; unfold bytes_per_value;
      repeat match goal with
             | |- context [match ?x with _ => _ end] => destruct x
             end; lia.
  - intros ->. simpl. lia.
  - intros ->. reflexivity.
  - intros H1 H2 H3 H4 H7 H11.
    repeat match goal with
           | |- context [?a =? ?b] => destruct (Z.eqb_spec a b); try lia
           end.
    all: simpl; lia.
Qed.

Lemma compute_response_length_cases_witness :
  compute_response_length libmodbus_h {| type_com := TCP; slave := 1 |}
    [0x00; 0x01; 0x00; 0x00; 0x00; 0x06; 0x01; 0x02; 0x00; 0x00; 0x00; 0x0A] 3
  = 7 + 2 + ceil_div8 10 + 0.
Proof.
  set (query := [0x00; 0x01; 0x00; 0x00; 0x00; 0x06; 0x01; 0x02; 0x00; 0x00; 0x00; 0x0A]).
  assert (Hq : Forall is_byte query) by (repeat constructor; unfold is_byte; lia).
  destruct (compute_response_length_cases libmodbus_h
              {| type_com := TCP; slave := 1 |} query 3 Hq) as [H _].
  apply H. right. reflexivity.
Defined.

(** C2 as stated fails for the tag F64 (9): a request for one holding
    register, RTU, gives 1 + 2 + 2 + 2 = 7, not 1 + 2 + 8 + 2 = 13. *)
Lemma compute_response_length_f64 :
  let mb_param := {| type_com := RTU; slave := 1 |} in
  let query := [0x01; 0x03; 0x00; 0x00; 0x00; 0x01] in
  compute_response_length libmodbus_h mb_param query 9 = 7 /\
  TAB_HEADER_LENGTH RTU + 2 +
    bytes_per_value_spec 9 * quantity_field mb_param query +
    TAB_CHECKSUM_LENGTH RTU = 13 /\
  compute_response_length libmodbus_h mb_param query 9 <>
  TAB_HEADER_LENGTH RTU + 2 +
    bytes_per_value_spec 9 * quantity_field mb_param query +
    TAB_CHECKSUM_LENGTH RTU.
Proof. repeat split; discriminate. Qed.

(** ** The line and receive_msg *)

Lemma takeZ_dropZ (n : Z) (l : list Z) : takeZ n l ++ dropZ n l = l.
Proof.
  revert n. induction l as [|x l IH]; intros n; simpl; [reflexivity|].
  destruct (n <=? 0); simpl; [reflexivity|]. now rewrite IH.
Qed.

Lemma WAIT_DATA_ready (E : modbus_h) (mb_param : modbus_param_t) (n : Z)
    (w w' : wire) (p : pending) :
  WAIT_DATA E mb_param n w = Ready p w' ->
  pending_bytes p + wire_bytes w' = wire_bytes w /\
  (pending_weight p + wire_weight w' < wire_weight w)%nat.
Proof.
  induction w as [|e w IH]; simpl; [discriminate|].
  destruct e as [| | |q]; try discriminate.
  - intros H. destruct (IH H). split; lia.
  - intros H. injection H as -> ->. destruct p; simpl; split; lia.
Qed.

Lemma WAIT_DATA_return (E : modbus_h) (mb_param : modbus_param_t) (n : Z)
    (w w' : wire) (ret : Z) :
  WAIT_DATA E mb_param n w = Return ret w' ->
  wire_bytes w' = wire_bytes w /\
  (ret = wait_timeout E mb_param n \/ ret = SELECT_FAILURE E).
Proof.
  induction w as [|e w IH]; simpl.
  - intros H. injection H as <- <-. auto.
  - destruct e as [| | |q]; try discriminate.
    + intros H. injection H as <- <-. auto.
    + exact IH.
    + intros H. injection H as <- <-. auto.
Qed.

Lemma sys_read_spec (p : pending) (count : Z) (w w1 : wire) (r : Z) (got : list Z) :
  sys_read p count w = (r, got, w1) ->
  0 < r ->
  r + wire_bytes w1 = pending_bytes p + wire_bytes w /\
  (wire_weight w1 < S (pending_weight p + wire_weight w))%nat /\
  (wire_weight w1 <= pending_weight p + wire_weight w)%nat.
Proof.
  destruct p as [bs| |]; simpl; intros H Hr; injection H as <- <- <-; try lia.
  pose proof (takeZ_dropZ (size_t count) bs) as Htd.
  apply (f_equal (@length Z)) in Htd. rewrite length_app in Htd.
  destruct (dropZ (size_t count) bs) as [|x rest] eqn:Hd; simpl in *; lia.
Qed.

Lemma WAIT_DATA_return_post (E : modbus_h) (mb_param : modbus_param_t)
    (n : Z) (w w' : wire) (ret : Z) (msg : list Z) :
  WAIT_DATA E mb_param n w = Return ret w' ->
  wire_bytes w' = wire_bytes w /\ receive_post E mb_param ret msg n.
Proof.
  intros H. destruct (WAIT_DATA_return _ _ _ _ _ _ H) as [Hb [-> | ->]].
  - split; [exact Hb|]. unfold wait_timeout, receive_post.
    fold (exception_response_length mb_param).
    destruct (Z.eqb_spec n (exception_response_length mb_param)); auto.
  - split; [exact Hb|]. unfold receive_post. simpl. tauto.
Qed.

Lemma receive_loop_spec (E : modbus_h) (mb_param : modbus_param_t) (fuel : nat) :
  forall (p : pending) (w : wire) (msg : list Z)
         (msg_length msg_length_computed length_to_read : Z) (state : rcv_state),
  (pending_weight p + wire_weight w < fuel)%nat ->
  0 <= msg_length ->
  exists ret msg' w',
    receive_loop fuel E mb_param p w msg
      msg_length msg_length_computed length_to_read state = Some (ret, msg', w') /\
    receive_post E mb_param ret msg'
      (msg_length + pending_bytes p + wire_bytes w - wire_bytes w').
Proof.
  induction fuel as [|fuel IH];
    intros p w msg msg_length mlc ltr state Hfuel Hlen; [lia|].
  cbn [receive_loop].
  destruct (sys_read p ltr w) as [[r got] w1] eqn:Hread.
  destruct (Z.eqb_spec r 0) as [Hr0|Hr0].
  { eexists _, _, _. split; [reflexivity|]. unfold receive_post. simpl. tauto. }
  destruct (Z.ltb_spec r 0) as [Hrneg|Hrpos].
  { eexists _, _, _. split; [reflexivity|]. unfold receive_post. simpl. tauto. }
  destruct (sys_read_spec _ _ _ _ _ _ Hread ltac:(lia)) as (Hbytes & _ & Hweight).
  set (msg1 := store msg msg_length got).
  assert (Hcont : forall (l c : Z) (st : rcv_state),
    exists ret msg' w',
      (if 0 <? l
       then match WAIT_DATA E mb_param (msg_length + r) w1 with
            | Ready p0 w0 =>
                receive_loop fuel E mb_param p0 w0 msg1 (msg_length + r) c l st
            | Return ret w0 => Some (ret, msg1, w0)
            end
       else match type_com mb_param with
            | RTU => Some (check_crc16 E msg1 (msg_length + r), msg1, w1)
            | TCP => Some (msg_length + r, msg1, w1)
            end) = Some (ret, msg', w') /\
      receive_post E mb_param ret msg'
        (msg_length + pending_bytes p + wire_bytes w - wire_bytes w')).
  { intros l c st. destruct (0 <? l).
    - destruct (WAIT_DATA E mb_param (msg_length + r) w1) as [p0 w0|ret w0] eqn:Hwait.
      + destruct (WAIT_DATA_ready _ _ _ _ _ _ Hwait) as [Hb Hw].
        destruct (IH p0 w0 msg1 (msg_length + r) c l st ltac:(lia) ltac:(lia))
          as (ret & msg' & w' & Hloop & Hpost).
        exists ret, msg', w'. split; [exact Hloop|].
        replace (msg_length + pending_bytes p + wire_bytes w - wire_bytes w')
          with (msg_length + r + pending_bytes p0 + wire_bytes w0 - wire_bytes w')
          by lia.
        exact Hpost.
      + destruct (WAIT_DATA_return_post _ _ _ _ _ _ msg1 Hwait) as [Hb Hpost].
        eexists _, _, _. split; [reflexivity|].
        replace (msg_length + pending_bytes p + wire_bytes w - wire_bytes w0)
          with (msg_length + r) by lia.
        exact Hpost.
    - exists (delivered E mb_param msg1 (msg_length + r)), msg1, w1.
      split; [unfold delivered; now destruct (type_com mb_param)|].
      replace (msg_length + pending_bytes p + wire_bytes w - wire_bytes w1)
        with (msg_length + r) by lia.
      unfold receive_post. right. right. right. split; [reflexivity|lia]. }
  destruct (msg_length + r <? mlc); [apply Hcont|].
  destruct state; try apply Hcont.
  destruct (_ <? _); [|apply Hcont].
  eexists _, _, _. split; [reflexivity|]. unfold receive_post. simpl. tauto.
Qed.

(** [receive_msg] returns (the fuel it gives its loop is enough), and in one
    of the ways of [receive_post]. *)
Lemma receive_msg_spec (E : modbus_h) (mb_param : modbus_param_t)
    (msg_length_computed : Z) (msg : list Z) (w : wire) :
  exists ret msg' w',
    receive_msg E mb_param msg_length_computed msg w = Some (ret, msg', w') /\
    receive_post E mb_param ret msg' (wire_bytes w - wire_bytes w').
Proof.
  unfold receive_msg.
  destruct (if msg_length_computed =? MSG_LENGTH_UNDEFINED E
            then (FUNCTION, TAB_HEADER_LENGTH (type_com mb_param) + 1)
            else (COMPLETE, msg_length_computed)) as [state mlc].
  destruct (WAIT_DATA E mb_param 0 w) as [p w0|ret w0] eqn:Hwait.
  - destruct (WAIT_DATA_ready _ _ _ _ _ _ Hwait) as [Hb Hw].
    destruct (receive_loop_spec E mb_param (S (wire_weight w)) p w0 msg 0 mlc mlc state
                ltac:(lia) ltac:(lia)) as (ret & msg' & w' & Hloop & Hpost).
    exists ret, msg', w'. split; [exact Hloop|].
    replace (wire_bytes w - wire_bytes w')
      with (0 + pending_bytes p + wire_bytes w0 - wire_bytes w') by lia.
    exact Hpost.
  - destruct (WAIT_DATA_return_post _ _ _ _ _ _ msg Hwait) as [Hb Hpost].
    eexists _, _, _. split; [reflexivity|].
    replace (wire_bytes w - wire_bytes w0) with 0 by lia.
    exact Hpost.
Qed.

Lemma receive_msg_total (E : modbus_h) (mb_param : modbus_param_t)
    (msg_length_computed : Z) (msg : list Z) (w : wire) :
  exists r, receive_msg E mb_param msg_length_computed msg w = Some r.
Proof.
  destruct (receive_msg_spec E mb_param msg_length_computed msg w)
    as (ret & msg' & w' & H & _).
  eauto.
Qed.

Lemma sentinels_distinct (E : modbus_h) :
  sentinels_ok E ->
  MB_EXCEPTION E <> SELECT_TIMEOUT E /\ MB_EXCEPTION E <> SELECT_FAILURE E /\
  MB_EXCEPTION E <> CONNECTION_CLOSED E /\ MB_EXCEPTION E <> SOCKET_FAILURE E /\
  MB_EXCEPTION E <> INVALID_DATA E /\ MB_EXCEPTION E <> INVALID_CRC E.
Proof.
  intros [_ Hnd]. unfold sentinels in Hnd.
  repeat match goal with
         | H : NoDup (_ :: _) |- _ => apply NoDup_cons in H; destruct H
         end.
  repeat match goal with
         | H : not (elem_of _ (_ :: _)) |- _ => apply not_elem_of_cons in H; destruct H
         end.
  repeat split; congruence.
Qed.

Lemma sentinels_negative (E : modbus_h) :
  sentinels_ok E ->
  INVALID_DATA E < 0 /\ INVALID_CRC E < 0 /\ INVALID_EXCEPTION_CODE E < 0 /\
  SELECT_TIMEOUT E < 0 /\ SELECT_FAILURE E < 0 /\ SOCKET_FAILURE E < 0 /\
  CONNECTION_CLOSED E < 0 /\ MB_EXCEPTION E < 0.
Proof.
  intros [Hneg _]. unfold sentinels in Hneg.
  repeat match goal with
         | H : Forall _ (_ :: _) |- _ => apply Forall_cons in H; destruct H
         end.
  repeat split; assumption.
Qed.

Lemma libmodbus_h_ok : sentinels_ok libmodbus_h.
Proof.
  unfold sentinels_ok, sentinels. simpl. split.
  - repeat constructor; lia.
  - apply (bool_decide_unpack _). vm_compute. exact I.
Qed.

Lemma check_crc16_cases (E : modbus_h) (msg : list Z) (n : Z) :
  (check_crc16 E msg n = n /\
   crc16 msg (n - 2) = uint16 (word_or (get msg (n - 2)) (get msg (n - 1)))) \/
  check_crc16 E msg n = INVALID_CRC E.
Proof.
  unfold check_crc16, word_or.
  destruct (Z.eqb_spec (crc16 msg (n - 2))
              (uint16 (Z.lor (Z.shiftl (get msg (n - 2)) 8) (get msg (n - 1)))));
    auto.
Qed.

Lemma WAIT_DATA_times_out (E : modbus_h) (mb_param : modbus_param_t) (n : Z)
    (w : wire) :
  times_out w = true ->
  exists w', WAIT_DATA E mb_param n w = Return (wait_timeout E mb_param n) w'.
Proof.
  induction w as [|e w IH]; simpl; [eauto|].
  destruct e; try discriminate; eauto.
Qed.

Lemma exception_response_length_values (mb_param : modbus_param_t) :
  exception_response_length mb_param =
  match type_com mb_param with RTU => 5 | TCP => 9 end.
Proof. unfold exception_response_length. now destruct (type_com mb_param). Qed.

(** C3, as the code has it: when the first wait runs into its timeout
    with no byte received, [receive_msg] returns [SELECT_TIMEOUT], whatever
    the expected length, the exception-response length (5 for RTU, 9 for
    TCP) included: the macro compares the number of bytes received so far,
    which is 0 there.  [MB_EXCEPTION] is returned only when that number is
    the exception-response length, that is by a later wait. *)
Theorem receive_msg_first_timeout (E : modbus_h) (mb_param : modbus_param_t)
    (msg_length_computed : Z) (msg : list Z) (w : wire) :
  sentinels_ok E ->
  exists ret msg' w',
    receive_msg E mb_param msg_length_computed msg w = Some (ret, msg', w') /\
    (times_out w = true -> ret = SELECT_TIMEOUT E /\ msg' = msg) /\
    (ret = MB_EXCEPTION E ->
     wire_bytes w - wire_bytes w' = exception_response_length mb_param).
Proof.
  intros Hok.
  destruct (sentinels_distinct E Hok) as (Hd1 & Hd2 & Hd3 & Hd4 & Hd5 & Hd6).
  destruct (sentinels_negative E Hok) as (_ & _ & _ & _ & _ & _ & _ & Hneg).
  destruct (receive_msg_spec E mb_param msg_length_computed msg w)
    as (ret & msg' & w' & Hrcv & Hpost).
  exists ret, msg', w'. split; [exact Hrcv|]. split.
  - intros Hto. unfold receive_msg in Hrcv.
    destruct (WAIT_DATA_times_out E mb_param 0 w Hto) as [w0 Hwait].
    destruct (if msg_length_computed =? MSG_LENGTH_UNDEFINED E
              then (FUNCTION, TAB_HEADER_LENGTH (type_com mb_param) + 1)
              else (COMPLETE, msg_length_computed)) as [state mlc].
    rewrite Hwait in Hrcv. injection Hrcv as <- <- <-.
    split; [|reflexivity]. unfold wait_timeout.
    fold (exception_response_length mb_param).
    rewrite exception_response_length_values.
    now destruct (type_com mb_param).
  - intros ->. destruct Hpost as [[_ Hn]|[[Heq _]|[Hin|[Hdel Hpos]]]].
    + exact Hn.
    + congruence.
    + simpl in Hin. intuition congruence.
    + unfold delivered in Hdel. destruct (type_com mb_param); [|lia].
      destruct (check_crc16_cases E msg' (wire_bytes w - wire_bytes w'))
        as [[Hc _]|Hc]; rewrite Hc in Hdel; [lia|congruence].
Qed.

Lemma receive_msg_first_timeout_witness :
  sentinels_ok libmodbus_h /\
  exists ret msg' w',
    receive_msg libmodbus_h {| type_com := RTU; slave := 1 |} 5 [] [Interrupted; Silence]
    = Some (ret, msg', w') /\
    (times_out [Interrupted; Silence] = true ->
     ret = SELECT_TIMEOUT libmodbus_h /\ msg' = []) /\
    (ret = MB_EXCEPTION libmodbus_h ->
     wire_bytes [Interrupted; Silence] - wire_bytes w' =
     exception_response_length {| type_com := RTU; slave := 1 |}).
Proof.
  split; [exact libmodbus_h_ok|].
  apply (receive_msg_first_timeout libmodbus_h {| type_com := RTU; slave := 1 |}
           5 [] [Interrupted; Silence]).
  exact libmodbus_h_ok.
Defined.

(** C3 as stated fails: with the expected length equal to the
    exception-response length (5 for RTU, 9 for TCP) and a line that stays
    silent, [receive_msg] returns [SELECT_TIMEOUT], not [MB_EXCEPTION]. *)
Lemma receive_msg_silent_line :
  receive_msg libmodbus_h {| type_com := RTU; slave := 1 |} 5 [] [Silence]
  = Some (SELECT_TIMEOUT libmodbus_h, [], []) /\
  receive_msg libmodbus_h {| type_com := TCP; slave := 1 |} 9 [] [Silence]
  = Some (SELECT_TIMEOUT libmodbus_h, [], []) /\
  exception_response_length {| type_com := RTU; slave := 1 |} = 5 /\
  exception_response_length {| type_com := TCP; slave := 1 |} = 9 /\
  5 <> MSG_LENGTH_UNDEFINED libmodbus_h /\ 9 <> MSG_LENGTH_UNDEFINED libmodbus_h /\
  SELECT_TIMEOUT libmodbus_h <> MB_EXCEPTION libmodbus_h.
Proof. repeat split; discriminate. Qed.

(** C4, as the code has it: a non-negative result of [receive_msg] is the
    number of bytes taken from the line; in RTU mode the CRC computed over
    all of them but the last two equals the 16-bit value the last two hold;
    in TCP mode nothing more is checked (the MBAP length field is not
    read). *)
Theorem receive_msg_integrity (E : modbus_h) (mb_param : modbus_param_t)
    (msg_length_computed : Z) (msg : list Z) (w : wire)
    (ret : Z) (msg' : list Z) (w' : wire) :
  sentinels_ok E ->
  receive_msg E mb_param msg_length_computed msg w = Some (ret, msg', w') ->
  0 <= ret ->
  ret = wire_bytes w - wire_bytes w' /\
  (type_com mb_param = RTU ->
   check_crc16 E msg' ret = ret /\
   crc16 msg' (ret - 2) =
   uint16 (word_or (get msg' (ret - 2)) (get msg' (ret - 1)))).
Proof.
  intros Hok Hrcv Hret.
  destruct (sentinels_negative E Hok) as (N1 & N2 & N3 & N4 & N5 & N6 & N7 & N8).
  destruct (receive_msg_spec E mb_param msg_length_computed msg w)
    as (ret0 & msg0 & w0 & Hrcv0 & Hpost).
  rewrite Hrcv in Hrcv0. injection Hrcv0 as <- <- <-.
  destruct Hpost as [[Heq _]|[[Heq _]|[Hin|[Hdel Hpos]]]]; try lia.
  { simpl in Hin. intuition lia. }
  unfold delivered in Hdel.
  destruct (type_com mb_param) eqn:Ht.
  - destruct (check_crc16_cases E msg' (wire_bytes w - wire_bytes w'))
      as [[Hc Hcrc]|Hc]; rewrite Hc in Hdel; [|lia].
    split; [exact Hdel|]. intros _. subst ret. auto.
  - split; [exact Hdel|discriminate].
Qed.

Lemma receive_msg_integrity_witness :
  sentinels_ok libmodbus_h /\
  7 = wire_bytes [Readable (Bytes [0x01; 0x03; 0x02; 0x12; 0x34; 0xB5; 0x33])]
      - wire_bytes [] /\
  (RTU = RTU ->
   check_crc16 libmodbus_h [0x01; 0x03; 0x02; 0x12; 0x34; 0xB5; 0x33] 7 = 7 /\
   crc16 [0x01; 0x03; 0x02; 0x12; 0x34; 0xB5; 0x33] (7 - 2) =
   uint16 (word_or (get [0x01; 0x03; 0x02; 0x12; 0x34; 0xB5; 0x33] (7 - 2))
                   (get [0x01; 0x03; 0x02; 0x12; 0x34; 0xB5; 0x33] (7 - 1)))).
Proof.
  split; [exact libmodbus_h_ok|].
  apply (receive_msg_integrity libmodbus_h {| type_com := RTU; slave := 1 |} 7 []
           [Readable (Bytes [0x01; 0x03; 0x02; 0x12; 0x34; 0xB5; 0x33])]
           7 [0x01; 0x03; 0x02; 0x12; 0x34; 0xB5; 0x33] []).
  - exact libmodbus_h_ok.
  - reflexivity.
  - lia.
Defined.

(** C4 as stated fails in TCP mode: a frame of 12 bytes whose MBAP length
    field says 0xFFFF is delivered with the result 12. *)
Lemma receive_msg_tcp_length_field :
  let frame := [0x00; 0x01; 0x00; 0x00; 0xFF; 0xFF;
                0x01; 0x05; 0x00; 0x01; 0xFF; 0x00] in
  receive_msg libmodbus_h {| type_com := TCP; slave := 1 |} 12 []
    [Readable (Bytes frame)] = Some (12, frame, []) /\
  word_add (get frame 4) (get frame 5) = 0xFFFF /\
  0xFFFF <> 12 - 6.
Proof. repeat split; discriminate. Qed.

(** ** modbus_receive *)

Lemma lor_0x80 (fc : Z) : 0 <= fc < 0x80 -> Z.lor fc 0x80 = fc + 0x80.
Proof.
  intros Hfc.
  assert (Hland : Z.land fc 0x80 = 0).
  { apply Z.bits_inj'. intros n Hn. rewrite Z.land_spec, Z.bits_0.
    destruct (Z.eq_dec n 7) as [->|Hne].
    - rewrite <- (Z.mod_small fc (2 ^ 7)) by lia.
      rewrite Z.mod_pow2_bits_high by lia. reflexivity.
    - change 0x80 with (2 ^ 7). rewrite Z.pow2_bits_false by lia.
      apply andb_false_r. }
  rewrite <- Z.lxor_lor by exact Hland.
  symmetry. now apply Z.add_nocarry_lxor.
Qed.

(** C5, as the code has it: when [receive_msg] ends with [MB_EXCEPTION],
    the CRC of the five bytes is right (RTU) and the response function byte
    is the request function byte OR 0x80 (a request code is below 0x80),
    [modbus_receive] returns minus the exception code, strictly negative,
    for the codes 0x01..0x0B, and [INVALID_EXCEPTION_CODE] for every code
    above 0x0B, the bound being the size of the table of messages (which
    has an entry for the code 0x00 too). *)
Theorem modbus_receive_exception_code (E : modbus_h) (mb_param : modbus_param_t)
    (query response : list Z) (data_type junk : Z) (w : wire)
    (resp : list Z) (w' : wire) :
  let offset := TAB_HEADER_LENGTH (type_com mb_param) in
  let code := get resp (offset + 1) in
  sentinels_ok E ->
  receive_msg E mb_param (compute_response_length E mb_param query data_type)
    response w = Some (MB_EXCEPTION E, resp, w') ->
  (type_com mb_param = RTU ->
   check_crc16 E resp EXCEPTION_RESPONSE_LENGTH_RTU = EXCEPTION_RESPONSE_LENGTH_RTU) ->
  0 <= get query offset < 0x80 ->
  get resp offset = Z.lor (get query offset) 0x80 ->
  is_byte code ->
  exists ret,
    modbus_receive E mb_param query response data_type junk w = Some (ret, resp, w') /\
    (0x01 <= code <= 0x0B -> ret = - code /\ ret < 0) /\
    (0x0B < code -> ret = INVALID_EXCEPTION_CODE E).
Proof.
  intros offset code Hok Hrcv Hcrc Hfc Hresp Hcode.
  destruct (sentinels_negative E Hok) as (_ & _ & _ & _ & _ & _ & _ & Hneg).
  unfold modbus_receive. rewrite Hrcv. fold offset.
  destruct (Z.leb_spec 0 (MB_EXCEPTION E)); [lia|].
  rewrite Z.eqb_refl.
  rewrite lor_0x80 in Hresp by exact Hfc.
  assert (Hdet : (0x80 + get query offset =? get resp offset) = true)
    by (apply Z.eqb_eq; lia).
  assert (Hcheck :
    exists ret,
      (if 0x80 + get query offset =? get resp offset
       then if get resp (offset + 1) <? NB_TAB_ERROR_MSG
            then Some (- get resp (offset + 1), resp, w')
            else Some (INVALID_EXCEPTION_CODE E, resp, w')
       else Some (MB_EXCEPTION E, resp, w')) = Some (ret, resp, w') /\
      (0x01 <= code <= 0x0B -> ret = - code /\ ret < 0) /\
      (0x0B < code -> ret = INVALID_EXCEPTION_CODE E)).
  { rewrite Hdet. fold code. unfold NB_TAB_ERROR_MSG.
    destruct (Z.ltb_spec code 12); eexists; (split; [reflexivity|]);
      repeat split; intros; lia. }
  destruct (type_com mb_param) eqn:Ht.
  - rewrite (Hcrc eq_refl). unfold EXCEPTION_RESPONSE_LENGTH_RTU.
    change (5 <? 0) with false. cbv iota.
    rewrite Hdet in *. exact Hcheck.
  - exact Hcheck.
Qed.

Lemma modbus_receive_exception_code_witness :
  exists ret,
    modbus_receive libmodbus_h {| type_com := RTU; slave := 1 |}
      [0x01; 0x03; 0x00; 0xFF; 0x00; 0x01; 0xB4; 0x3A] [] 3 0
      [Readable (Bytes [0x01; 0x83; 0x02; 0xC0; 0xF1]); Silence]
    = Some (ret, [0x01; 0x83; 0x02; 0xC0; 0xF1], []) /\
    (0x01 <= 0x02 <= 0x0B -> ret = - 0x02 /\ ret < 0) /\
    (0x0B < 0x02 -> ret = INVALID_EXCEPTION_CODE libmodbus_h).
Proof.
  apply (modbus_receive_exception_code libmodbus_h {| type_com := RTU; slave := 1 |}
           [0x01; 0x03; 0x00; 0xFF; 0x00; 0x01; 0xB4; 0x3A] [] 3 0
           [Readable (Bytes [0x01; 0x83; 0x02; 0xC0; 0xF1]); Silence]
           [0x01; 0x83; 0x02; 0xC0; 0xF1] []).
  - exact libmodbus_h_ok.
  - reflexivity.
  - reflexivity.
  - change (0 <= 0x03 < 0x80). lia.
  - reflexivity.
  - change (is_byte 0x02). unfold is_byte. lia.
Defined.

(** C5 as stated fails for the exception code 0x00, which is outside
    0x01..0x0B: [modbus_receive] returns 0, not [INVALID_EXCEPTION_CODE]. *)
Lemma modbus_receive_exception_code_zero :
  modbus_receive libmodbus_h {| type_com := RTU; slave := 1 |}
    [0x01; 0x03; 0x00; 0x00; 0x00; 0x01; 0x84; 0x0A] [] 3 0
    [Readable (Bytes [0x01; 0x83; 0x00; 0x41; 0x30]); Silence]
  = Some (0, [0x01; 0x83; 0x00; 0x41; 0x30], []) /\
  0 <> INVALID_EXCEPTION_CODE libmodbus_h.
Proof. split; [reflexivity|discriminate]. Qed.

(** C6, as the code has it: for a reply delivered by [receive_msg] whose
    function byte is 0x0F or 0x10, [modbus_receive] returns the quantity
    when the quantity of the response equals the quantity of the request,
    and [INVALID_DATA] when the two differ; the echoed address takes no part
    in the comparison. *)
Theorem modbus_receive_write_multiple (E : modbus_h) (mb_param : modbus_param_t)
    (query response : list Z) (data_type junk : Z) (w : wire)
    (ret : Z) (resp : list Z) (w' : wire) :
  let offset := TAB_HEADER_LENGTH (type_com mb_param) in
  receive_msg E mb_param (compute_response_length E mb_param query data_type)
    response w = Some (ret, resp, w') ->
  0 <= ret ->
  get resp offset = 0x0F \/ get resp offset = 0x10 ->
  Forall is_byte query -> Forall is_byte resp ->
  (quantity_field mb_param resp = quantity_field mb_param query ->
   modbus_receive E mb_param query response data_type junk w
   = Some (quantity_field mb_param query, resp, w')) /\
  (quantity_field mb_param resp <> quantity_field mb_param query ->
   modbus_receive E mb_param query response data_type junk w
   = Some (INVALID_DATA E, resp, w')).
Proof.
  intros offset Hrcv Hret Hfc Hq Hr.
  unfold modbus_receive. rewrite Hrcv. fold offset.
  destruct (Z.leb_spec 0 ret); [|lia].
  assert (Hsw :
    (if (get resp offset =? FC_READ_COIL_STATUS) ||
        (get resp offset =? FC_READ_INPUT_STATUS) then true else
     if (get resp offset =? FC_READ_HOLDING_REGISTERS) ||
        (get resp offset =? FC_READ_INPUT_REGISTERS) then true else false) = false
    /\ (get resp offset =? FC_FORCE_MULTIPLE_COILS) ||
       (get resp offset =? FC_PRESET_MULTIPLE_REGISTERS) = true).
  { destruct Hfc as [-> | ->]; split; reflexivity. }
  destruct Hsw as [Hsw1 Hsw2].
  destruct ((get resp offset =? FC_READ_COIL_STATUS) ||
            (get resp offset =? FC_READ_INPUT_STATUS)); [discriminate|].
  destruct ((get resp offset =? FC_READ_HOLDING_REGISTERS) ||
            (get resp offset =? FC_READ_INPUT_REGISTERS)); [discriminate|].
  rewrite Hsw2.
  subst offset. rewrite (quantity_field_or mb_param resp Hr).
  rewrite word_add_eq. fold (quantity_field mb_param query).
  split; intros Hcmp.
  - rewrite Hcmp, Z.eqb_refl. reflexivity.
  - destruct (Z.eqb_spec (quantity_field mb_param query)
                (quantity_field mb_param resp)); [congruence|reflexivity].
Qed.

Lemma modbus_receive_write_multiple_witness :
  let mb_param := {| type_com := RTU; slave := 1 |} in
  let query := [0x01; 0x10; 0x00; 0x13; 0x00; 0x01; 0x02; 0x12; 0x34; 0xA9; 0x84] in
  let resp := [0x01; 0x10; 0x00; 0x13; 0x00; 0x01; 0xF0; 0x0C] in
  (quantity_field mb_param resp = quantity_field mb_param query ->
   modbus_receive libmodbus_h mb_param query [] 3 0 [Readable (Bytes resp)]
   = Some (quantity_field mb_param query, resp, [])) /\
  (quantity_field mb_param resp <> quantity_field mb_param query ->
   modbus_receive libmodbus_h mb_param query [] 3 0 [Readable (Bytes resp)]
   = Some (INVALID_DATA libmodbus_h, resp, [])).
Proof.
  intros mb_param query resp.
  apply (modbus_receive_write_multiple libmodbus_h mb_param query [] 3 0
           [Readable (Bytes resp)] 8 resp []).
  - reflexivity.
  - lia.
  - right. reflexivity.
  - repeat constructor; unfold is_byte; lia.
  - repeat constructor; unfold is_byte; lia.
Defined.

(** C6 as stated fails: a reply to a write of one register at address
    0x0013 that echoes the address 0x0014 and the same quantity is accepted,
    with the result 1. *)
Lemma modbus_receive_other_address :
  let mb_param := {| type_com := RTU; slave := 1 |} in
  let query := [0x01; 0x10; 0x00; 0x13; 0x00; 0x01; 0x02; 0x12; 0x34; 0xA9; 0x84] in
  let resp := [0x01; 0x10; 0x00; 0x14; 0x00; 0x01; 0x41; 0xCD] in
  modbus_receive libmodbus_h mb_param query [] 3 0 [Readable (Bytes resp)]
  = Some (1, resp, []) /\
  word_add (get resp 2) (get resp 3) <> word_add (get query 2) (get query 3) /\
  1 <> INVALID_DATA libmodbus_h.
Proof. repeat split; discriminate. Qed.

(** ** modbus_slave_manage *)

Lemma get_bytes_at (buf : list Z) (n i : Z) :
  0 <= i < n -> get (bytes_at buf n) i = get buf i.
Proof.
  intros Hi. unfold bytes_at.
  rewrite <- (Z2Nat.id i) at 1 by lia. rewrite get_nat.
  rewrite list_lookup_fmap, lookup_seq_lt by lia. simpl.
  now rewrite Z2Nat.id by lia.
Qed.

Lemma get_memcpy (n : nat) (dst src : list Z) (d s j : Z) :
  0 <= d ->
  get (memcpy dst d src s n) j =
  if (d <=? j) && (j <? d + Z.of_nat n) then uint8 (get src (s + (j - d)))
  else get dst j.
Proof.
  revert dst d s. induction n as [|n IH]; intros dst d s Hd.
  - simpl. destruct (Z.leb_spec d j), (Z.ltb_spec j (d + Z.of_nat 0)); simpl; auto; lia.
  - cbn [memcpy]. rewrite IH by lia. rewrite get_poke by lia.
    destruct (Z.leb_spec (d + 1) j), (Z.ltb_spec j (d + 1 + Z.of_nat n)),
      (Z.leb_spec d j), (Z.ltb_spec j (d + Z.of_nat (S n))), (Z.eqb_spec j d);
      simpl; try lia; auto.
    + f_equal. f_equal. lia.
    + subst j. f_equal. f_equal. lia.
Qed.

(** The frame [modbus_send] puts on the line holds the buffer up to
    [query_length], but for the MBAP length field. *)
Lemma modbus_send_frame (E : modbus_h) (mb_param : modbus_param_t)
    (query : list Z) (query_length wrote i : Z) :
  0 <= i < query_length ->
  (type_com mb_param = TCP -> i <> 4 /\ i <> 5) ->
  get (snd (modbus_send E mb_param query query_length wrote)) i = get query i.
Proof.
  intros Hi Htcp. unfold modbus_send.
  destruct (type_com mb_param); simpl.
  - rewrite get_bytes_at by lia. rewrite !get_poke by lia.
    destruct (Z.eqb_spec i (query_length + 1)), (Z.eqb_spec i query_length);
      try lia; reflexivity.
  - destruct (Htcp eq_refl). rewrite get_bytes_at by lia.
    unfold set_message_length_tcp. rewrite !get_poke by lia.
    destruct (Z.eqb_spec i 5), (Z.eqb_spec i 4); try lia; reflexivity.
Qed.

Lemma response_exception_spec (mb_param : modbus_param_t) (sft : sft_t)
    (exception_code : Z) (response : list Z) :
  let offset := TAB_HEADER_LENGTH (type_com mb_param) in
  let r := response_exception mb_param sft exception_code response in
  fst r = offset + 2 /\
  get (snd r) offset = uint8 (sft_function sft + 0x80) /\
  get (snd r) (offset + 1) = uint8 (- exception_code).
Proof.
  unfold response_exception, build_response_basis, build_response_basis_rtu,
    build_response_basis_tcp.
  destruct (type_com mb_param); cbn [fst snd TAB_HEADER_LENGTH sft_function];
    unfold PRESET_RESPONSE_LENGTH_RTU, PRESET_RESPONSE_LENGTH_TCP,
      HEADER_LENGTH_RTU, HEADER_LENGTH_TCP;
    rewrite !get_poke by lia; simpl; auto.
Qed.

Lemma build_response_basis_spec (mb_param : modbus_param_t) (sft : sft_t)
    (response : list Z) :
  let offset := TAB_HEADER_LENGTH (type_com mb_param) in
  let r := build_response_basis mb_param sft response in
  fst r = offset + 1 /\ get (snd r) offset = uint8 (sft_function sft).
Proof.
  unfold build_response_basis, build_response_basis_rtu, build_response_basis_tcp.
  destruct (type_com mb_param); cbn [fst snd TAB_HEADER_LENGTH sft_function];
    unfold PRESET_RESPONSE_LENGTH_RTU, PRESET_RESPONSE_LENGTH_TCP,
      HEADER_LENGTH_RTU, HEADER_LENGTH_TCP;
    rewrite !get_poke by lia; simpl; auto.
Qed.

Lemma address_field_uint16 (mb_param : modbus_param_t) (query : list Z) :
  Forall is_byte query ->
  uint16 (word_add (get query (TAB_HEADER_LENGTH (type_com mb_param) + 1))
                   (get query (TAB_HEADER_LENGTH (type_com mb_param) + 2)))
  = address_field mb_param query.
Proof.
  intros Hq. rewrite word_add_eq. unfold address_field, uint16.
  pose proof (get_is_byte query (TAB_HEADER_LENGTH (type_com mb_param) + 1) Hq).
  pose proof (get_is_byte query (TAB_HEADER_LENGTH (type_com mb_param) + 2) Hq).
  unfold is_byte in *. apply Z.mod_small. lia.
Qed.

Lemma manage_switch_illegal_address (mb_param : modbus_param_t) (sft : sft_t)
    (query : list Z) (query_length : Z) (mb_mapping : modbus_mapping_t)
    (response : list Z) (size : Z) :
  Forall is_byte query ->
  target_size mb_mapping (get query (TAB_HEADER_LENGTH (type_com mb_param)))
  = Some size ->
  size < address_field mb_param query + request_quantity mb_param query ->
  manage_switch mb_param sft query query_length mb_mapping response =
  (mb_mapping,
   snd (response_exception mb_param sft ILLEGAL_DATA_ADDRESS response),
   fst (response_exception mb_param sft ILLEGAL_DATA_ADDRESS response)).
Proof.
  intros Hq Hsize Hover.
  unfold manage_switch. cbv zeta.
  rewrite (address_field_uint16 mb_param query Hq).
  rewrite !word_add_eq. fold (quantity_field mb_param query).
  unfold target_size, request_quantity in *.
  destruct (response_exception mb_param sft ILLEGAL_DATA_ADDRESS response)
    as [len resp] eqn:Hexc. simpl fst. simpl snd.
  set (fc := get query (TAB_HEADER_LENGTH (type_com mb_param))) in *.
  unfold FC_READ_COIL_STATUS, FC_READ_INPUT_STATUS, FC_READ_HOLDING_REGISTERS,
    FC_READ_INPUT_REGISTERS, FC_FORCE_SINGLE_COIL, FC_PRESET_SINGLE_REGISTER,
    FC_FORCE_MULTIPLE_COILS, FC_PRESET_MULTIPLE_REGISTERS in *.
  destruct (Z.eqb_spec fc 0x01) as [H1|H1].
  { rewrite H1 in *. simpl in Hsize, Hover. injection Hsize as <-.
    destruct (Z.ltb_spec (nb_coil_status mb_mapping)
                (address_field mb_param query + quantity_field mb_param query));
      [reflexivity|lia]. }
  destruct (Z.eqb_spec fc 0x02) as [H2|H2].
  { rewrite H2 in *. simpl in Hsize, Hover. injection Hsize as <-.
    destruct (Z.ltb_spec (nb_input_status mb_mapping)
                (address_field mb_param query + quantity_field mb_param query));
      [reflexivity|lia]. }
  destruct (Z.eqb_spec fc 0x03) as [H3|H3].
  { rewrite H3 in *. simpl in Hsize, Hover. injection Hsize as <-.
    destruct (Z.ltb_spec (nb_holding_registers mb_mapping)
                (address_field mb_param query + quantity_field mb_param query));
      [reflexivity|lia]. }
  destruct (Z.eqb_spec fc 0x04) as [H4|H4].
  { rewrite H4 in *. simpl in Hsize, Hover. injection Hsize as <-.
    destruct (Z.ltb_spec (nb_input_registers mb_mapping)
                (address_field mb_param query + quantity_field mb_param query));
      [reflexivity|lia]. }
  destruct (Z.eqb_spec fc 0x05) as [H5|H5].
  { rewrite H5 in *. simpl in Hsize, Hover. injection Hsize as <-.
    destruct (Z.leb_spec (nb_coil_status mb_mapping) (address_field mb_param query));
      [reflexivity|lia]. }
  destruct (Z.eqb_spec fc 0x06) as [H6|H6].
  { rewrite H6 in *. simpl in Hsize, Hover. injection Hsize as <-.
    destruct (Z.leb_spec (nb_holding_registers mb_mapping)
                (address_field mb_param query)); [reflexivity|lia]. }
  destruct (Z.eqb_spec fc 0x0F) as [H15|H15].
  { rewrite H15 in *. simpl in Hsize, Hover. injection Hsize as <-.
    destruct (Z.ltb_spec (nb_coil_status mb_mapping)
                (address_field mb_param query + quantity_field mb_param query));
      [reflexivity|lia]. }
  destruct (Z.eqb_spec fc 0x10) as [H16|H16].
  { rewrite H16 in *. simpl in Hsize, Hover. injection Hsize as <-.
    destruct (Z.ltb_spec (nb_holding_registers mb_mapping)
                (address_field mb_param query + quantity_field mb_param query));
      [reflexivity|lia]. }
  simpl in Hsize. discriminate.
Qed.

(** C7: a read or write query addressed to the server (its unit byte is
    the server's or the broadcast address) whose address plus quantity is
    beyond the size of the array it is aimed at is answered with one frame
    whose function byte is the query's function byte OR 0x80 and whose next
    byte is the exception code 0x02 (illegal data address), a code of
    0x01..0x0B; the map is left as it is. *)
Theorem modbus_slave_manage_illegal_address (E : modbus_h)
    (mb_param : modbus_param_t) (query : list Z) (query_length : Z)
    (mb_mapping : modbus_mapping_t) (response : list Z) (wrote : Z) (size : Z) :
  let offset := TAB_HEADER_LENGTH (type_com mb_param) in
  let fc := get query offset in
  Forall is_byte query ->
  get query (offset - 1) = slave mb_param \/
  get query (offset - 1) = MODBUS_BROADCAST_ADDRESS ->
  target_size mb_mapping fc = Some size ->
  size < address_field mb_param query + request_quantity mb_param query ->
  exists frame,
    modbus_slave_manage E mb_param query query_length mb_mapping response wrote
    = (mb_mapping, [frame]) /\
    get frame offset = Z.lor fc 0x80 /\
    get frame (offset + 1) = - ILLEGAL_DATA_ADDRESS /\
    0x01 <= - ILLEGAL_DATA_ADDRESS <= 0x0B.
Proof.
  intros offset fc Hq Hunit Hsize Hover.
  unfold modbus_slave_manage. fold offset.
  assert (Hmine : negb (get query (offset - 1) =? slave mb_param) &&
                  negb (get query (offset - 1) =? MODBUS_BROADCAST_ADDRESS) = false).
  { destruct Hunit as [-> | ->]; rewrite Z.eqb_refl; simpl;
      [reflexivity|apply andb_false_r]. }
  rewrite Hmine.
  set (sq := match type_com mb_param with
             | RTU => _
             | TCP => _
             end).
  assert (Hfun : sft_function (fst sq) = fc).
  { subst sq. now destruct (type_com mb_param). }
  destruct sq as [sft ql]. simpl in Hfun.
  rewrite (manage_switch_illegal_address mb_param sft query ql mb_mapping response
             size Hq Hsize Hover).
  destruct (response_exception_spec mb_param sft ILLEGAL_DATA_ADDRESS response)
    as (Hlen & Hf & Hc). cbv zeta in Hlen, Hf, Hc. fold offset in Hlen, Hf, Hc.
  destruct (response_exception mb_param sft ILLEGAL_DATA_ADDRESS response)
    as [len resp]. simpl in Hlen, Hf, Hc. simpl fst. simpl snd.
  pose proof (modbus_send_frame E mb_param resp len wrote) as Hframe.
  destruct (modbus_send E mb_param resp len wrote) as [[r q'] frame].
  simpl in Hframe. exists frame. split; [reflexivity|].
  assert (Hoff : offset = 1 /\ type_com mb_param = RTU \/
                 offset = 7 /\ type_com mb_param = TCP).
  { subst offset. destruct (type_com mb_param); auto. }
  assert (Hfcb : 0 <= fc < 0x80).
  { assert (is_byte fc) by now apply get_is_byte.
    unfold target_size in Hsize. unfold is_byte in *.
    unfold FC_READ_COIL_STATUS, FC_READ_INPUT_STATUS, FC_READ_HOLDING_REGISTERS,
      FC_READ_INPUT_REGISTERS, FC_FORCE_SINGLE_COIL, FC_PRESET_SINGLE_REGISTER,
      FC_FORCE_MULTIPLE_COILS, FC_PRESET_MULTIPLE_REGISTERS in Hsize.
    repeat match type of Hsize with
           | context [?a =? ?b] => destruct (Z.eqb_spec a b); try lia
           end.
    simpl in Hsize. discriminate. }
  rewrite !Hframe
    by first [lia | intros Ht; destruct Hoff as [[? ?]|[? ?]]; [congruence|lia]].
  rewrite Hf, Hc, Hfun, lor_0x80 by exact Hfcb.
  unfold ILLEGAL_DATA_ADDRESS, uint8. rewrite Z.mod_small by lia.
  repeat split; lia.
Qed.

Lemma modbus_slave_manage_illegal_address_witness :
  let mb_mapping :=
    {| nb_coil_status := 0; nb_input_status := 0;
       nb_input_registers := 0; nb_holding_registers := 1;
       tab_coil_status := []; tab_input_status := [];
       tab_input_registers := []; tab_holding_registers := [0x1234] |} in
  exists frame,
    modbus_slave_manage libmodbus_h {| type_com := RTU; slave := 1 |}
      [0x01; 0x03; 0x00; 0xFF; 0x00; 0x01; 0xB4; 0x3A] 8 mb_mapping [] 5
    = (mb_mapping, [frame]) /\
    get frame 1 = Z.lor 0x03 0x80 /\
    get frame (1 + 1) = - ILLEGAL_DATA_ADDRESS /\
    0x01 <= - ILLEGAL_DATA_ADDRESS <= 0x0B.
Proof.
  intros mb_mapping.
  apply (modbus_slave_manage_illegal_address libmodbus_h
           {| type_com := RTU; slave := 1 |}
           [0x01; 0x03; 0x00; 0xFF; 0x00; 0x01; 0xB4; 0x3A] 8 mb_mapping [] 5 1).
  - repeat constructor; unfold is_byte; lia.
  - left. reflexivity.
  - reflexivity.
  - vm_compute. reflexivity.
Defined.

(** The ways [manage_switch] ends: the map as it was, or a single write
    echoed, or a multiple write answered. *)
Lemma manage_switch_map (mb_param : modbus_param_t) (sft : sft_t)
    (query : list Z) (query_length : Z) (mb_mapping : modbus_mapping_t)
    (response : list Z) :
  let offset := TAB_HEADER_LENGTH (type_com mb_param) in
  let fc := get query offset in
  let r := manage_switch mb_param sft query query_length mb_mapping response in
  fst (fst r) = mb_mapping \/
  ((fc = 0x05 \/ fc = 0x06) /\
   snd (fst r) = memcpy response 0 query 0 (Z.to_nat query_length) /\
   snd r = query_length) \/
  ((fc = 0x0F \/ fc = 0x10) /\
   get (snd (fst r)) offset = uint8 (sft_function sft) /\
   snd r = offset + 5).
Proof.
  intros offset fc r. subst r. unfold manage_switch. fold offset. fold fc.
  cbv zeta.
  pose proof (build_response_basis_spec mb_param sft response) as Hb.
  cbv zeta in Hb. fold offset in Hb.
  destruct (build_response_basis mb_param sft response) as [len0 resp0].
  simpl in Hb. destruct Hb as [Hlen0 Hget0].
  assert (Hoff : 1 <= offset) by (subst offset; destruct (type_com mb_param); simpl;
    unfold HEADER_LENGTH_RTU, HEADER_LENGTH_TCP; lia).
  destruct (response_exception mb_param sft ILLEGAL_DATA_ADDRESS response).
  destruct (response_exception mb_param sft ILLEGAL_DATA_VALUE response).
  unfold FC_READ_COIL_STATUS, FC_READ_INPUT_STATUS, FC_READ_HOLDING_REGISTERS,
    FC_READ_INPUT_REGISTERS, FC_FORCE_SINGLE_COIL, FC_PRESET_SINGLE_REGISTER,
    FC_FORCE_MULTIPLE_COILS, FC_PRESET_MULTIPLE_REGISTERS.
  destruct (Z.eqb_spec fc 0x01).
  { destruct (_ <? _); [now left|]. destruct (response_io_status _ _ _ _ _). now left. }
  destruct (Z.eqb_spec fc 0x02).
  { destruct (_ <? _); [now left|]. destruct (response_io_status _ _ _ _ _). now left. }
  destruct (Z.eqb_spec fc 0x03).
  { destruct (_ <? _); [now left|]. destruct (read_registers_loop _ _ _ _ _). now left. }
  destruct (Z.eqb_spec fc 0x04).
  { destruct (_ <? _); [now left|]. destruct (read_registers_loop _ _ _ _ _). now left. }
  destruct (Z.eqb_spec fc 0x05).
  { destruct (_ <=? _); [now left|]. destruct (_ || _); [|now left].
    right. left. cbn [fst snd]. auto. }
  destruct (Z.eqb_spec fc 0x06).
  { destruct (_ <=? _); [now left|]. right. left. cbn [fst snd]. auto. }
  destruct (Z.eqb_spec fc 0x0F).
  { destruct (_ <? _); [now left|]. right. right. cbn [fst snd].
    split; [auto|]. split; [|lia].
    rewrite get_memcpy by lia.
    destruct (Z.leb_spec len0 offset); [lia|]. cbn [andb]. exact Hget0. }
  destruct (Z.eqb_spec fc 0x10).
  { destruct (_ <? _); [now left|]. right. right. cbn [fst snd].
    split; [auto|]. split; [|lia].
    rewrite get_memcpy by lia.
    destruct (Z.leb_spec len0 offset); [lia|]. cbn [andb]. exact Hget0. }
  now left.
Qed.

(** C10: [modbus_slave_manage] leaves the four arrays of the map as they
    are whenever the frame it sends is an exception response (function byte
    of the query OR 0x80); the map differs afterwards only for the function
    codes 0x05, 0x06, 0x0F and 0x10, and then the frame sent carries the
    function byte of the query itself. *)
Theorem modbus_slave_manage_map (E : modbus_h) (mb_param : modbus_param_t)
    (query : list Z) (query_length : Z) (mb_mapping : modbus_mapping_t)
    (response : list Z) (wrote : Z) :
  let offset := TAB_HEADER_LENGTH (type_com mb_param) in
  let fc := get query offset in
  let r := modbus_slave_manage E mb_param query query_length mb_mapping
             response wrote in
  Forall is_byte query ->
  offset + TAB_CHECKSUM_LENGTH (type_com mb_param) < query_length ->
  (forall frame, snd r = [frame] -> get frame offset = Z.lor fc 0x80 ->
                 fst r = mb_mapping) /\
  (fst r <> mb_mapping ->
   (fc = 0x05 \/ fc = 0x06 \/ fc = 0x0F \/ fc = 0x10) /\
   exists frame, snd r = [frame] /\ get frame offset = fc).
Proof.
  intros offset fc r Hq Hlen.
  assert (Hmain : fst r = mb_mapping \/
                  ((fc = 0x05 \/ fc = 0x06 \/ fc = 0x0F \/ fc = 0x10) /\
                   exists frame, snd r = [frame] /\ get frame offset = fc)).
  { subst r. unfold modbus_slave_manage. fold offset. fold fc.
    destruct (negb _ && negb _); [now left|].
    set (sq := match type_com mb_param with
               | RTU => _
               | TCP => _
               end).
    assert (Hsq : sft_function (fst sq) = fc /\ offset < snd sq).
    { subst sq offset. destruct (type_com mb_param); simpl in *;
        unfold CHECKSUM_LENGTH_RTU, CHECKSUM_LENGTH_TCP in *; split; auto; lia. }
    destruct sq as [sft ql]. simpl in Hsq. destruct Hsq as [Hfun Hql].
    pose proof (manage_switch_map mb_param sft query ql mb_mapping response) as Hsw.
    cbv zeta in Hsw. fold offset in Hsw. fold fc in Hsw.
    destruct (manage_switch mb_param sft query ql mb_mapping response)
      as [[m' resp] len]. simpl in Hsw.
    pose proof (modbus_send_frame E mb_param resp len wrote offset) as Hframe.
    destruct (modbus_send E mb_param resp len wrote) as [[r0 q'] frame].
    simpl in Hframe. simpl.
    assert (Hfcb : is_byte fc) by now apply get_is_byte.
    assert (Hoff : offset = 1 \/ offset = 7).
    { subst offset. destruct (type_com mb_param); auto. }
    destruct Hsw as [Hsame|[(Hfc & Hresp & Hl)|(Hfc & Hget & Hl)]].
    - now left.
    - right. split; [tauto|]. exists frame. split; [reflexivity|].
      rewrite Hframe by (try lia; intros _; lia).
      rewrite Hresp, get_memcpy by lia.
      destruct (Z.leb_spec 0 offset); [|lia].
      destruct (Z.ltb_spec offset (0 + Z.of_nat (Z.to_nat ql))); [|lia].
      simpl. replace (0 + (offset - 0)) with offset by lia.
      now apply uint8_byte.
    - right. split; [tauto|]. exists frame. split; [reflexivity|].
      rewrite Hframe by (try lia; intros _; lia).
      rewrite Hget, Hfun. now apply uint8_byte. }
  split.
  - intros frame Hsent Hexc. destruct Hmain as [Hsame|[Hfc (frame' & Hs & Hg)]];
      [exact Hsame|].
    rewrite Hsent in Hs. injection Hs as <-.
    rewrite lor_0x80 in Hexc by lia. lia.
  - intros Hdiff. destruct Hmain as [Hsame|Hw]; [contradiction|exact Hw].
Qed.

Lemma modbus_slave_manage_map_witness :
  let mb_param := {| type_com := TCP; slave := 1 |} in
  let query := [0x00; 0x01; 0x00; 0x00; 0x00; 0x06;
                0x01; 0x05; 0x00; 0x01; 0xFF; 0x00] in
  let mb_mapping :=
    {| nb_coil_status := 4; nb_input_status := 0;
       nb_input_registers := 0; nb_holding_registers := 0;
       tab_coil_status := [0; 0; 0; 0]; tab_input_status := [];
       tab_input_registers := []; tab_holding_registers := [] |} in
  let r := modbus_slave_manage libmodbus_h mb_param query 12 mb_mapping [] 12 in
  tab_coil_status (fst r) = [0; 1; 0; 0] /\
  (forall frame, snd r = [frame] -> get frame 7 = Z.lor 0x05 0x80 ->
                 fst r = mb_mapping) /\
  (fst r <> mb_mapping ->
   (0x05 = 0x05 \/ 0x05 = 0x06 \/ 0x05 = 0x0F \/ 0x05 = 0x10) /\
   exists frame, snd r = [frame] /\ get frame 7 = 0x05).
Proof.
  intros mb_param query mb_mapping r.
  split; [reflexivity|].
  apply (modbus_slave_manage_map libmodbus_h mb_param query 12 mb_mapping [] 12).
  - repeat constructor; unfold is_byte; lia.
  - vm_compute. reflexivity.
Defined.

(** For the function codes 0x07 and 0x11 the switch writes nothing and
    leaves [resp_length] at 0; [modbus_send] is called all the same.  In
    RTU mode it appends the CRC of no bytes and writes the two bytes FF FF;
    in TCP mode it sends no byte. *)
Lemma modbus_slave_manage_not_implemented (E : modbus_h)
    (mb_param : modbus_param_t) (query : list Z) (query_length : Z)
    (mb_mapping : modbus_mapping_t) (response : list Z) (wrote : Z) :
  let offset := TAB_HEADER_LENGTH (type_com mb_param) in
  get query offset = 0x07 \/ get query offset = 0x11 ->
  get query (offset - 1) = slave mb_param \/
  get query (offset - 1) = MODBUS_BROADCAST_ADDRESS ->
  modbus_slave_manage E mb_param query query_length mb_mapping response wrote =
  (mb_mapping,
   [match type_com mb_param with RTU => [0xFF; 0xFF] | TCP => [] end]).
Proof.
  intros offset Hfc Hunit.
  unfold modbus_slave_manage. fold offset.
  assert (Hmine : negb (get query (offset - 1) =? slave mb_param) &&
                  negb (get query (offset - 1) =? MODBUS_BROADCAST_ADDRESS) = false).
  { destruct Hunit as [-> | ->]; rewrite Z.eqb_refl; simpl;
      [reflexivity|apply andb_false_r]. }
  rewrite Hmine.
  assert (Hsw : forall sft ql,
            manage_switch mb_param sft query ql mb_mapping response =
            (mb_mapping, response, 0)).
  { intros sft ql. unfold manage_switch. fold offset.
    destruct Hfc as [-> | ->]; reflexivity. }
  destruct (type_com mb_param) eqn:Ht; rewrite Hsw; unfold modbus_send; rewrite Ht.
  - change (crc16 response 0) with 0xFFFF.
    unfold bytes_at.
    change (seq 0 (Z.to_nat (0 + 2))) with [0%nat; 1%nat].
    cbn [fmap list_fmap].
    change (Z.of_nat 0) with 0. change (Z.of_nat 1) with 1.
    rewrite !get_poke by lia. reflexivity.
  - reflexivity.
Qed.

(** C9 fails in RTU mode.  The query 01 11 00 2C 50 (report slave id, byte
    count 0, CRC right) is delivered by [modbus_slave_receive] with the
    result 5; [modbus_slave_manage] then writes the two bytes FF FF on the
    line.  In TCP mode no byte is sent. *)
Theorem modbus_slave_manage_report_slave_id :
  let mb_mapping :=
    {| nb_coil_status := 0; nb_input_status := 0;
       nb_input_registers := 0; nb_holding_registers := 1;
       tab_coil_status := []; tab_input_status := [];
       tab_input_registers := []; tab_holding_registers := [0x1234] |} in
  let rtu := {| type_com := RTU; slave := 1 |} in
  let tcp := {| type_com := TCP; slave := 1 |} in
  modbus_slave_receive libmodbus_h rtu []
    [Readable (Bytes [0x01; 0x11; 0x00; 0x2C; 0x50])]
  = Some (5, [0x01; 0x11; 0x00; 0x2C; 0x50], []) /\
  modbus_slave_manage libmodbus_h rtu [0x01; 0x11; 0x00; 0x2C; 0x50] 5
    mb_mapping [] 2
  = (mb_mapping, [[0xFF; 0xFF]]) /\
  modbus_slave_manage libmodbus_h rtu [0x01; 0x07; 0x41; 0xE2] 4 mb_mapping [] 2
  = (mb_mapping, [[0xFF; 0xFF]]) /\
  modbus_slave_manage libmodbus_h tcp
    [0x00; 0x01; 0x00; 0x00; 0x00; 0x02; 0x01; 0x07] 8 mb_mapping [] 0
  = (mb_mapping, [[]]).
Proof. repeat split; vm_compute; reflexivity. Qed.

(** ** read_registers *)

(** The signed cases of the switch end in the unsigned assignment. *)
Lemma decode_switch_signed (response : list Z) (offset i : Z) :
  decode_switch 0 response offset i = decode8_unsigned response offset i /\
  decode_switch 2 response offset i = decode16_unsigned response offset i /\
  decode_switch 4 response offset i = decode32_unsigned response offset i.
Proof. repeat split. Qed.

(** C8 fails for the tags I8 and I16.  The reply 01 03 01 FF B0 08 to a
    read of one register with the tag I8 (0) is received with the result 1,
    and [data_dest[0]] is 0x000000FF, not the sign extension 0xFFFFFFFF of
    the byte FF; with the tag I16 (2) the reply 01 03 02 FF FE holds the word
    FFFE and [data_dest[0]] is 0x0000FFFE, not 0xFFFFFFFE. *)
Theorem read_registers_signed :
  let rtu := {| type_com := RTU; slave := 1 |} in
  let reply8 := [0x01; 0x03; 0x01; 0xFF] ++ crc16_bytes [0x01; 0x03; 0x01; 0xFF] in
  let reply16 :=
    [0x01; 0x03; 0x02; 0xFF; 0xFE] ++ crc16_bytes [0x01; 0x03; 0x02; 0xFF; 0xFE] in
  reply8 = [0x01; 0x03; 0x01; 0xFF; 0xB0; 0x08] /\
  read_registers libmodbus_h rtu FC_READ_HOLDING_REGISTERS 0 1 [0] 0 0 8 [] 0
    [Readable (Bytes reply8)]
  = Some (1, [0x000000FF], 0, []) /\
  decode8_signed reply8 1 0 = 0xFFFFFFFF /\
  read_registers libmodbus_h rtu FC_READ_HOLDING_REGISTERS 0 1 [0] 2 0 8 [] 0
    [Readable (Bytes reply16)]
  = Some (1, [0x0000FFFE], 0, []) /\
  decode16_signed reply16 1 0 = 0xFFFFFFFE.
Proof. repeat split; vm_compute; reflexivity. Qed.

(** ** The scenarios of the specification, run on the embedding *)

(** S1: the request for one holding register leaves as 01 03 00 00 00 01
    84 0A. *)
Example scenario_s1_request :
  modbus_send libmodbus_h {| type_com := RTU; slave := 1 |}
    (snd (build_query_basis_rtu 1 FC_READ_HOLDING_REGISTERS 0 1 [])) 6 8
  = (8, [0x01; 0x03; 0x00; 0x00; 0x00; 0x01; 0x84; 0x0A],
        [0x01; 0x03; 0x00; 0x00; 0x00; 0x01; 0x84; 0x0A]).
Proof. vm_compute. reflexivity. Qed.

(** S1 and S2: a server whose holding register 0 is 0x1234 answers
    01 03 02 12 34 B5 33, and 01 83 02 C0 F1 to the address 0x00FF. *)
Example scenario_s1_s2_reply :
  let mb_mapping :=
    {| nb_coil_status := 0; nb_input_status := 0;
       nb_input_registers := 0; nb_holding_registers := 1;
       tab_coil_status := []; tab_input_status := [];
       tab_input_registers := []; tab_holding_registers := [0x1234] |} in
  let rtu := {| type_com := RTU; slave := 1 |} in
  modbus_slave_manage libmodbus_h rtu
    [0x01; 0x03; 0x00; 0x00; 0x00; 0x01; 0x84; 0x0A] 8 mb_mapping [] 7
  = (mb_mapping, [[0x01; 0x03; 0x02; 0x12; 0x34; 0xB5; 0x33]]) /\
  modbus_slave_manage libmodbus_h rtu
    [0x01; 0x03; 0x00; 0xFF; 0x00; 0x01; 0xB4; 0x3A] 8 mb_mapping [] 5
  = (mb_mapping, [[0x01; 0x83; 0x02; 0xC0; 0xF1]]).
Proof. split; vm_compute; reflexivity. Qed.

(** S1 and S2 on the client: the value 0x1234 is read, and the exception
    reply gives the result -2. *)
Example scenario_s1_s2_client :
  let rtu := {| type_com := RTU; slave := 1 |} in
  read_registers libmodbus_h rtu FC_READ_HOLDING_REGISTERS 0 1 [0] 3 0 8 [] 0
    [Readable (Bytes [0x01; 0x03; 0x02; 0x12; 0x34; 0xB5; 0x33])]
  = Some (1, [0x1234], 0, []) /\
  read_registers libmodbus_h rtu FC_READ_HOLDING_REGISTERS 0xFF 1 [0] 3 0 8 [] 0
    [Readable (Bytes [0x01; 0x83; 0x02; 0xC0; 0xF1]); Silence]
  = Some (-2, [0], 0, []).
Proof. split; vm_compute; reflexivity. Qed.

(** S3: ten discrete inputs 1,0,1,1,0,0,1,0,1,1 over TCP are answered
    00 01 00 00 00 05 01 02 02 4D 03. *)
Example scenario_s3_reply :
  let mb_mapping :=
    {| nb_coil_status := 0; nb_input_status := 10;
       nb_input_registers := 0; nb_holding_registers := 0;
       tab_coil_status := []; tab_input_status := [1; 0; 1; 1; 0; 0; 1; 0; 1; 1];
       tab_input_registers := []; tab_holding_registers := [] |} in
  modbus_slave_manage libmodbus_h {| type_com := TCP; slave := 1 |}
    [0x00; 0x01; 0x00; 0x00; 0x00; 0x06; 0x01; 0x02; 0x00; 0x00; 0x00; 0x0A] 12
    mb_mapping [] 11
  = (mb_mapping,
     [[0x00; 0x01; 0x00; 0x00; 0x00; 0x05; 0x01; 0x02; 0x02; 0x4D; 0x03]]).
Proof. vm_compute. reflexivity. Qed.

(** * Further properties *)

(** ** Frames as they are sent *)

Lemma length_bytes_at (buf : list Z) (n : Z) :
  length (bytes_at buf n) = Z.to_nat n.
Proof. unfold bytes_at. now rewrite length_fmap, length_seq. Qed.

(** [bytes_at] is the list that has the same bytes at the same places. *)
Lemma bytes_at_eq (buf l : list Z) (n : Z) :
  length l = Z.to_nat n ->
  (forall i, 0 <= i < n -> get buf i = get l i) ->
  bytes_at buf n = l.
Proof.
  intros Hlen Hget. apply list_eq. intros i. unfold bytes_at.
  rewrite list_lookup_fmap.
  destruct (Nat.lt_ge_cases i (Z.to_nat n)) as [Hlt|Hge].
  - rewrite lookup_seq_lt by exact Hlt. simpl.
    rewrite Hget by lia. rewrite get_nat.
    destruct (lookup_lt_is_Some_2 l i ltac:(lia)) as [x Hx].
    now rewrite Hx.
  - rewrite lookup_seq_ge by exact Hge. simpl.
    symmetry. apply lookup_ge_None_2. lia.
Qed.

Lemma get_outside (l : list Z) (i : Z) :
  Z.of_nat (length l) <= i -> get l i = 0.
Proof.
  intros Hi. unfold get. destruct (Z.ltb_spec i 0); [reflexivity|].
  now rewrite lookup_ge_None_2 by lia.
Qed.

Lemma get_app_1 (l1 l2 : list Z) (i : Z) :
  0 <= i < Z.of_nat (length l1) -> get (l1 ++ l2) i = get l1 i.
Proof.
  intros Hi. rewrite <- (Z2Nat.id i) by lia. rewrite !get_nat.
  now rewrite lookup_app_l by lia.
Qed.

Lemma get_app_2 (l1 l2 : list Z) (i : Z) :
  Z.of_nat (length l1) <= i ->
  get (l1 ++ l2) i = get l2 (i - Z.of_nat (length l1)).
Proof.
  intros Hi.
  replace i with (Z.of_nat (length l1 + Z.to_nat (i - Z.of_nat (length l1)))) at 1
    by lia.
  rewrite get_app_r. f_equal. lia.
Qed.

(** A body followed by the bytes of its [crc16] passes [check_crc16]. *)
Lemma check_crc16_accepts (E : modbus_h) (s : list Z) :
  Forall is_byte s -> Z.of_nat (length s) < 65534 ->
  check_crc16 E (s ++ crc16_bytes s) (Z.of_nat (length s) + 2)
  = Z.of_nat (length s) + 2.
Proof.
  intros Hs Hlen.
  destruct (crc16_bytes_eq s ltac:(lia)) as (hi & lo & Hhi & Hlo & Hfold & Hbytes).
  rewrite Hbytes.
  replace (Z.of_nat (length s) + 2) with (Z.of_nat (length (s ++ [hi; lo])))
    by (rewrite length_app; simpl; lia).
  rewrite check_crc16_split by (auto; lia).
  rewrite Hfold, crc16_pack_bytes, Z.eqb_refl by assumption. reflexivity.
Qed.

(** [crc16] looks at the first [buffer_length] bytes of its buffer only. *)
Lemma crc16_junk (body junk : list Z) :
  Z.of_nat (length body) < 65536 ->
  crc16 (body ++ junk) (Z.of_nat (length body)) =
  crc16 body (Z.of_nat (length body)).
Proof.
  intros Hlen. rewrite crc16_prefix by exact Hlen.
  pose proof (crc16_prefix body [] Hlen) as H. rewrite app_nil_r in H.
  now rewrite H.
Qed.

(** X1: in RTU mode [modbus_send] puts on the line the first
    [query_length] bytes of its buffer followed by the two bytes of their
    CRC, high byte first, whatever the buffer holds beyond; this frame passes
    [check_crc16]; and the result is the length of the frame when [write]
    took all of it, [SOCKET_FAILURE] otherwise. *)
Theorem modbus_send_rtu (E : modbus_h) (mb_param : modbus_param_t)
    (body junk : list Z) (wrote : Z) :
  type_com mb_param = RTU ->
  Forall is_byte body ->
  Z.of_nat (length body) < 65534 ->
  let n := Z.of_nat (length body) in
  let r := modbus_send E mb_param (body ++ junk) n wrote in
  snd r = body ++ crc16_bytes body /\
  check_crc16 E (snd r) (n + 2) = n + 2 /\
  fst (fst r) = (if wrote =? n + 2 then n + 2 else SOCKET_FAILURE E).
Proof.
  intros Ht Hb Hlen n r.
  assert (Hframe : snd r = body ++ crc16_bytes body).
  { subst r. unfold modbus_send. rewrite Ht. cbn [snd].
    rewrite crc16_junk by (subst n; lia).
    apply bytes_at_eq.
    - rewrite length_app. unfold crc16_bytes. simpl. lia.
    - intros i Hi. rewrite !get_poke by lia.
      unfold crc16_bytes.
      destruct (Z.eqb_spec i (n + 1)) as [->|H1].
      + rewrite get_app_2 by lia.
        replace (n + 1 - Z.of_nat (length body)) with 1 by lia.
        reflexivity.
      + destruct (Z.eqb_spec i n) as [->|H0].
        * rewrite get_app_2 by lia.
          replace (n - Z.of_nat (length body)) with 0 by lia.
          reflexivity.
        * rewrite !get_app_1 by lia. reflexivity. }
  split; [exact Hframe|]. split.
  - rewrite Hframe. now apply check_crc16_accepts.
  - subst r. unfold modbus_send. rewrite Ht. cbn [fst].
    destruct (Z.eqb_spec wrote (n + 2)) as [->|Hne].
    + destruct (Z.eqb_spec (n + 2) (-1)); [lia|reflexivity].
    + destruct (wrote =? -1); reflexivity.
Qed.

Lemma modbus_send_rtu_witness :
  let r := modbus_send libmodbus_h {| type_com := RTU; slave := 1 |}
             ([0x01; 0x03; 0x00; 0x00; 0x00; 0x01] ++ [0x55; 0x66; 0x77]) 6 8 in
  snd r = [0x01; 0x03; 0x00; 0x00; 0x00; 0x01]
          ++ crc16_bytes [0x01; 0x03; 0x00; 0x00; 0x00; 0x01] /\
  check_crc16 libmodbus_h (snd r) (6 + 2) = 6 + 2 /\
  fst (fst r) = (if 8 =? 6 + 2 then 6 + 2 else SOCKET_FAILURE libmodbus_h).
Proof.
  apply (modbus_send_rtu libmodbus_h {| type_com := RTU; slave := 1 |}
           [0x01; 0x03; 0x00; 0x00; 0x00; 0x01] [0x55; 0x66; 0x77] 8).
  - reflexivity.
  - repeat constructor; unfold is_byte; lia.
  - simpl. lia.
Defined.

Lemma split16 (x : Z) :
  0 <= x < 65536 ->
  uint8 (Z.shiftr x 8) * 256 + uint8 (Z.land x 0x00FF) = x.
Proof.
  intros Hx. rewrite Z.shiftr_div_pow2 by lia.
  change 0x00FF with (Z.ones 8). rewrite Z.land_ones by lia.
  change (2 ^ 8) with 256. unfold uint8.
  rewrite Z.mod_mod by lia.
  rewrite (Z.mod_small (x / 256)).
  - pose proof (Z.div_mod x 256 ltac:(lia)). lia.
  - split; [apply Z.div_pos; lia|apply Z.div_lt_upper_bound; lia].
Qed.

(** X2: in TCP mode [modbus_send] sends exactly [query_length] bytes, the
    buffer as it is but for the bytes 4 and 5, which hold, high byte first,
    [query_length - 6]: the number of bytes that follow the MBAP length
    field. *)
Theorem modbus_send_tcp (E : modbus_h) (mb_param : modbus_param_t)
    (query : list Z) (query_length wrote : Z) :
  type_com mb_param = TCP ->
  6 <= query_length < 65542 ->
  let frame := snd (modbus_send E mb_param query query_length wrote) in
  Z.of_nat (length frame) = query_length /\
  get frame 4 * 256 + get frame 5 = query_length - 6 /\
  (forall i, 0 <= i < query_length -> i <> 4 -> i <> 5 ->
             get frame i = get query i).
Proof.
  intros Ht Hlen frame. subst frame. split; [|split].
  - unfold modbus_send. rewrite Ht. cbn [snd]. rewrite length_bytes_at. lia.
  - unfold modbus_send. rewrite Ht. cbn [snd].
    rewrite !get_bytes_at by lia. unfold set_message_length_tcp.
    rewrite !get_poke by lia. simpl.
    apply split16. lia.
  - intros i Hi H4 H5. apply modbus_send_frame; [exact Hi|auto].
Qed.

Lemma modbus_send_tcp_witness :
  let frame :=
    snd (modbus_send libmodbus_h {| type_com := TCP; slave := 1 |}
           [0x00; 0x01; 0x00; 0x00; 0x99; 0x99; 0x01; 0x02; 0x00; 0x00; 0x00; 0x0A]
           12 12) in
  Z.of_nat (length frame) = 12 /\
  get frame 4 * 256 + get frame 5 = 12 - 6 /\
  (forall i, 0 <= i < 12 -> i <> 4 -> i <> 5 ->
     get frame i =
     get [0x00; 0x01; 0x00; 0x00; 0x99; 0x99; 0x01; 0x02; 0x00; 0x00; 0x00; 0x0A] i).
Proof.
  apply (modbus_send_tcp libmodbus_h {| type_com := TCP; slave := 1 |}
           [0x00; 0x01; 0x00; 0x00; 0x99; 0x99; 0x01; 0x02; 0x00; 0x00; 0x00; 0x0A]
           12 12).
  - reflexivity.
  - lia.
Defined.

(** ** Request headers *)

(** X3: the header [build_query_basis] writes can be read back: it is
    header + 5 bytes long, its unit byte is the session's slave, its function
    byte the function, and its address and quantity fields, big-endian, are
    [start_addr] and [nb]; on both transports and whatever the buffer held
    before. *)
Theorem build_query_basis_fields (mb_param : modbus_param_t)
    (function start_addr nb : Z) (query : list Z) (t_id : Z) :
  is_byte (slave mb_param) -> is_byte function ->
  0 <= start_addr < 65536 -> 0 <= nb < 65536 ->
  let offset := TAB_HEADER_LENGTH (type_com mb_param) in
  let r := build_query_basis mb_param function start_addr nb query t_id in
  fst (fst r) = offset + 5 /\
  get (snd (fst r)) (offset - 1) = slave mb_param /\
  get (snd (fst r)) offset = function /\
  address_field mb_param (snd (fst r)) = start_addr /\
  quantity_field mb_param (snd (fst r)) = nb.
Proof.
  intros Hs Hf Ha Hn offset r. subst r offset.
  unfold build_query_basis, build_query_basis_rtu, build_query_basis_tcp,
    address_field, quantity_field.
  destruct (type_com mb_param); cbn [fst snd TAB_HEADER_LENGTH];
    unfold HEADER_LENGTH_RTU, HEADER_LENGTH_TCP, PRESET_QUERY_LENGTH_RTU,
      PRESET_QUERY_LENGTH_TCP;
    rewrite !get_poke by lia; simpl;
    rewrite !(uint8_byte (slave mb_param)), !(uint8_byte function) by assumption;
    repeat split; try reflexivity; now apply split16.
Qed.

Lemma build_query_basis_fields_witness :
  let mb_param := {| type_com := TCP; slave := 0x11 |} in
  let r := build_query_basis mb_param 0x03 0x1234 0x007D [9; 9; 9] 7 in
  fst (fst r) = 7 + 5 /\
  get (snd (fst r)) (7 - 1) = 0x11 /\
  get (snd (fst r)) 7 = 0x03 /\
  address_field mb_param (snd (fst r)) = 0x1234 /\
  quantity_field mb_param (snd (fst r)) = 0x007D.
Proof.
  intros mb_param.
  apply (build_query_basis_fields mb_param 0x03 0x1234 0x007D [9; 9; 9] 7);
    try (unfold is_byte; simpl; lia); lia.
Defined.

(** X4: [build_query_basis_tcp] steps its transaction counter by one,
    from 0xFFFF back to 0, and writes the new value big-endian into the
    bytes 0 and 1, with the protocol identifier 0 in the bytes 2 and 3. *)
Theorem build_query_basis_tcp_t_id (slave function start_addr nb : Z)
    (query : list Z) (t_id : Z) :
  0 <= t_id <= 0xFFFF ->
  let r := build_query_basis_tcp slave function start_addr nb query t_id in
  snd r = (t_id + 1) mod 65536 /\
  get (snd (fst r)) 0 * 256 + get (snd (fst r)) 1 = snd r /\
  get (snd (fst r)) 2 = 0 /\ get (snd (fst r)) 3 = 0.
Proof.
  intros Ht r. subst r. unfold build_query_basis_tcp. cbn [fst snd].
  rewrite !get_poke by lia. simpl.
  destruct (Z.ltb_spec t_id 0xFFFF) as [Hlt|Hge].
  - rewrite (Z.mod_small (t_id + 1)) by lia.
    repeat split; try reflexivity. apply split16. lia.
  - replace t_id with 0xFFFF by lia. repeat split; reflexivity.
Qed.

Lemma build_query_basis_tcp_t_id_witness :
  let r := build_query_basis_tcp 1 3 0 1 [] 0xFFFF in
  snd r = (0xFFFF + 1) mod 65536 /\
  get (snd (fst r)) 0 * 256 + get (snd (fst r)) 1 = snd r /\
  get (snd (fst r)) 2 = 0 /\ get (snd (fst r)) 3 = 0.
Proof. apply (build_query_basis_tcp_t_id 1 3 0 1 [] 0xFFFF). lia. Defined.

(** ** How much receive_msg reads *)

Lemma length_takeZ (n : Z) (l : list Z) :
  0 <= n -> Z.of_nat (length (takeZ n l)) <= n.
Proof.
  revert n. induction l as [|x l IH]; intros n Hn; simpl; [lia|].
  destruct (Z.leb_spec n 0); simpl; [lia|].
  specialize (IH (n - 1) ltac:(lia)). lia.
Qed.

Lemma takeZ_all (n : Z) (l : list Z) :
  Z.of_nat (length l) <= n -> takeZ n l = l /\ dropZ n l = [].
Proof.
  revert n. induction l as [|x l IH]; intros n Hn; simpl; [auto|].
  simpl in Hn. destruct (Z.leb_spec n 0); [lia|].
  destruct (IH (n - 1) ltac:(lia)) as [-> ->]. auto.
Qed.

Lemma size_t_small (z : Z) : 0 <= z < 2 ^ 64 -> size_t z = z.
Proof. intros H. unfold size_t. now apply Z.mod_small. Qed.

Lemma sys_read_le (p : pending) (count : Z) (w w1 : wire) (r : Z) (got : list Z) :
  sys_read p count w = (r, got, w1) -> 0 < count < 2 ^ 64 -> r <= count.
Proof.
  intros H Hc. destruct p as [bs| |]; simpl in H; injection H as <- <- <-; try lia.
  rewrite size_t_small by lia. apply length_takeZ. lia.
Qed.

Lemma compute_query_length_header_range (function : Z) :
  0 <= compute_query_length_header function <= 5.
Proof.
  unfold compute_query_length_header.
  repeat match goal with |- context [if ?c then _ else _] => destruct c end; lia.
Qed.

Lemma wire_bytes_nonneg (w : wire) : 0 <= wire_bytes w.
Proof.
  induction w as [|e w IH]; simpl; [lia|].
  destruct e as [| | |p]; try lia. destruct p; simpl; lia.
Qed.

Ltac feed H :=
  match type of H with
  | ?A -> _ => let HA := fresh in assert (HA : A); [|specialize (H HA); clear HA]
  end.

(** The loop of [receive_msg] never takes more bytes than the length it
    has computed, and that length stays under the bound of its state. *)
Lemma receive_loop_bound (E : modbus_h) (mb_param : modbus_param_t) (B : Z) :
  sentinels_ok E ->
  forall (fuel : nat) (p : pending) (w : wire) (msg : list Z)
         (msg_length mlc ltr : Z) (state : rcv_state)
         (ret : Z) (msg' : list Z) (w' : wire),
  receive_loop fuel E mb_param p w msg msg_length mlc ltr state
  = Some (ret, msg', w') ->
  0 <= msg_length -> 0 < ltr < 2 ^ 64 -> msg_length + ltr = mlc ->
  match state with
  | FUNCTION =>
      mlc = TAB_HEADER_LENGTH (type_com mb_param) + 1 /\
      TAB_MAX_ADU_LENGTH (type_com mb_param) <= B
  | BYTE =>
      mlc <= TAB_HEADER_LENGTH (type_com mb_param) + 6 /\
      TAB_MAX_ADU_LENGTH (type_com mb_param) <= B
  | COMPLETE => mlc <= B
  end ->
  B < 2 ^ 64 ->
  0 <= ret ->
  msg_length < ret <= B /\ (state = COMPLETE -> ret = mlc).
Proof.
  intros Hok.
  destruct (sentinels_negative E Hok) as (N1 & N2 & N3 & N4 & N5 & N6 & N7 & N8).
  assert (Hadu : TAB_HEADER_LENGTH (type_com mb_param) + 6
                 <= TAB_MAX_ADU_LENGTH (type_com mb_param) /\
                 0 < TAB_HEADER_LENGTH (type_com mb_param)).
  { destruct (type_com mb_param); simpl;
      unfold HEADER_LENGTH_RTU, HEADER_LENGTH_TCP, MAX_ADU_LENGTH_RTU,
        MAX_ADU_LENGTH_TCP; lia. }
  induction fuel as [|fuel IH];
    intros p w msg msg_length mlc ltr state ret msg' w' Hloop Hml Hltr Hsum Hst HB Hret;
    [discriminate|].
  cbn [receive_loop] in Hloop.
  destruct (sys_read p ltr w) as [[r got] w1] eqn:Hread.
  destruct (Z.eqb_spec r 0) as [Hr0|Hr0].
  { injection Hloop as <- <- <-. lia. }
  destruct (Z.ltb_spec r 0) as [Hrneg|Hrpos].
  { injection Hloop as <- <- <-. lia. }
  pose proof (sys_read_le _ _ _ _ _ _ Hread Hltr) as Hle.
  set (msg1 := store msg msg_length got) in *.
  assert (Hfin : forall n,
            match type_com mb_param with
            | RTU => Some (check_crc16 E msg1 n, msg1, w1)
            | TCP => Some (n, msg1, w1)
            end = Some (ret, msg', w') -> ret = n).
  { intros n Hn. destruct (type_com mb_param).
    - injection Hn as <- <- <-.
      destruct (check_crc16_cases E msg1 n) as [[Hc _]|Hc]; rewrite Hc in *;
        [reflexivity|lia].
    - now injection Hn as <- <- <-. }
  assert (Hcont : forall (l c : Z) (st : rcv_state),
    (if 0 <? l
     then match WAIT_DATA E mb_param (msg_length + r) w1 with
          | Ready p0 w0 =>
              receive_loop fuel E mb_param p0 w0 msg1 (msg_length + r) c l st
          | Return ret w0 => Some (ret, msg1, w0)
          end
     else match type_com mb_param with
          | RTU => Some (check_crc16 E msg1 (msg_length + r), msg1, w1)
          | TCP => Some (msg_length + r, msg1, w1)
          end) = Some (ret, msg', w') ->
    (0 < l -> l < 2 ^ 64 /\ msg_length + r + l = c /\
              match st with
              | FUNCTION =>
                  c = TAB_HEADER_LENGTH (type_com mb_param) + 1 /\
                  TAB_MAX_ADU_LENGTH (type_com mb_param) <= B
              | BYTE =>
                  c <= TAB_HEADER_LENGTH (type_com mb_param) + 6 /\
                  TAB_MAX_ADU_LENGTH (type_com mb_param) <= B
              | COMPLETE => c <= B
              end) ->
    (l <= 0 -> msg_length + r <= B) ->
    msg_length + r < ret <= B /\ (0 < l -> st = COMPLETE -> ret = c) /\
    (l <= 0 -> ret = msg_length + r) \/
    msg_length + r = ret /\ ret <= B /\ l <= 0).
  { intros l c st Hc Hpos Hneg. destruct (Z.ltb_spec 0 l) as [Hl|Hl].
    - destruct (WAIT_DATA E mb_param (msg_length + r) w1) as [p0 w0|ret0 w0] eqn:Hwait.
      + destruct (Hpos Hl) as (Hl64 & Hs & Hstate).
        destruct (IH p0 w0 msg1 (msg_length + r) c l st ret msg' w' Hc
                    ltac:(lia) ltac:(lia) Hs Hstate HB Hret) as [Hb Hex].
        left. split; [exact Hb|]. split; [auto|lia].
      + injection Hc as <- <- <-.
        destruct (WAIT_DATA_return _ _ _ _ _ _ Hwait) as [_ [-> | ->]]; [|lia].
        unfold wait_timeout in Hret. destruct (_ =? _); lia.
    - right. apply Hfin in Hc. specialize (Hneg Hl). lia. }
  destruct (Z.ltb_spec (msg_length + r) mlc) as [Hlt|Hge].
  { pose proof (Hcont _ _ _ Hloop) as Hc.
    feed Hc. { intros _. split; [lia|]. split; [lia|]. exact Hst. }
    feed Hc. { lia. }
    destruct Hc as [(Hb & Hex & _)|(Heq & _ & Hl)]; [|lia].
    split; [lia|]. intros ->. apply Hex; [lia|reflexivity]. }
  assert (Hfull : msg_length + r = mlc) by lia.
  destruct state.
  - destruct Hst as [Hmlc HM].
    pose proof (compute_query_length_header_range
                  (get msg1 (TAB_HEADER_LENGTH (type_com mb_param)))) as Hh.
    pose proof (Hcont _ _ _ Hloop) as Hc.
    feed Hc. { intros _. split; [lia|]. split; [lia|]. split; lia. }
    feed Hc. { lia. }
    destruct Hc as [(Hb & _ & _)|(Heq & Hb & _)]; (split; [lia|discriminate]).
  - destruct Hst as [Hmlc HM].
    destruct (Z.ltb_spec (TAB_MAX_ADU_LENGTH (type_com mb_param))
                (mlc + compute_query_length_data mb_param msg1)) as [Hbig|Hsmall].
    { injection Hloop as <- <- <-. lia. }
    pose proof (Hcont _ _ _ Hloop) as Hc.
    feed Hc. { intros _. split; [lia|]. split; [lia|]. lia. }
    feed Hc. { lia. }
    destruct Hc as [(Hb & _ & _)|(Heq & Hb & _)]; (split; [lia|discriminate]).
  - pose proof (Hcont 0 mlc COMPLETE Hloop) as Hc.
    feed Hc. { lia. }
    feed Hc. { lia. }
    destruct Hc as [(Hb & _ & He)|(Heq & Hb & _)].
    + split; [lia|]. intros _. specialize (He ltac:(lia)). lia.
    + split; [lia|]. intros _. lia.
Qed.

(** X5: called with a finite expected length, [receive_msg] returns a
    non-negative value only when the line carried at least that many bytes,
    and the value is then the expected length itself: a reply is delivered
    whole or not at all, and no byte beyond it is taken. *)
Theorem receive_msg_exact_length (E : modbus_h) (mb_param : modbus_param_t)
    (msg_length_computed : Z) (msg : list Z) (w : wire)
    (ret : Z) (msg' : list Z) (w' : wire) :
  sentinels_ok E ->
  msg_length_computed <> MSG_LENGTH_UNDEFINED E ->
  0 < msg_length_computed < 2 ^ 64 ->
  receive_msg E mb_param msg_length_computed msg w = Some (ret, msg', w') ->
  0 <= ret ->
  ret = msg_length_computed /\
  msg_length_computed <= wire_bytes w /\
  wire_bytes w' = wire_bytes w - msg_length_computed.
Proof.
  intros Hok Hdef Hlen Hrcv Hret.
  destruct (sentinels_negative E Hok) as (N1 & N2 & N3 & N4 & N5 & N6 & N7 & N8).
  assert (Heq : ret = msg_length_computed).
  { unfold receive_msg in Hrcv.
    destruct (Z.eqb_spec msg_length_computed (MSG_LENGTH_UNDEFINED E)); [contradiction|].
    destruct (WAIT_DATA E mb_param 0 w) as [p w0|ret0 w0] eqn:Hwait.
    - eapply (receive_loop_bound E mb_param msg_length_computed Hok) in Hrcv;
        try lia.
      destruct Hrcv as [_ Hex]. now apply Hex.
    - injection Hrcv as <- <- <-.
      destruct (WAIT_DATA_return _ _ _ _ _ _ Hwait) as [_ [Hr | Hr]];
        [unfold wait_timeout in Hr; destruct (_ =? _) in Hr|]; lia. }
  split; [exact Heq|].
  destruct (receive_msg_spec E mb_param msg_length_computed msg w)
    as (ret0 & msg0 & w0 & Hrcv0 & Hpost).
  rewrite Hrcv in Hrcv0. injection Hrcv0 as <- <- <-.
  pose proof (wire_bytes_nonneg w').
  destruct Hpost as [[Hr _]|[[Hr _]|[Hin|[Hdel Hpos]]]]; try lia.
  { simpl in Hin. intuition lia. }
  unfold delivered in Hdel. destruct (type_com mb_param).
  - destruct (check_crc16_cases E msg' (wire_bytes w - wire_bytes w'))
      as [[Hc _]|Hc]; rewrite Hc in Hdel; lia.
  - lia.
Qed.

Lemma receive_msg_exact_length_witness :
  sentinels_ok libmodbus_h /\
  7 = 7 /\
  7 <= wire_bytes [Readable (Bytes [0x01; 0x03; 0x02; 0x12]);
                   Readable (Bytes [0x34; 0xB5; 0x33; 0x99])] /\
  wire_bytes [Readable (Bytes [0x99])] =
  wire_bytes [Readable (Bytes [0x01; 0x03; 0x02; 0x12]);
              Readable (Bytes [0x34; 0xB5; 0x33; 0x99])] - 7.
Proof.
  split; [exact libmodbus_h_ok|].
  apply (receive_msg_exact_length libmodbus_h {| type_com := RTU; slave := 1 |} 7 []
           [Readable (Bytes [0x01; 0x03; 0x02; 0x12]);
            Readable (Bytes [0x34; 0xB5; 0x33; 0x99])]
           7 [0x01; 0x03; 0x02; 0x12; 0x34; 0xB5; 0x33] [Readable (Bytes [0x99])]).
  - exact libmodbus_h_ok.
  - discriminate.
  - lia.
  - reflexivity.
  - lia.
Defined.

(** X6: a query delivered by [modbus_slave_receive] is never longer than
    the largest ADU of the transport (256 bytes for RTU, 260 for TCP),
    whatever the byte counts in the incoming bytes say. *)
Theorem modbus_slave_receive_max_adu (E : modbus_h) (mb_param : modbus_param_t)
    (query : list Z) (w : wire) (ret : Z) (query' : list Z) (w' : wire) :
  sentinels_ok E ->
  modbus_slave_receive E mb_param query w = Some (ret, query', w') ->
  0 <= ret ->
  0 < ret <= TAB_MAX_ADU_LENGTH (type_com mb_param).
Proof.
  intros Hok Hrcv Hret.
  destruct (sentinels_negative E Hok) as (N1 & N2 & N3 & N4 & N5 & N6 & N7 & N8).
  unfold modbus_slave_receive, receive_msg in Hrcv.
  rewrite Z.eqb_refl in Hrcv.
  assert (Hh : 0 < TAB_HEADER_LENGTH (type_com mb_param) + 1 < 2 ^ 64 /\
               TAB_MAX_ADU_LENGTH (type_com mb_param) < 2 ^ 64).
  { destruct (type_com mb_param); simpl;
      unfold HEADER_LENGTH_RTU, HEADER_LENGTH_TCP, MAX_ADU_LENGTH_RTU,
        MAX_ADU_LENGTH_TCP; lia. }
  destruct (WAIT_DATA E mb_param 0 w) as [p w0|ret0 w0] eqn:Hwait.
  - eapply (receive_loop_bound E mb_param
              (TAB_MAX_ADU_LENGTH (type_com mb_param)) Hok) in Hrcv; lia.
  - injection Hrcv as <- <- <-.
    destruct (WAIT_DATA_return _ _ _ _ _ _ Hwait) as [_ [Hr | Hr]];
      [unfold wait_timeout in Hr; destruct (_ =? _) in Hr|]; lia.
Qed.

Lemma modbus_slave_receive_max_adu_witness :
  sentinels_ok libmodbus_h /\ 0 < 8 <= TAB_MAX_ADU_LENGTH RTU.
Proof.
  split; [exact libmodbus_h_ok|].
  apply (modbus_slave_receive_max_adu libmodbus_h {| type_com := RTU; slave := 1 |} []
           [Readable (Bytes [0x01; 0x03; 0x00; 0x00; 0x00; 0x01; 0x84; 0x0A])]
           8 [0x01; 0x03; 0x00; 0x00; 0x00; 0x01; 0x84; 0x0A] []).
  - exact libmodbus_h_ok.
  - reflexivity.
  - lia.
Defined.

(** A write-multiple query whose byte count would take the frame beyond the
    largest ADU is refused with [INVALID_DATA] as soon as the byte count is
    in. *)
Example modbus_slave_receive_too_many_data :
  modbus_slave_receive libmodbus_h {| type_com := RTU; slave := 1 |} []
    [Readable (Bytes [0x01; 0x10; 0x00; 0x00; 0x00; 0x7C; 0xF8; 0x00; 0x01])]
  = Some (INVALID_DATA libmodbus_h,
          [0x01; 0x10; 0x00; 0x00; 0x00; 0x7C; 0xF8],
          [Readable (Bytes [0x00; 0x01])]).
Proof. vm_compute. reflexivity. Qed.

(** ** Reassembly *)

Lemma store_app (msg : list Z) (pos : Z) (a b : list Z) :
  store msg pos (a ++ b) = store (store msg pos a) (pos + Z.of_nat (length a)) b.
Proof.
  revert msg pos. induction a as [|x a IH]; intros msg pos; simpl.
  - f_equal. lia.
  - rewrite IH. f_equal. lia.
Qed.

Lemma get_store (bs msg : list Z) (pos i : Z) :
  0 <= pos ->
  get (store msg pos bs) i =
  if (pos <=? i) && (i <? pos + Z.of_nat (length bs))
  then uint8 (get bs (i - pos)) else get msg i.
Proof.
  revert msg pos. induction bs as [|b bs IH]; intros msg pos Hpos.
  - simpl. destruct (Z.leb_spec pos i), (Z.ltb_spec i (pos + Z.of_nat 0));
      simpl; auto; lia.
  - cbn [store]. rewrite IH by lia. rewrite get_poke by lia.
    destruct (Z.leb_spec (pos + 1) i),
      (Z.ltb_spec i (pos + 1 + Z.of_nat (length bs))),
      (Z.leb_spec pos i), (Z.ltb_spec i (pos + Z.of_nat (length (b :: bs)))),
      (Z.eqb_spec i pos); simpl in *; try lia; auto.
    + f_equal.
      replace (i - pos) with (Z.of_nat (length [b] + Z.to_nat (i - (pos + 1))))
        by (simpl; lia).
      rewrite (get_app_r [b] bs). f_equal. lia.
    + subst i. replace (pos - pos) with 0 by lia. reflexivity.
Qed.

Lemma receive_loop_chunks (E : modbus_h) (mb_param : modbus_param_t)
    (mlc : Z) (rest : wire) :
  mlc < 2 ^ 64 ->
  forall (chunks : list (list Z)) (c msg : list Z) (msg_length : Z) (fuel : nat),
  c <> [] -> Forall (fun c => c <> []) chunks ->
  0 <= msg_length ->
  msg_length + Z.of_nat (length c) + Z.of_nat (length (concat chunks)) = mlc ->
  (length chunks < fuel)%nat ->
  receive_loop fuel E mb_param (Bytes c) (wire_of_chunks chunks ++ rest) msg
    msg_length mlc (mlc - msg_length) COMPLETE
  = Some (delivered E mb_param (store msg msg_length (c ++ concat chunks)) mlc,
          store msg msg_length (c ++ concat chunks), rest).
Proof.
  intros Hmlc. induction chunks as [|c2 chunks IH];
    intros c msg msg_length fuel Hc Hne Hml Hsum Hfuel;
    (destruct fuel as [|fuel]; [simpl in Hfuel; lia|]).
  - cbn [receive_loop sys_read]. simpl in Hsum.
    assert (Hlc : 0 < Z.of_nat (length c)) by (destruct c; [congruence|simpl; lia]).
    rewrite size_t_small by lia.
    destruct (takeZ_all (mlc - msg_length) c ltac:(lia)) as [-> ->].
    destruct (Z.eqb_spec (Z.of_nat (length c)) 0); [lia|].
    destruct (Z.ltb_spec (Z.of_nat (length c)) 0); [lia|].
    destruct (Z.ltb_spec (msg_length + Z.of_nat (length c)) mlc); [lia|].
    change (0 <? 0) with false. cbv iota. simpl concat. rewrite app_nil_r.
    replace (msg_length + Z.of_nat (length c)) with mlc by lia.
    unfold delivered. now destruct (type_com mb_param).
  - cbn [receive_loop sys_read]. simpl in Hsum. rewrite length_app in Hsum.
    apply Forall_cons in Hne. destruct Hne as [Hc2 Hne].
    assert (Hlc : 0 < Z.of_nat (length c)) by (destruct c; [congruence|simpl; lia]).
    assert (Hlc2 : 0 < Z.of_nat (length c2)) by (destruct c2; [congruence|simpl; lia]).
    rewrite size_t_small by lia.
    destruct (takeZ_all (mlc - msg_length) c ltac:(lia)) as [-> ->].
    destruct (Z.eqb_spec (Z.of_nat (length c)) 0); [lia|].
    destruct (Z.ltb_spec (Z.of_nat (length c)) 0); [lia|].
    destruct (Z.ltb_spec (msg_length + Z.of_nat (length c)) mlc); [|lia].
    destruct (Z.ltb_spec 0 (mlc - (msg_length + Z.of_nat (length c)))); [|lia].
    cbn [wire_of_chunks fmap list_fmap app WAIT_DATA].
    fold (wire_of_chunks chunks).
    rewrite (IH c2 (store msg msg_length c) (msg_length + Z.of_nat (length c)) fuel)
      by (auto; simpl in Hfuel; lia).
    simpl concat. now rewrite <- store_app.
Qed.

Lemma wire_weight_chunks (chunks : list (list Z)) (rest : wire) :
  (length chunks <= wire_weight (wire_of_chunks chunks ++ rest))%nat.
Proof.
  induction chunks as [|c chunks IH]; simpl; [lia|].
  fold (wire_of_chunks chunks). lia.
Qed.

(** X7: a reply of exactly the expected length is put together from
    whatever pieces it comes in.  When the bytes of [frame] become readable
    in the non-empty pieces [chunks], one piece per read, [receive_msg]
    stores them in order at the start of the buffer, leaves what follows on
    the line untouched, and returns the length in TCP mode and the verdict
    of [check_crc16] on the stored frame in RTU mode. *)
Theorem receive_msg_reassembles (E : modbus_h) (mb_param : modbus_param_t)
    (msg : list Z) (chunks : list (list Z)) (rest : wire) :
  let frame := concat chunks in
  let n := Z.of_nat (length frame) in
  chunks <> [] -> Forall (fun c => c <> []) chunks ->
  Forall is_byte frame ->
  n <> MSG_LENGTH_UNDEFINED E -> n < 2 ^ 64 ->
  exists msg',
    receive_msg E mb_param n msg (wire_of_chunks chunks ++ rest)
    = Some (delivered E mb_param msg' n, msg', rest) /\
    (forall i, 0 <= i < n -> get msg' i = get frame i) /\
    (forall i, n <= i -> get msg' i = get msg i).
Proof.
  intros frame n Hne Hall Hbytes Hdef Hn.
  exists (store msg 0 frame). split; [|split].
  - unfold receive_msg.
    destruct (Z.eqb_spec n (MSG_LENGTH_UNDEFINED E)); [contradiction|].
    destruct chunks as [|c chunks]; [congruence|].
    cbn [wire_of_chunks fmap list_fmap app WAIT_DATA]. fold (wire_of_chunks chunks).
    apply Forall_cons in Hall. destruct Hall as [Hc Hall].
    replace n with (n - 0) at 2 by lia.
    apply receive_loop_chunks; auto; try lia.
    + subst n frame. simpl. rewrite length_app. lia.
    + pose proof (wire_weight_chunks chunks rest). simpl.
      fold (wire_of_chunks chunks). lia.
  - intros i Hi. rewrite get_store by lia.
    destruct (Z.leb_spec 0 i); [|lia].
    destruct (Z.ltb_spec i (0 + Z.of_nat (length frame))); [|subst n; lia].
    simpl. replace (i - 0) with i by lia.
    apply uint8_byte. now apply get_is_byte.
  - intros i Hi. rewrite get_store by lia.
    destruct (Z.ltb_spec i (0 + Z.of_nat (length frame))); [subst n; lia|].
    now rewrite andb_false_r.
Qed.

Lemma receive_msg_reassembles_witness :
  let chunks := [[0x01; 0x03]; [0x02]; [0x12; 0x34; 0xB5; 0x33]] in
  exists msg',
    receive_msg libmodbus_h {| type_com := RTU; slave := 1 |}
      (Z.of_nat (length (concat chunks))) [9; 9; 9; 9; 9; 9; 9; 9; 9]
      (wire_of_chunks chunks ++ [Silence])
    = Some (delivered libmodbus_h {| type_com := RTU; slave := 1 |} msg'
              (Z.of_nat (length (concat chunks))), msg', [Silence]) /\
    (forall i, 0 <= i < Z.of_nat (length (concat chunks)) ->
               get msg' i = get (concat chunks) i) /\
    (forall i, Z.of_nat (length (concat chunks)) <= i ->
               get msg' i = get [9; 9; 9; 9; 9; 9; 9; 9; 9] i).
Proof.
  intros chunks.
  apply (receive_msg_reassembles libmodbus_h {| type_com := RTU; slave := 1 |}
           [9; 9; 9; 9; 9; 9; 9; 9; 9] chunks [Silence]).
  - discriminate.
  - repeat constructor; discriminate.
  - repeat constructor; unfold is_byte; lia.
  - discriminate.
  - simpl. lia.
Defined.

(** ** Utils *)

Lemma length_tab_set (tab : list Z) (i v : Z) :
  length (tab_set tab i v) = length tab.
Proof. unfold tab_set. destruct (i <? 0); [reflexivity|apply length_insert]. Qed.

Lemma get_tab_set (tab : list Z) (i j v : Z) :
  0 <= i < Z.of_nat (length tab) ->
  get (tab_set tab i v) j = if j =? i then v else get tab j.
Proof.
  intros Hi. unfold tab_set, get.
  destruct (Z.ltb_spec i 0); [lia|].
  destruct (Z.ltb_spec j 0).
  { destruct (Z.eqb_spec j i); [lia|reflexivity]. }
  destruct (Z.eqb_spec j i) as [->|Hne].
  - rewrite list_lookup_insert_eq by lia. reflexivity.
  - rewrite list_lookup_insert_ne by lia. reflexivity.
Qed.

Lemma byte_cases (v : Z) : is_byte v -> In v (List.map Z.of_nat (seq 0 256)).
Proof.
  intros Hv. apply in_map_iff. exists (Z.to_nat v). unfold is_byte in Hv.
  split; [lia|]. apply in_seq. lia.
Qed.

Lemma length_set_bits_from_byte_loop (n : nat) (i : Z) (dest : list Z)
    (address value : Z) :
  length (set_bits_from_byte_loop n i dest address value) = length dest.
Proof.
  revert i dest. induction n as [|n IH]; intros i dest; simpl; [reflexivity|].
  now rewrite IH, length_tab_set.
Qed.

Lemma get_set_bits_from_byte_loop (n : nat) (i : Z) (dest : list Z)
    (address value j : Z) :
  0 <= address + i -> address + i + Z.of_nat n <= Z.of_nat (length dest) ->
  get (set_bits_from_byte_loop n i dest address value) j =
  if (address + i <=? j) && (j <? address + i + Z.of_nat n)
  then (if Z.land value (Z.shiftl 1 (j - address)) =? 0 then OFF else ON)
  else get dest j.
Proof.
  revert i dest. induction n as [|n IH]; intros i dest Hlo Hhi.
  - simpl. destruct (Z.leb_spec (address + i) j),
      (Z.ltb_spec j (address + i + Z.of_nat 0)); simpl; auto; lia.
  - cbn [set_bits_from_byte_loop].
    rewrite IH by (rewrite ?length_tab_set; lia).
    rewrite get_tab_set by lia.
    destruct (Z.leb_spec (address + (i + 1)) j),
      (Z.ltb_spec j (address + (i + 1) + Z.of_nat n)),
      (Z.leb_spec (address + i) j),
      (Z.ltb_spec j (address + i + Z.of_nat (S n))),
      (Z.eqb_spec j (address + i)); simpl; try lia; auto.
    subst j. now replace (address + i - address) with i by lia.
Qed.

(** X8: [get_byte_from_bits] undoes [set_bits_from_byte]: the eight
    entries written from a byte, each ON or OFF, give the byte back, also
    when more than eight bits are asked for (the count is cut to 8); the
    entries outside the eight are not touched. *)
Theorem get_byte_from_bits_set_bits_from_byte (dest : list Z)
    (address value nb_bits : Z) :
  is_byte value ->
  0 <= address -> address + 8 <= Z.of_nat (length dest) ->
  8 <= nb_bits ->
  get_byte_from_bits (set_bits_from_byte dest address value) address nb_bits
  = value /\
  length (set_bits_from_byte dest address value) = length dest /\
  (forall j, j < address \/ address + 8 <= j ->
             get (set_bits_from_byte dest address value) j = get dest j).
Proof.
  intros Hv Ha Hlen Hnb.
  assert (Hget : forall k, 0 <= k < 8 ->
            get (set_bits_from_byte dest address value) (address + k) =
            if Z.land value (Z.shiftl 1 k) =? 0 then OFF else ON).
  { intros k Hk. unfold set_bits_from_byte.
    rewrite get_set_bits_from_byte_loop by (simpl; lia).
    destruct (Z.leb_spec (address + 0) (address + k)); [|lia].
    destruct (Z.ltb_spec (address + k) (address + 0 + Z.of_nat 8)); [|simpl in *; lia].
    simpl. now replace (address + k - address) with k by lia. }
  split; [|split].
  - unfold get_byte_from_bits.
    replace (Z.to_nat (if 8 <? nb_bits then 8 else nb_bits)) with 8%nat
      by (destruct (Z.ltb_spec 8 nb_bits); lia).
    cbn [get_byte_from_bits_loop].
    rewrite !Hget by lia.
    pose proof (byte_cases value Hv) as Hin. simpl in Hin.
    repeat (destruct Hin as [<-|Hin]; [reflexivity|]). contradiction.
  - apply length_set_bits_from_byte_loop.
  - intros j Hj. unfold set_bits_from_byte.
    rewrite get_set_bits_from_byte_loop by (simpl; lia).
    destruct (Z.leb_spec (address + 0) j),
      (Z.ltb_spec j (address + 0 + Z.of_nat 8)); simpl in *; try lia; reflexivity.
Qed.

Lemma get_byte_from_bits_set_bits_from_byte_witness :
  get_byte_from_bits (set_bits_from_byte [7; 7; 7; 7; 7; 7; 7; 7; 7; 7] 1 0xA5) 1 9
  = 0xA5 /\
  length (set_bits_from_byte [7; 7; 7; 7; 7; 7; 7; 7; 7; 7] 1 0xA5)
  = length [7; 7; 7; 7; 7; 7; 7; 7; 7; 7] /\
  (forall j, j < 1 \/ 1 + 8 <= j ->
             get (set_bits_from_byte [7; 7; 7; 7; 7; 7; 7; 7; 7; 7] 1 0xA5) j
             = get [7; 7; 7; 7; 7; 7; 7; 7; 7; 7] j).
Proof.
  apply (get_byte_from_bits_set_bits_from_byte
           [7; 7; 7; 7; 7; 7; 7; 7; 7; 7] 1 0xA5 9).
  - unfold is_byte. lia.
  - lia.
  - simpl. lia.
  - lia.
Defined.


(** X9: [modbus_write_float] puts the low 16 bits of the float's 32-bit
    pattern in [dest[0]] and the high 16 bits in [dest[1]], and
    [modbus_read_float] puts them together again: reading what was written
    gives the same 32 bits. *)
Theorem modbus_read_float_write_float (real : Z) (dest : list Z) :
  0 <= real < 2 ^ 32 -> (2 <= length dest)%nat ->
  let words := modbus_write_float real dest in
  get words 0 = real mod 65536 /\
  get words 1 = real / 65536 /\
  modbus_read_float words = real.
Proof.
  intros Hr Hlen words.
  assert (H0 : get words 0 = real mod 65536).
  { subst words. unfold modbus_write_float.
    rewrite !get_tab_set by (rewrite ?length_tab_set; lia). simpl.
    unfold uint16, uint32. rewrite (Z.mod_small real) by lia. reflexivity. }
  assert (H1 : get words 1 = real / 65536).
  { subst words. unfold modbus_write_float.
    rewrite !get_tab_set by (rewrite ?length_tab_set; lia). simpl.
    unfold uint16, uint32. rewrite (Z.mod_small real) by lia.
    rewrite Z.shiftr_div_pow2 by lia. change (2 ^ 16) with 65536.
    apply Z.mod_small. split; [apply Z.div_pos; lia|].
    apply Z.div_lt_upper_bound; lia. }
  split; [exact H0|]. split; [exact H1|].
  unfold modbus_read_float. rewrite H0, H1.
  assert (Hhi : 0 <= real / 65536 < 65536).
  { split; [apply Z.div_pos; lia|apply Z.div_lt_upper_bound; lia]. }
  pose proof (Z.mod_pos_bound real 65536 ltac:(lia)) as Hlo.
  pose proof (Z.div_mod real 65536 ltac:(lia)) as Hdm.
  unfold uint32. rewrite (Z.mod_small (real / 65536)) by lia.
  rewrite Z.shiftl_mul_pow2 by lia. change (2 ^ 16) with 65536.
  rewrite (Z.mod_small (real / 65536 * 65536)) by lia.
  rewrite Z.mod_small by lia. lia.
Qed.

Lemma modbus_read_float_write_float_witness :
  let words := modbus_write_float 0x3F800000 [0; 0] in
  get words 0 = 0x3F800000 mod 65536 /\
  get words 1 = 0x3F800000 / 65536 /\
  modbus_read_float words = 0x3F800000.
Proof.
  apply (modbus_read_float_write_float 0x3F800000 [0; 0]); simpl; lia.
Defined.


(** ** The server *)

Lemma modbus_slave_manage_addressed (E : modbus_h) (mb_param : modbus_param_t)
    (query : list Z) (query_length : Z) (mb_mapping : modbus_mapping_t)
    (response : list Z) (wrote : Z) :
  addressed mb_param query ->
  modbus_slave_manage E mb_param query query_length mb_mapping response wrote =
  let r := manage_switch mb_param (request_sft mb_param query) query
             (request_length mb_param query_length) mb_mapping response in
  (fst (fst r), [snd (modbus_send E mb_param (snd (fst r)) (snd r) wrote)]).
Proof.
  intros Hunit. unfold modbus_slave_manage, addressed in *.
  assert (Hmine :
    negb (get query (TAB_HEADER_LENGTH (type_com mb_param) - 1) =? slave mb_param) &&
    negb (get query (TAB_HEADER_LENGTH (type_com mb_param) - 1)
          =? MODBUS_BROADCAST_ADDRESS) = false).
  { destruct Hunit as [-> | ->]; rewrite Z.eqb_refl; simpl;
      [reflexivity|apply andb_false_r]. }
  rewrite Hmine. unfold request_sft, request_length. cbv zeta.
  destruct (type_com mb_param);
    destruct (manage_switch _ _ _ _ _ _) as [[m' resp] len]; cbn [fst snd];
    destruct (modbus_send _ _ _ _ _) as [[r0 q'] frame]; reflexivity.
Qed.

Lemma header_offset_cases (mb_param : modbus_param_t) :
  TAB_HEADER_LENGTH (type_com mb_param) = 1 /\ type_com mb_param = RTU /\
  TAB_CHECKSUM_LENGTH (type_com mb_param) = 2 \/
  TAB_HEADER_LENGTH (type_com mb_param) = 7 /\ type_com mb_param = TCP /\
  TAB_CHECKSUM_LENGTH (type_com mb_param) = 0.
Proof. destruct (type_com mb_param); auto. Qed.

Lemma length_modbus_send (E : modbus_h) (mb_param : modbus_param_t)
    (query : list Z) (query_length wrote : Z) :
  0 <= query_length ->
  Z.of_nat (length (snd (modbus_send E mb_param query query_length wrote)))
  = query_length + TAB_CHECKSUM_LENGTH (type_com mb_param).
Proof.
  intros Hn. unfold modbus_send.
  destruct (type_com mb_param); cbn [snd]; rewrite length_bytes_at;
    simpl; unfold CHECKSUM_LENGTH_RTU, CHECKSUM_LENGTH_TCP; lia.
Qed.

(** The frame of an exception response. *)
Lemma modbus_slave_manage_exception (E : modbus_h) (mb_param : modbus_param_t)
    (query : list Z) (query_length : Z) (mb_mapping : modbus_mapping_t)
    (response : list Z) (wrote : Z) (exception_code : Z) :
  let offset := TAB_HEADER_LENGTH (type_com mb_param) in
  let sft := request_sft mb_param query in
  addressed mb_param query ->
  0 <= get query offset < 0x80 ->
  0 <= - exception_code < 256 ->
  manage_switch mb_param sft query (request_length mb_param query_length)
    mb_mapping response =
  (mb_mapping, snd (response_exception mb_param sft exception_code response),
   fst (response_exception mb_param sft exception_code response)) ->
  exists frame,
    modbus_slave_manage E mb_param query query_length mb_mapping response wrote
    = (mb_mapping, [frame]) /\
    Z.of_nat (length frame) = offset + 2 + TAB_CHECKSUM_LENGTH (type_com mb_param) /\
    get frame offset = get query offset + 0x80 /\
    get frame (offset + 1) = - exception_code.
Proof.
  intros offset sft Hunit Hfc Hcode Hsw.
  rewrite modbus_slave_manage_addressed by exact Hunit. cbv zeta.
  fold sft. rewrite Hsw. cbn [fst snd].
  destruct (response_exception_spec mb_param sft exception_code response)
    as (Hlen & Hf & Hc). cbv zeta in Hlen, Hf, Hc. fold offset in Hlen, Hf, Hc.
  destruct (response_exception mb_param sft exception_code response) as [len resp].
  cbn [fst snd] in *. subst len.
  eexists. split; [reflexivity|].
  destruct (header_offset_cases mb_param) as [(Ho & Ht & Hck)|(Ho & Ht & Hck)];
    fold offset in Ho.
  - split; [rewrite length_modbus_send by lia; reflexivity|].
    rewrite !modbus_send_frame by (first [lia | intros; congruence]).
    rewrite Hf, Hc. unfold sft, request_sft. cbn [sft_function]. fold offset.
    unfold uint8. rewrite !Z.mod_small by lia. auto.
  - split; [rewrite length_modbus_send by lia; reflexivity|].
    rewrite !modbus_send_frame by (first [lia | intros; lia]).
    rewrite Hf, Hc. unfold sft, request_sft. cbn [sft_function]. fold offset.
    unfold uint8. rewrite !Z.mod_small by lia. auto.
Qed.

Lemma manage_switch_force_single_coil (mb_param : modbus_param_t) (sft : sft_t)
    (query : list Z) (query_length : Z) (mb_mapping : modbus_mapping_t)
    (response : list Z) :
  Forall is_byte query ->
  get query (TAB_HEADER_LENGTH (type_com mb_param)) = 0x05 ->
  address_field mb_param query < nb_coil_status mb_mapping ->
  manage_switch mb_param sft query query_length mb_mapping response =
  if (quantity_field mb_param query =? 0xFF00) ||
     (quantity_field mb_param query =? 0x0)
  then (set_tab_coil_status mb_mapping
          (tab_set (tab_coil_status mb_mapping) (address_field mb_param query)
             (if quantity_field mb_param query =? 0 then OFF else ON)),
        memcpy response 0 query 0 (Z.to_nat query_length), query_length)
  else (mb_mapping,
        snd (response_exception mb_param sft ILLEGAL_DATA_VALUE response),
        fst (response_exception mb_param sft ILLEGAL_DATA_VALUE response)).
Proof.
  intros Hq Hfc Haddr. unfold manage_switch. cbv zeta.
  rewrite (address_field_uint16 mb_param query Hq).
  rewrite !word_add_eq. fold (quantity_field mb_param query).
  rewrite Hfc.
  change (0x05 =? FC_READ_COIL_STATUS) with false.
  change (0x05 =? FC_READ_INPUT_STATUS) with false.
  change (0x05 =? FC_READ_HOLDING_REGISTERS) with false.
  change (0x05 =? FC_READ_INPUT_REGISTERS) with false.
  change (0x05 =? FC_FORCE_SINGLE_COIL) with true. cbv iota.
  destruct (Z.leb_spec (nb_coil_status mb_mapping) (address_field mb_param query));
    [lia|].
  destruct (_ || _); [reflexivity|].
  now destruct (response_exception mb_param sft ILLEGAL_DATA_VALUE response).
Qed.

(** X10: a write-single-coil query addressed to the server, with its
    address inside the coil array and a value that is neither 0xFF00 nor
    0x0000, is answered with the exception frame of function byte 0x85 and
    exception code 0x03 (illegal data value), and the map stays as it is. *)
Theorem modbus_slave_manage_illegal_value (E : modbus_h)
    (mb_param : modbus_param_t) (query : list Z) (query_length : Z)
    (mb_mapping : modbus_mapping_t) (response : list Z) (wrote : Z) :
  let offset := TAB_HEADER_LENGTH (type_com mb_param) in
  Forall is_byte query ->
  addressed mb_param query ->
  get query offset = 0x05 ->
  address_field mb_param query < nb_coil_status mb_mapping ->
  quantity_field mb_param query <> 0xFF00 ->
  quantity_field mb_param query <> 0x0000 ->
  exists frame,
    modbus_slave_manage E mb_param query query_length mb_mapping response wrote
    = (mb_mapping, [frame]) /\
    Z.of_nat (length frame) = offset + 2 + TAB_CHECKSUM_LENGTH (type_com mb_param) /\
    get frame offset = 0x85 /\
    get frame (offset + 1) = 0x03.
Proof.
  intros offset Hq Hunit Hfc Haddr Hv1 Hv0.
  destruct (modbus_slave_manage_exception E mb_param query query_length mb_mapping
              response wrote ILLEGAL_DATA_VALUE Hunit)
    as (frame & Hm & Hl & Hf & Hc).
  - fold offset. rewrite Hfc. lia.
  - unfold ILLEGAL_DATA_VALUE. lia.
  - rewrite manage_switch_force_single_coil by assumption.
    destruct (Z.eqb_spec (quantity_field mb_param query) 0xFF00); [contradiction|].
    destruct (Z.eqb_spec (quantity_field mb_param query) 0x0); [contradiction|].
    reflexivity.
  - exists frame. fold offset in Hf, Hc, Hl. rewrite Hfc in Hf.
    repeat split; assumption.
Qed.

Lemma modbus_slave_manage_illegal_value_witness :
  let mb_mapping := snd (modbus_mapping_new 4 0 0 0) in
  exists frame,
    modbus_slave_manage libmodbus_h {| type_com := TCP; slave := 1 |}
      [0x00; 0x01; 0x00; 0x00; 0x00; 0x06; 0x01; 0x05; 0x00; 0x01; 0x00; 0x01]
      12 mb_mapping [] 9
    = (mb_mapping, [frame]) /\
    Z.of_nat (length frame) = 7 + 2 + TAB_CHECKSUM_LENGTH TCP /\
    get frame 7 = 0x85 /\
    get frame (7 + 1) = 0x03.
Proof.
  intros mb_mapping.
  apply (modbus_slave_manage_illegal_value libmodbus_h
           {| type_com := TCP; slave := 1 |}
           [0x00; 0x01; 0x00; 0x00; 0x00; 0x06; 0x01; 0x05; 0x00; 0x01; 0x00; 0x01]
           12 mb_mapping [] 9).
  - repeat constructor; unfold is_byte; lia.
  - left. reflexivity.
  - reflexivity.
  - vm_compute. reflexivity.
  - vm_compute. discriminate.
  - vm_compute. discriminate.
Defined.


Lemma manage_switch_preset_single_register (mb_param : modbus_param_t)
    (sft : sft_t) (query : list Z) (query_length : Z)
    (mb_mapping : modbus_mapping_t) (response : list Z) :
  Forall is_byte query ->
  get query (TAB_HEADER_LENGTH (type_com mb_param)) = 0x06 ->
  address_field mb_param query < nb_holding_registers mb_mapping ->
  manage_switch mb_param sft query query_length mb_mapping response =
  (set_tab_holding_registers mb_mapping
     (tab_set (tab_holding_registers mb_mapping) (address_field mb_param query)
        (quantity_field mb_param query)),
   memcpy response 0 query 0 (Z.to_nat query_length), query_length).
Proof.
  intros Hq Hfc Haddr. unfold manage_switch. cbv zeta.
  rewrite (address_field_uint16 mb_param query Hq).
  rewrite !word_add_eq. fold (quantity_field mb_param query).
  rewrite Hfc.
  change (0x06 =? FC_READ_COIL_STATUS) with false.
  change (0x06 =? FC_READ_INPUT_STATUS) with false.
  change (0x06 =? FC_READ_HOLDING_REGISTERS) with false.
  change (0x06 =? FC_READ_INPUT_REGISTERS) with false.
  change (0x06 =? FC_FORCE_SINGLE_COIL) with false.
  change (0x06 =? FC_PRESET_SINGLE_REGISTER) with true. cbv iota.
  destruct (Z.leb_spec (nb_holding_registers mb_mapping)
              (address_field mb_param query)); [lia|].
  pose proof (quantity_field_nonneg mb_param query Hq).
  unfold uint16. rewrite Z.mod_small by lia. reflexivity.
Qed.

Lemma address_field_nonneg (mb_param : modbus_param_t) (query : list Z) :
  Forall is_byte query -> 0 <= address_field mb_param query < 65536.
Proof.
  intros Hq. unfold address_field.
  pose proof (get_is_byte query (TAB_HEADER_LENGTH (type_com mb_param) + 1) Hq).
  pose proof (get_is_byte query (TAB_HEADER_LENGTH (type_com mb_param) + 2) Hq).
  unfold is_byte in *. lia.
Qed.

(** The frame that echoes a query. *)
Lemma modbus_send_echo (E : modbus_h) (mb_param : modbus_param_t)
    (query response : list Z) (n wrote i : Z) :
  Forall is_byte query -> 0 <= i < n ->
  (type_com mb_param = TCP -> i <> 4 /\ i <> 5) ->
  get (snd (modbus_send E mb_param (memcpy response 0 query 0 (Z.to_nat n)) n wrote)) i
  = get query i.
Proof.
  intros Hq Hi Ht. rewrite modbus_send_frame by assumption.
  rewrite get_memcpy by lia.
  destruct (Z.leb_spec 0 i); [|lia].
  destruct (Z.ltb_spec i (0 + Z.of_nat (Z.to_nat n))); [|lia].
  simpl. replace (0 + (i - 0)) with i by lia.
  apply uint8_byte. now apply get_is_byte.
Qed.

(** X11: a write-single-register query addressed to the server with its
    address inside the holding registers stores the 16-bit value of the
    query at that address and nowhere else: the other holding registers, the
    sizes and the three other arrays stay as they are.  The frame sent in
    reply has the length of the query and repeats its bytes up to the
    checksum (in TCP mode but for the MBAP length field, which is written
    anew). *)
Theorem modbus_slave_manage_preset_single_register (E : modbus_h)
    (mb_param : modbus_param_t) (query : list Z) (query_length : Z)
    (mb_mapping : modbus_mapping_t) (response : list Z) (wrote : Z) :
  let offset := TAB_HEADER_LENGTH (type_com mb_param) in
  let address := address_field mb_param query in
  let r := modbus_slave_manage E mb_param query query_length mb_mapping
             response wrote in
  Forall is_byte query ->
  addressed mb_param query ->
  get query offset = 0x06 ->
  address < nb_holding_registers mb_mapping ->
  nb_holding_registers mb_mapping
  = Z.of_nat (length (tab_holding_registers mb_mapping)) ->
  TAB_CHECKSUM_LENGTH (type_com mb_param) <= query_length ->
  get (tab_holding_registers (fst r)) address = quantity_field mb_param query /\
  (forall j, j <> address ->
     get (tab_holding_registers (fst r)) j
     = get (tab_holding_registers mb_mapping) j) /\
  fst r = set_tab_holding_registers mb_mapping (tab_holding_registers (fst r)) /\
  exists frame,
    snd r = [frame] /\
    Z.of_nat (length frame) = query_length /\
    (forall i, 0 <= i < request_length mb_param query_length ->
       (type_com mb_param = TCP -> i <> 4 /\ i <> 5) ->
       get frame i = get query i).
Proof.
  intros offset address r Hq Hunit Hfc Haddr Hsize Hlen.
  pose proof (address_field_nonneg mb_param query Hq) as Ha. fold address in Ha.
  subst r. rewrite modbus_slave_manage_addressed by exact Hunit. cbv zeta.
  rewrite manage_switch_preset_single_register by assumption.
  cbn [fst snd tab_holding_registers set_tab_holding_registers].
  fold address.
  split; [|split; [|split]].
  - rewrite get_tab_set by lia. now rewrite Z.eqb_refl.
  - intros j Hj. rewrite get_tab_set by lia.
    destruct (Z.eqb_spec j address); [contradiction|reflexivity].
  - reflexivity.
  - eexists. split; [reflexivity|].
    assert (Hn : 0 <= request_length mb_param query_length /\
                 request_length mb_param query_length
                 + TAB_CHECKSUM_LENGTH (type_com mb_param) = query_length).
    { unfold request_length. destruct (type_com mb_param); simpl in *;
        unfold CHECKSUM_LENGTH_RTU, CHECKSUM_LENGTH_TCP in *; lia. }
    split.
    + rewrite length_modbus_send by lia. lia.
    + intros i Hi Ht. now apply modbus_send_echo.
Qed.

Lemma modbus_slave_manage_preset_single_register_witness :
  let mb_param := {| type_com := RTU; slave := 1 |} in
  let query := [0x01; 0x06; 0x00; 0x01; 0xBE; 0xEF; 0x29; 0xB6] in
  let mb_mapping := snd (modbus_mapping_new 0 0 3 0) in
  let r := modbus_slave_manage libmodbus_h mb_param query 8 mb_mapping [] 8 in
  tab_holding_registers (fst r) = [0; 0xBEEF; 0] /\
  get (tab_holding_registers (fst r)) (address_field mb_param query)
  = quantity_field mb_param query /\
  (forall j, j <> address_field mb_param query ->
     get (tab_holding_registers (fst r)) j
     = get (tab_holding_registers mb_mapping) j) /\
  fst r = set_tab_holding_registers mb_mapping (tab_holding_registers (fst r)) /\
  exists frame,
    snd r = [frame] /\
    Z.of_nat (length frame) = 8 /\
    (forall i, 0 <= i < request_length mb_param 8 ->
       (type_com mb_param = TCP -> i <> 4 /\ i <> 5) ->
       get frame i = get query i).
Proof.
  intros mb_param query mb_mapping r. split; [reflexivity|].
  apply (modbus_slave_manage_preset_single_register libmodbus_h mb_param query 8
           mb_mapping [] 8).
  - repeat constructor; unfold is_byte; lia.
  - left. reflexivity.
  - reflexivity.
  - vm_compute. reflexivity.
  - reflexivity.
  - vm_compute. discriminate.
Defined.







Lemma modbus_mapping_new_ok (n1 n2 n3 n4 : Z) :
  0 <= n1 -> 0 <= n2 -> 0 <= n3 -> 0 <= n4 ->
  mapping_ok (snd (modbus_mapping_new n1 n2 n3 n4)).
Proof.
  intros H1 H2 H3 H4. unfold mapping_ok, modbus_mapping_new. simpl.
  rewrite !length_replicate.
  repeat split; try lia;
    apply Forall_replicate; try (left; reflexivity); unfold is_word; lia.
Qed.




(** ** The writes of the server *)

Lemma land_bit (x s : Z) :
  0 <= s -> (Z.land x (Z.shiftl 1 s) =? 0) = negb (Z.testbit x s).
Proof.
  intros Hs. rewrite Z.shiftl_1_l.
  destruct (Z.testbit x s) eqn:Hb; simpl.
  - apply Z.eqb_neq. intros H0.
    assert (Ht : Z.testbit (Z.land x (2 ^ s)) s = true).
    { rewrite Z.land_spec, Hb, Z.pow2_bits_true by lia. reflexivity. }
    rewrite H0, Z.bits_0 in Ht. discriminate.
  - apply Z.eqb_eq. apply Z.bits_inj'. intros n Hn.
    rewrite Z.land_spec, Z.bits_0, Z.pow2_bits_eqb by lia.
    destruct (Z.eqb_spec s n) as [<-|_]; [now rewrite Hb|apply andb_false_r].
Qed.











(** X15: a write-single-coil query (0x05) addressed to the server, with
    its address inside the coil array, sets that coil to ON when the value
    field is 0xFF00 and to OFF when it is 0x0000, and touches no other coil;
    the reply has the length of the query and repeats its bytes up to the
    checksum (in TCP mode but for the MBAP length field). *)
Theorem modbus_slave_manage_force_single_coil (E : modbus_h)
    (mb_param : modbus_param_t) (query : list Z) (query_length : Z)
    (mb_mapping : modbus_mapping_t) (response : list Z) (wrote : Z) :
  let offset := TAB_HEADER_LENGTH (type_com mb_param) in
  let address := address_field mb_param query in
  let value := quantity_field mb_param query in
  let r := modbus_slave_manage E mb_param query query_length mb_mapping
             response wrote in
  Forall is_byte query ->
  addressed mb_param query ->
  get query offset = 0x05 ->
  address < nb_coil_status mb_mapping ->
  nb_coil_status mb_mapping = Z.of_nat (length (tab_coil_status mb_mapping)) ->
  TAB_CHECKSUM_LENGTH (type_com mb_param) <= query_length ->
  value = 0xFF00 \/ value = 0x0000 ->
  get (tab_coil_status (fst r)) address = (if value =? 0xFF00 then ON else OFF) /\
  (forall j, j <> address ->
     get (tab_coil_status (fst r)) j = get (tab_coil_status mb_mapping) j) /\
  fst r = set_tab_coil_status mb_mapping (tab_coil_status (fst r)) /\
  exists frame,
    snd r = [frame] /\
    Z.of_nat (length frame) = query_length /\
    (forall i, 0 <= i < request_length mb_param query_length ->
       (type_com mb_param = TCP -> i <> 4 /\ i <> 5) ->
       get frame i = get query i).
Proof.
  intros offset address value r Hq Hunit Hfc Haddr Hsize Hlen Hval.
  pose proof (address_field_nonneg mb_param query Hq) as Ha. fold address in Ha.
  subst r. rewrite modbus_slave_manage_addressed by exact Hunit. cbv zeta.
  rewrite manage_switch_force_single_coil by assumption.
  fold value address.
  replace ((value =? 0xFF00) || (value =? 0x0)) with true
    by (destruct Hval as [-> | ->]; reflexivity).
  cbn [fst snd tab_coil_status set_tab_coil_status].
  split; [|split; [|split]].
  - rewrite get_tab_set by lia. rewrite Z.eqb_refl.
    destruct Hval as [-> | ->]; reflexivity.
  - intros j Hj. rewrite get_tab_set by lia.
    destruct (Z.eqb_spec j address); [contradiction|reflexivity].
  - reflexivity.
  - eexists. split; [reflexivity|].
    assert (Hn : 0 <= request_length mb_param query_length /\
                 request_length mb_param query_length
                 + TAB_CHECKSUM_LENGTH (type_com mb_param) = query_length).
    { unfold request_length. destruct (type_com mb_param); simpl in *;
        unfold CHECKSUM_LENGTH_RTU, CHECKSUM_LENGTH_TCP in *; lia. }
    split.
    + rewrite length_modbus_send by lia. lia.
    + intros i Hi Ht. now apply modbus_send_echo.
Qed.

Lemma modbus_slave_manage_force_single_coil_witness :
  let mb_param := {| type_com := RTU; slave := 1 |} in
  let query := [0x01; 0x05; 0x00; 0x02; 0xFF; 0x00; 0x2D; 0xFA] in
  let mb_mapping := snd (modbus_mapping_new 4 0 0 0) in
  let r := modbus_slave_manage libmodbus_h mb_param query 8 mb_mapping [] 8 in
  tab_coil_status (fst r) = [0; 0; 1; 0] /\
  get (tab_coil_status (fst r)) (address_field mb_param query)
  = (if quantity_field mb_param query =? 0xFF00 then ON else OFF) /\
  (forall j, j <> address_field mb_param query ->
     get (tab_coil_status (fst r)) j = get (tab_coil_status mb_mapping) j) /\
  fst r = set_tab_coil_status mb_mapping (tab_coil_status (fst r)) /\
  exists frame,
    snd r = [frame] /\
    Z.of_nat (length frame) = 8 /\
    (forall i, 0 <= i < request_length mb_param 8 ->
       (type_com mb_param = TCP -> i <> 4 /\ i <> 5) ->
       get frame i = get query i).
Proof.
  intros mb_param query mb_mapping r. split; [reflexivity|].
  apply (modbus_slave_manage_force_single_coil libmodbus_h mb_param query 8
           mb_mapping [] 8).
  - repeat constructor; unfold is_byte; lia.
  - left. reflexivity.
  - reflexivity.
  - vm_compute. reflexivity.
  - reflexivity.
  - vm_compute. discriminate.
  - left. reflexivity.
Defined.


(** ** The reads of the server *)

Lemma read_registers_loop_spec (n : nat) (i : Z) (tab response : list Z)
    (len : Z) :
  0 <= len ->
  fst (read_registers_loop n i tab response len) = len + 2 * Z.of_nat n /\
  (forall t, 0 <= t < Z.of_nat n ->
     get (snd (read_registers_loop n i tab response len)) (len + 2 * t)
     = uint8 (Z.shiftr (get tab (i + t)) 8) /\
     get (snd (read_registers_loop n i tab response len)) (len + 2 * t + 1)
     = uint8 (Z.land (get tab (i + t)) 0xFF)) /\
  (forall k, k < len \/ len + 2 * Z.of_nat n <= k ->
     get (snd (read_registers_loop n i tab response len)) k = get response k).
Proof.
  revert i response len. induction n as [|n IH]; intros i response len Hlen.
  - simpl. split; [lia|]. split; [intros; lia|reflexivity].
  - cbn [read_registers_loop].
    destruct (IH (i + 1)
                (poke (poke response len (Z.shiftr (get tab i) 8)) (len + 1)
                   (Z.land (get tab i) 0xFF))
                (len + 2) ltac:(lia)) as (H1 & H2 & H3).
    split; [lia|]. split.
    + intros t Ht. destruct (Z.eq_dec t 0) as [->|Hne].
      * rewrite !H3 by lia. rewrite !get_poke by lia.
        replace (i + 0) with i by lia.
        destruct (Z.eqb_spec (len + 2 * 0) (len + 1)); [lia|].
        destruct (Z.eqb_spec (len + 2 * 0) len); [|lia].
        destruct (Z.eqb_spec (len + 2 * 0 + 1) (len + 1)); [|lia].
        auto.
      * destruct (H2 (t - 1) ltac:(lia)) as [Ha Hb].
        replace (len + 2 + 2 * (t - 1)) with (len + 2 * t) in Ha, Hb by lia.
        replace (i + 1 + (t - 1)) with (i + t) in Ha, Hb by lia.
        auto.
    + intros k Hk. rewrite H3 by lia. rewrite !get_poke by lia.
      destruct (Z.eqb_spec k (len + 1)); [lia|].
      destruct (Z.eqb_spec k len); [lia|]. reflexivity.
Qed.

Lemma manage_switch_read_registers (mb_param : modbus_param_t)
    (sft : sft_t) (query : list Z) (query_length : Z)
    (mb_mapping : modbus_mapping_t) (response : list Z) :
  let offset := TAB_HEADER_LENGTH (type_com mb_param) in
  let fc := get query offset in
  let nb := quantity_field mb_param query in
  Forall is_byte query ->
  fc = 0x03 \/ fc = 0x04 ->
  target_size mb_mapping fc = Some (Z.of_nat (length (target_registers mb_mapping fc))) ->
  address_field mb_param query + nb
  <= Z.of_nat (length (target_registers mb_mapping fc)) ->
  manage_switch mb_param sft query query_length mb_mapping response =
  let r := read_registers_loop (Z.to_nat nb) (address_field mb_param query)
             (target_registers mb_mapping fc)
             (poke (snd (build_response_basis mb_param sft response)) (offset + 1)
                (Z.shiftl nb 1))
             (offset + 2) in
  (mb_mapping, snd r, fst r).
Proof.
  intros offset fc nb Hq Hfc Hsize Haddr. unfold manage_switch. cbv zeta.
  rewrite (address_field_uint16 mb_param query Hq).
  rewrite !word_add_eq. fold (quantity_field mb_param query). fold offset nb.
  destruct (build_response_basis_spec mb_param sft response) as [Hl _].
  cbv zeta in Hl. fold offset in Hl.
  destruct (build_response_basis mb_param sft response) as [len resp].
  cbn [fst snd] in *. subst len. fold fc.
  destruct Hfc as [Hfc|Hfc]; rewrite Hfc in *;
    unfold target_size, target_registers in *; simpl in Hsize, Haddr |- *;
    injection Hsize as Hsize.
  - change (3 =? FC_READ_COIL_STATUS) with false.
    change (3 =? FC_READ_INPUT_STATUS) with false.
    change (3 =? FC_READ_HOLDING_REGISTERS) with true. cbv iota.
    destruct (Z.ltb_spec (nb_holding_registers mb_mapping)
                (address_field mb_param query + nb)); [lia|].
    replace (offset + 1 + 1) with (offset + 2) by lia.
    now destruct (read_registers_loop _ _ _ _ _).
  - change (4 =? FC_READ_COIL_STATUS) with false.
    change (4 =? FC_READ_INPUT_STATUS) with false.
    change (4 =? FC_READ_HOLDING_REGISTERS) with false.
    change (4 =? FC_READ_INPUT_REGISTERS) with true. cbv iota.
    destruct (Z.ltb_spec (nb_input_registers mb_mapping)
                (address_field mb_param query + nb)); [lia|].
    replace (offset + 1 + 1) with (offset + 2) by lia.
    now destruct (read_registers_loop _ _ _ _ _).
Qed.

Lemma word_bytes (r : Z) :
  is_word r ->
  uint8 (Z.shiftr r 8) * 256 + uint8 (Z.land r 0xFF) = r.
Proof.
  intros Hr. unfold is_word in Hr.
  rewrite Z.shiftr_div_pow2 by lia. change (2 ^ 8) with 256.
  change 0xFF with (Z.ones 8). rewrite Z.land_ones by lia.
  change (2 ^ 8) with 256. unfold uint8.
  rewrite Z.mod_mod by lia.
  rewrite (Z.mod_small (r / 256)).
  - pose proof (Z.div_mod r 256 ltac:(lia)). lia.
  - split; [apply Z.div_pos; lia|apply Z.div_lt_upper_bound; lia].
Qed.

(** The frame that answers a read of registers. *)
Lemma modbus_slave_manage_read_registers_reply (E : modbus_h)
    (mb_param : modbus_param_t) (query : list Z) (query_length : Z)
    (mb_mapping : modbus_mapping_t) (response : list Z) (wrote : Z) :
  let offset := TAB_HEADER_LENGTH (type_com mb_param) in
  let fc := get query offset in
  let address := address_field mb_param query in
  let nb := quantity_field mb_param query in
  Forall is_byte query ->
  addressed mb_param query ->
  fc = 0x03 \/ fc = 0x04 ->
  mapping_ok mb_mapping ->
  address + nb <= Z.of_nat (length (target_registers mb_mapping fc)) ->
  nb <= MAX_REGISTERS ->
  exists frame,
    modbus_slave_manage E mb_param query query_length mb_mapping response wrote
    = (mb_mapping, [frame]) /\
    Z.of_nat (length frame)
    = offset + 2 + 2 * nb + TAB_CHECKSUM_LENGTH (type_com mb_param) /\
    get frame offset = fc /\
    get frame (offset + 1) = 2 * nb /\
    (forall i, 0 <= i < nb ->
       get frame (offset + 2 + 2 * i) * 256 + get frame (offset + 3 + 2 * i)
       = get (target_registers mb_mapping fc) (address + i)).
Proof.
  intros offset fc address nb Hq Hunit Hfc Hok Haddr Hmax.
  pose proof (address_field_nonneg mb_param query Hq) as Ha. fold address in Ha.
  pose proof (quantity_field_nonneg mb_param query Hq) as Hn. fold nb in Hn.
  unfold MAX_REGISTERS in Hmax.
  destruct Hok as (L1 & L2 & L3 & L4 & F1 & F2 & F3 & F4).
  assert (Hsize : target_size mb_mapping fc
                  = Some (Z.of_nat (length (target_registers mb_mapping fc)))).
  { destruct Hfc as [Hfc|Hfc]; rewrite Hfc; unfold target_size, target_registers;
      simpl; congruence. }
  assert (Hwords : Forall is_word (target_registers mb_mapping fc)).
  { destruct Hfc as [Hfc|Hfc]; rewrite Hfc; unfold target_registers; simpl;
      assumption. }
  rewrite modbus_slave_manage_addressed by exact Hunit. cbv zeta.
  rewrite manage_switch_read_registers by assumption.
  cbv zeta. fold offset fc address nb. cbn [fst snd].
  set (sft := request_sft mb_param query).
  set (resp0 := poke (snd (build_response_basis mb_param sft response))
                  (offset + 1) (Z.shiftl nb 1)).
  assert (Hoff : offset = 1 /\ type_com mb_param = RTU /\
                 TAB_CHECKSUM_LENGTH (type_com mb_param) = 2 \/
                 offset = 7 /\ type_com mb_param = TCP /\
                 TAB_CHECKSUM_LENGTH (type_com mb_param) = 0)
    by apply header_offset_cases.
  destruct (read_registers_loop_spec (Z.to_nat nb) address
              (target_registers mb_mapping fc) resp0 (offset + 2))
    as (Hlen & Hdata & Hrest); [lia|].
  rewrite Z2Nat.id in Hlen, Hdata, Hrest by lia.
  destruct (read_registers_loop (Z.to_nat nb) address
              (target_registers mb_mapping fc) resp0 (offset + 2))
    as [len resp]. cbn [fst snd] in *. subst len.
  eexists. split; [reflexivity|].
  assert (Hget : forall i, offset <= i < offset + 2 + 2 * nb ->
            get (snd (modbus_send E mb_param resp (offset + 2 + 2 * nb) wrote)) i
            = get resp i).
  { intros i Hi. apply modbus_send_frame; [lia|].
    intros Ht. destruct Hoff as [(Ho & Ht' & _)|(Ho & _)]; [congruence|lia]. }
  split; [|split; [|split]].
  - rewrite length_modbus_send by lia. reflexivity.
  - rewrite Hget by lia. rewrite Hrest by lia. subst resp0.
    rewrite get_poke by lia.
    destruct (Z.eqb_spec offset (offset + 1)); [lia|].
    destruct (build_response_basis_spec mb_param sft response) as [_ Hf].
    cbv zeta in Hf. fold offset in Hf. rewrite Hf.
    unfold sft, request_sft. cbn [sft_function]. fold offset fc.
    apply uint8_byte. now apply get_is_byte.
  - rewrite Hget by lia. rewrite Hrest by lia. subst resp0.
    rewrite get_poke by lia. rewrite Z.eqb_refl.
    rewrite Z.shiftl_mul_pow2 by lia. change (2 ^ 1) with 2.
    unfold uint8. rewrite Z.mod_small by lia. lia.
  - intros i Hi. rewrite !Hget by lia.
    destruct (Hdata i Hi) as [Hhi Hlo].
    replace (offset + 3 + 2 * i) with (offset + 2 + 2 * i + 1) by lia.
    rewrite Hhi, Hlo. apply word_bytes.
    rewrite Forall_lookup in Hwords.
    unfold get. destruct (Z.ltb_spec (address + i) 0); [lia|].
    destruct (target_registers mb_mapping fc !! Z.to_nat (address + i)) eqn:Hl.
    + simpl. eapply Hwords. exact Hl.
    + apply lookup_ge_None in Hl. lia.
Qed.

(** X16: the reply to a read of registers (0x03 on the holding registers,
    0x04 on the input registers) that lies inside the table carries the
    function byte, the byte count [2 * nb] and the [nb] registers from
    [address] on, two bytes each, high byte first; the map is not changed;
    and the frame has the length the client computes for this request with
    [compute_response_length]. *)
Theorem modbus_slave_manage_read_registers (E : modbus_h)
    (mb_param : modbus_param_t) (query : list Z) (query_length : Z)
    (mb_mapping : modbus_mapping_t) (response : list Z) (wrote : Z) :
  let offset := TAB_HEADER_LENGTH (type_com mb_param) in
  let fc := get query offset in
  let address := address_field mb_param query in
  let nb := quantity_field mb_param query in
  Forall is_byte query ->
  addressed mb_param query ->
  fc = 0x03 \/ fc = 0x04 ->
  mapping_ok mb_mapping ->
  address + nb <= Z.of_nat (length (target_registers mb_mapping fc)) ->
  nb <= MAX_REGISTERS ->
  exists frame,
    modbus_slave_manage E mb_param query query_length mb_mapping response wrote
    = (mb_mapping, [frame]) /\
    Z.of_nat (length frame) = compute_response_length E mb_param query UINT16 /\
    get frame offset = fc /\
    get frame (offset + 1) = 2 * nb /\
    (forall i, 0 <= i < nb ->
       get frame (offset + 2 + 2 * i) * 256 + get frame (offset + 3 + 2 * i)
       = get (target_registers mb_mapping fc) (address + i)).
Proof.
  intros offset fc address nb Hq Hunit Hfc Hok Haddr Hmax.
  destruct (modbus_slave_manage_read_registers_reply E mb_param query query_length
              mb_mapping response wrote Hq Hunit Hfc Hok Haddr Hmax)
    as (frame & Hm & Hlen & Hf & Hbc & Hdata).
  exists frame. split; [exact Hm|]. split; [|auto].
  rewrite Hlen. unfold compute_response_length. cbv zeta.
  rewrite (quantity_field_or mb_param query Hq). fold offset fc nb.
  destruct Hfc as [Hfc|Hfc]; rewrite Hfc; simpl; lia.
Qed.

Lemma modbus_slave_manage_read_registers_witness :
  let mb_param := {| type_com := RTU; slave := 1 |} in
  let query := [0x01; 0x03; 0x00; 0x01; 0x00; 0x02; 0x95; 0xCB] in
  let mb_mapping :=
    set_tab_holding_registers (snd (modbus_mapping_new 0 0 3 0))
      [0x1111; 0x1234; 0xABCD] in
  exists frame,
    modbus_slave_manage libmodbus_h mb_param query 8 mb_mapping [] 9
    = (mb_mapping, [frame]) /\
    Z.of_nat (length frame) = compute_response_length libmodbus_h mb_param query UINT16 /\
    get frame 1 = get query 1 /\
    get frame (1 + 1) = 2 * quantity_field mb_param query /\
    (forall i, 0 <= i < quantity_field mb_param query ->
       get frame (1 + 2 + 2 * i) * 256 + get frame (1 + 3 + 2 * i)
       = get (target_registers mb_mapping (get query 1))
           (address_field mb_param query + i)).
Proof.
  intros mb_param query mb_mapping.
  apply (modbus_slave_manage_read_registers libmodbus_h mb_param query 8
           mb_mapping [] 9).
  - repeat constructor; unfold is_byte; lia.
  - left. reflexivity.
  - left. reflexivity.
  - unfold mapping_ok. simpl.
    repeat split; repeat constructor; unfold is_word; lia.
  - vm_compute. discriminate.
  - vm_compute. discriminate.
Defined.


Lemma testbit_uint8 (x b : Z) : 0 <= b < 8 -> Z.testbit (uint8 x) b = Z.testbit x b.
Proof.
  intros Hb. unfold uint8. change 256 with (2 ^ 8).
  apply Z.mod_pow2_bits_low. lia.
Qed.

Lemma testbit_is_bit (t k : Z) : is_bit t -> 0 < k -> Z.testbit t k = false.
Proof.
  intros [-> | ->] Hk; [apply Z.bits_0|].
  apply Z.bits_above_log2; simpl; lia.
Qed.

Lemma get_is_bit (tab : list Z) (j : Z) : Forall is_bit tab -> is_bit (get tab j).
Proof.
  intros H. unfold get. destruct (j <? 0); [now left|].
  destruct (tab !! Z.to_nat j) as [x|] eqn:Hx; simpl.
  - rewrite Forall_lookup in H. eauto.
  - now left.
Qed.

(** The loop of [response_io_status] and the write that follows it, bit by
    bit: [fin] is the buffer when [response_io_status] returns. *)
Lemma response_io_status_loop_spec (tab : list Z) (n : nat) :
  Forall is_bit tab ->
  forall (i : Z) (resp : list Z) (off shift byte : Z),
  0 <= off -> 0 <= shift < 8 ->
  (forall b, shift <= b -> Z.testbit byte b = false) ->
  match response_io_status_loop n i tab resp off shift byte with
  | (resp', off', shift', byte') =>
      let fin := if shift' =? 0 then resp' else poke resp' off' byte' in
      8 * off' + shift' = 8 * off + shift + Z.of_nat n /\ 0 <= shift' < 8 /\
      (forall q b, 0 <= b < 8 -> 0 <= 8 * (q - off) + b - shift < Z.of_nat n ->
         Z.testbit (get fin q) b
         = Z.testbit (get tab (i + (8 * (q - off) + b - shift))) 0) /\
      (forall b, 0 <= b < shift -> Z.testbit (get fin off) b = Z.testbit byte b) /\
      (forall b, shift' <= b < 8 -> shift' <> 0 ->
         Z.testbit (get fin off') b = false) /\
      (forall k, k < off \/ off' + (if shift' =? 0 then 0 else 1) <= k ->
         get fin k = get resp k)
  end.
Proof.
  intros Htab. induction n as [|n IH]; intros i resp off shift byte Hoff Hshift Hhigh.
  - cbn [response_io_status_loop]. cbv zeta.
    split; [simpl; lia|]. split; [lia|]. split; [intros; simpl in *; lia|].
    destruct (Z.eqb_spec shift 0) as [->|Hs].
    + split; [intros; lia|]. split; [intros; lia|]. reflexivity.
    + split; [|split].
      * intros b Hb. rewrite get_poke by lia. rewrite Z.eqb_refl.
        apply testbit_uint8; lia.
      * intros b Hb _. rewrite get_poke, Z.eqb_refl by lia.
        rewrite testbit_uint8 by lia. apply Hhigh; lia.
      * intros k Hk. rewrite get_poke by lia.
        destruct (Z.eqb_spec k off); [lia|reflexivity].
  - cbn [response_io_status_loop].
    set (byte1 := Z.lor byte (Z.shiftl (get tab i) shift)).
    assert (Hb1 : forall b, 0 <= b ->
              Z.testbit byte1 b =
              if b <? shift then Z.testbit byte b
              else if b =? shift then Z.testbit (get tab i) 0 else false).
    { intros b Hb. unfold byte1. rewrite Z.lor_spec, Z.shiftl_spec by lia.
      destruct (Z.ltb_spec b shift).
      - rewrite (Z.testbit_neg_r _ (b - shift)) by lia. apply orb_false_r.
      - rewrite Hhigh by lia. simpl.
        destruct (Z.eqb_spec b shift) as [->|Hne].
        + now rewrite Z.sub_diag.
        + apply testbit_is_bit; [now apply get_is_bit|lia]. }
    destruct (Z.eqb_spec shift 7) as [->|Hs7].
    + specialize (IH (i + 1) (poke resp off byte1) (off + 1) 0 0
                    ltac:(lia) ltac:(lia) ltac:(intros; apply Z.bits_0)).
      destruct (response_io_status_loop n (i + 1) tab (poke resp off byte1)
                  (off + 1) 0 0) as [[[resp' off'] shift'] byte'].
      cbv zeta in IH |- *. destruct IH as (H1 & H2 & H3 & H4 & H5 & H6).
      assert (Hfo : get (if shift' =? 0 then resp' else poke resp' off' byte') off
                    = uint8 byte1).
      { rewrite H6 by lia. rewrite get_poke by lia. now rewrite Z.eqb_refl. }
      split; [lia|]. split; [lia|]. split; [|split; [|split]].
      * intros q b Hb Hc.
        destruct (Z.eq_dec (8 * (q - off) + b - 7) 0) as [H0|H0].
        -- assert (q = off) by lia. assert (b = 7) by lia. subst q b.
           rewrite Hfo, testbit_uint8, Hb1 by lia. simpl.
           f_equal. f_equal. lia.
        -- rewrite H3 by lia. f_equal. f_equal. lia.
      * intros b Hb. rewrite Hfo, testbit_uint8, Hb1 by lia.
        destruct (Z.ltb_spec b 7); [reflexivity|lia].
      * exact H5.
      * intros k Hk. rewrite H6 by (destruct (shift' =? 0); lia).
        rewrite get_poke by lia.
        destruct (Z.eqb_spec k off); [destruct (shift' =? 0); lia|reflexivity].
    + specialize (IH (i + 1) resp off (shift + 1) byte1 ltac:(lia) ltac:(lia)).
      feed IH.
      { intros b Hb. rewrite Hb1 by lia.
        destruct (Z.ltb_spec b shift); [lia|].
        destruct (Z.eqb_spec b shift); [lia|reflexivity]. }
      destruct (response_io_status_loop n (i + 1) tab resp off (shift + 1) byte1)
        as [[[resp' off'] shift'] byte'].
      cbv zeta in IH |- *. destruct IH as (H1 & H2 & H3 & H4 & H5 & H6).
      split; [lia|]. split; [lia|]. split; [|split; [|split]].
      * intros q b Hb Hc.
        destruct (Z.eq_dec (8 * (q - off) + b - shift) 0) as [H0|H0].
        -- assert (q = off) by lia. assert (b = shift) by lia. subst q b.
           rewrite H4, Hb1 by lia.
           destruct (Z.ltb_spec shift shift); [lia|]. rewrite Z.eqb_refl.
           f_equal. f_equal. lia.
        -- rewrite H3 by lia. f_equal. f_equal. lia.
      * intros b Hb. rewrite H4, Hb1 by lia.
        destruct (Z.ltb_spec b shift); [reflexivity|lia].
      * exact H5.
      * exact H6.
Qed.


Lemma response_io_status_spec (tab : list Z) (address nb : Z) (resp : list Z)
    (off : Z) :
  Forall is_bit tab -> 0 <= off -> 0 <= nb ->
  let r := response_io_status address nb tab resp off in
  fst r = off + ceil_div8 nb /\
  (forall j b, 0 <= j < ceil_div8 nb -> 0 <= b < 8 ->
     Z.testbit (get (snd r) (off + j)) b
     = (8 * j + b <? nb) && Z.testbit (get tab (address + (8 * j + b))) 0) /\
  (forall k, k < off -> get (snd r) k = get resp k).
Proof.
  intros Htab Hoff Hnb r. subst r. unfold response_io_status.
  pose proof (response_io_status_loop_spec tab (Z.to_nat nb) Htab address resp
                off 0 0 Hoff ltac:(lia) ltac:(intros; apply Z.bits_0)) as H.
  destruct (response_io_status_loop (Z.to_nat nb) address tab resp off 0 0)
    as [[[resp' off'] shift'] byte'].
  cbv zeta in H. destruct H as (H1 & H2 & H3 & H4 & H5 & H6).
  rewrite Z2Nat.id in H1, H3 by lia.
  assert (Hceil : ceil_div8 nb = off' - off + (if shift' =? 0 then 0 else 1)).
  { unfold ceil_div8. symmetry. destruct (Z.eqb_spec shift' 0).
    - apply Z.div_unique with 7; lia.
    - apply Z.div_unique with (shift' - 1); lia. }
  assert (Hr : (if shift' =? 0 then (off', resp')
                else (off' + 1, poke resp' off' byte'))
               = (off' + (if shift' =? 0 then 0 else 1),
                  if shift' =? 0 then resp' else poke resp' off' byte')).
  { destruct (shift' =? 0); f_equal; lia. }
  rewrite Hr. cbn [fst snd]. split; [lia|]. split.
  - intros j b Hj Hb. destruct (Z.ltb_spec (8 * j + b) nb) as [Hin|Hout].
    + rewrite H3 by lia. simpl. f_equal. f_equal. lia.
    + simpl. destruct (Z.eqb_spec shift' 0) as [H0|H0]; [lia|].
      replace (off + j) with off' by lia.
      apply (H5 b); [lia|exact H0].
  - intros k Hk. apply H6. lia.
Qed.

Lemma manage_switch_read_status (mb_param : modbus_param_t)
    (sft : sft_t) (query : list Z) (query_length : Z)
    (mb_mapping : modbus_mapping_t) (response : list Z) :
  let offset := TAB_HEADER_LENGTH (type_com mb_param) in
  let fc := get query offset in
  let nb := quantity_field mb_param query in
  Forall is_byte query ->
  fc = 0x01 \/ fc = 0x02 ->
  target_size mb_mapping fc = Some (Z.of_nat (length (target_status mb_mapping fc))) ->
  address_field mb_param query + nb
  <= Z.of_nat (length (target_status mb_mapping fc)) ->
  manage_switch mb_param sft query query_length mb_mapping response =
  let r := response_io_status (address_field mb_param query) nb
             (target_status mb_mapping fc)
             (poke (snd (build_response_basis mb_param sft response)) (offset + 1)
                (byte_count nb))
             (offset + 2) in
  (mb_mapping, snd r, fst r).
Proof.
  intros offset fc nb Hq Hfc Hsize Haddr. unfold manage_switch. cbv zeta.
  rewrite (address_field_uint16 mb_param query Hq).
  rewrite !word_add_eq. fold (quantity_field mb_param query). fold offset nb.
  destruct (build_response_basis_spec mb_param sft response) as [Hl _].
  cbv zeta in Hl. fold offset in Hl.
  destruct (build_response_basis mb_param sft response) as [len resp].
  cbn [fst snd] in *. subst len. fold fc.
  destruct Hfc as [Hfc|Hfc]; rewrite Hfc in *;
    unfold target_size, target_status in *; simpl in Hsize, Haddr |- *;
    injection Hsize as Hsize.
  - change (1 =? FC_READ_COIL_STATUS) with true. cbv iota.
    destruct (Z.ltb_spec (nb_coil_status mb_mapping)
                (address_field mb_param query + nb)); [lia|].
    replace (offset + 1 + 1) with (offset + 2) by lia.
    now destruct (response_io_status _ _ _ _ _).
  - change (2 =? FC_READ_COIL_STATUS) with false.
    change (2 =? FC_READ_INPUT_STATUS) with true. cbv iota.
    destruct (Z.ltb_spec (nb_input_status mb_mapping)
                (address_field mb_param query + nb)); [lia|].
    replace (offset + 1 + 1) with (offset + 2) by lia.
    now destruct (response_io_status _ _ _ _ _).
Qed.

(** The frame that answers a read of bits. *)
Lemma modbus_slave_manage_read_status_reply (E : modbus_h)
    (mb_param : modbus_param_t) (query : list Z) (query_length : Z)
    (mb_mapping : modbus_mapping_t) (response : list Z) (wrote : Z) :
  let offset := TAB_HEADER_LENGTH (type_com mb_param) in
  let fc := get query offset in
  let address := address_field mb_param query in
  let nb := quantity_field mb_param query in
  Forall is_byte query ->
  addressed mb_param query ->
  fc = 0x01 \/ fc = 0x02 ->
  mapping_ok mb_mapping ->
  address + nb <= Z.of_nat (length (target_status mb_mapping fc)) ->
  nb <= MAX_STATUS ->
  exists frame,
    modbus_slave_manage E mb_param query query_length mb_mapping response wrote
    = (mb_mapping, [frame]) /\
    Z.of_nat (length frame)
    = offset + 2 + ceil_div8 nb + TAB_CHECKSUM_LENGTH (type_com mb_param) /\
    get frame offset = fc /\
    get frame (offset + 1) = ceil_div8 nb /\
    (forall j b, 0 <= j < ceil_div8 nb -> 0 <= b < 8 ->
       Z.testbit (get frame (offset + 2 + j)) b
       = (8 * j + b <? nb) &&
         (get (target_status mb_mapping fc) (address + (8 * j + b)) =? ON)).
Proof.
  intros offset fc address nb Hq Hunit Hfc Hok Haddr Hmax.
  pose proof (address_field_nonneg mb_param query Hq) as Ha. fold address in Ha.
  pose proof (quantity_field_nonneg mb_param query Hq) as Hn. fold nb in Hn.
  unfold MAX_STATUS in Hmax.
  destruct Hok as (L1 & L2 & L3 & L4 & F1 & F2 & F3 & F4).
  assert (Hsize : target_size mb_mapping fc
                  = Some (Z.of_nat (length (target_status mb_mapping fc)))).
  { destruct Hfc as [Hfc|Hfc]; rewrite Hfc; unfold target_size, target_status;
      simpl; congruence. }
  assert (Hbits : Forall is_bit (target_status mb_mapping fc)).
  { destruct Hfc as [Hfc|Hfc]; rewrite Hfc; unfold target_status; simpl;
      assumption. }
  assert (Hceil : 0 <= ceil_div8 nb <= 250).
  { unfold ceil_div8. split; [apply Z.div_pos; lia|].
    apply Z.lt_succ_r. apply Z.div_lt_upper_bound; lia. }
  rewrite modbus_slave_manage_addressed by exact Hunit. cbv zeta.
  rewrite manage_switch_read_status by assumption.
  cbv zeta. fold offset fc address nb. cbn [fst snd].
  set (sft := request_sft mb_param query).
  set (resp0 := poke (snd (build_response_basis mb_param sft response))
                  (offset + 1) (byte_count nb)).
  assert (Hoff : offset = 1 /\ type_com mb_param = RTU /\
                 TAB_CHECKSUM_LENGTH (type_com mb_param) = 2 \/
                 offset = 7 /\ type_com mb_param = TCP /\
                 TAB_CHECKSUM_LENGTH (type_com mb_param) = 0)
    by apply header_offset_cases.
  destruct (response_io_status_spec (target_status mb_mapping fc) address nb
              resp0 (offset + 2) Hbits ltac:(lia) ltac:(lia))
    as (Hlen & Hdata & Hrest).
  destruct (response_io_status address nb (target_status mb_mapping fc) resp0
              (offset + 2)) as [len resp]. cbn [fst snd] in *. subst len.
  eexists. split; [reflexivity|].
  assert (Hget : forall i, offset <= i < offset + 2 + ceil_div8 nb ->
            get (snd (modbus_send E mb_param resp (offset + 2 + ceil_div8 nb) wrote)) i
            = get resp i).
  { intros i Hi. apply modbus_send_frame; [lia|].
    intros Ht. destruct Hoff as [(Ho & Ht' & _)|(Ho & _)]; [congruence|lia]. }
  split; [|split; [|split]].
  - rewrite length_modbus_send by lia. reflexivity.
  - rewrite Hget by lia. rewrite Hrest by lia. subst resp0.
    rewrite get_poke by lia.
    destruct (Z.eqb_spec offset (offset + 1)); [lia|].
    destruct (build_response_basis_spec mb_param sft response) as [_ Hf].
    cbv zeta in Hf. fold offset in Hf. rewrite Hf.
    unfold sft, request_sft. cbn [sft_function]. fold offset fc.
    apply uint8_byte. now apply get_is_byte.
  - rewrite Hget by lia. rewrite Hrest by lia. subst resp0.
    rewrite get_poke by lia. rewrite Z.eqb_refl.
    rewrite byte_count_ceil by lia.
    unfold uint8. apply Z.mod_small. lia.
  - intros j b Hj Hb. rewrite Hget by lia. rewrite Hdata by lia.
    f_equal.
    destruct (get_is_bit (target_status mb_mapping fc) (address + (8 * j + b)) Hbits)
      as [-> | ->]; reflexivity.
Qed.

(** X17: the reply to a read of bits (0x01 on the coils, 0x02 on the
    inputs) that lies inside the table carries the function byte, the byte
    count ceil(nb / 8) and that many data bytes, in which bit [b] of byte
    [j] is set exactly when [8 * j + b < nb] and the entry
    [address + 8 * j + b] of the table is ON: the bits go least significant
    first and the last byte is filled with zeros.  The map is not changed,
    and the frame has the length the client computes for this request with
    [compute_response_length]. *)
Theorem modbus_slave_manage_read_status (E : modbus_h)
    (mb_param : modbus_param_t) (query : list Z) (query_length : Z)
    (mb_mapping : modbus_mapping_t) (response : list Z) (wrote : Z) :
  let offset := TAB_HEADER_LENGTH (type_com mb_param) in
  let fc := get query offset in
  let address := address_field mb_param query in
  let nb := quantity_field mb_param query in
  Forall is_byte query ->
  addressed mb_param query ->
  fc = 0x01 \/ fc = 0x02 ->
  mapping_ok mb_mapping ->
  address + nb <= Z.of_nat (length (target_status mb_mapping fc)) ->
  nb <= MAX_STATUS ->
  exists frame,
    modbus_slave_manage E mb_param query query_length mb_mapping response wrote
    = (mb_mapping, [frame]) /\
    Z.of_nat (length frame) = compute_response_length E mb_param query UINT16 /\
    get frame offset = fc /\
    get frame (offset + 1) = ceil_div8 nb /\
    (forall j b, 0 <= j < ceil_div8 nb -> 0 <= b < 8 ->
       Z.testbit (get frame (offset + 2 + j)) b
       = (8 * j + b <? nb) &&
         (get (target_status mb_mapping fc) (address + (8 * j + b)) =? ON)).
Proof.
  intros offset fc address nb Hq Hunit Hfc Hok Haddr Hmax.
  destruct (modbus_slave_manage_read_status_reply E mb_param query query_length
              mb_mapping response wrote Hq Hunit Hfc Hok Haddr Hmax)
    as (frame & Hm & Hlen & Hf & Hbc & Hdata).
  exists frame. split; [exact Hm|]. split; [|auto].
  pose proof (quantity_field_nonneg mb_param query Hq) as Hn. fold nb in Hn.
  rewrite Hlen. unfold compute_response_length. cbv zeta.
  rewrite (quantity_field_or mb_param query Hq). fold offset fc nb.
  pose proof (byte_count_ceil nb ltac:(lia)) as Hc. unfold byte_count in Hc.
  destruct (Z.rem nb 8 =? 0);
    (destruct Hfc as [Hfc|Hfc]; rewrite Hfc;
     [change (1 =? FC_READ_COIL_STATUS) with true
     |change (2 =? FC_READ_COIL_STATUS) with false;
      change (2 =? FC_READ_INPUT_STATUS) with true];
     cbn [orb]; lia).
Qed.

Lemma modbus_slave_manage_read_status_witness :
  let mb_param := {| type_com := TCP; slave := 1 |} in
  let query := [0x00; 0x01; 0x00; 0x00; 0x00; 0x06; 0x01; 0x01; 0x00; 0x01;
                0x00; 0x0A] in
  let mb_mapping :=
    set_tab_coil_status (snd (modbus_mapping_new 12 0 0 0))
      [0; 1; 0; 1; 1; 0; 0; 1; 1; 0; 1; 1] in
  exists frame,
    modbus_slave_manage libmodbus_h mb_param query 12 mb_mapping [] 11
    = (mb_mapping, [frame]) /\
    Z.of_nat (length frame) = compute_response_length libmodbus_h mb_param query UINT16 /\
    get frame 7 = get query 7 /\
    get frame (7 + 1) = ceil_div8 (quantity_field mb_param query) /\
    (forall j b, 0 <= j < ceil_div8 (quantity_field mb_param query) -> 0 <= b < 8 ->
       Z.testbit (get frame (7 + 2 + j)) b
       = (8 * j + b <? quantity_field mb_param query) &&
         (get (target_status mb_mapping (get query 7))
            (address_field mb_param query + (8 * j + b)) =? ON)).
Proof.
  intros mb_param query mb_mapping.
  apply (modbus_slave_manage_read_status libmodbus_h mb_param query 12
           mb_mapping [] 11).
  - repeat constructor; unfold is_byte; lia.
  - left. reflexivity.
  - left. reflexivity.
  - unfold mapping_ok. simpl.
    repeat split; repeat constructor; unfold is_bit; lia.
  - vm_compute. discriminate.
  - vm_compute. discriminate.
Defined.


(** ** A request and its reply *)

(** Buffers of bytes stay buffers of bytes. *)
Lemma Forall_poke (buf : list Z) (i v : Z) :
  Forall is_byte buf -> Forall is_byte (poke buf i v).
Proof.
  intros H. unfold poke. apply Forall_insert; [|apply uint8_is_byte].
  apply Forall_app. split; [exact H|].
  apply Forall_replicate. unfold is_byte. lia.
Qed.

Lemma Forall_memcpy (n : nat) (dst : list Z) (d : Z) (src : list Z) (s : Z) :
  Forall is_byte dst -> Forall is_byte (memcpy dst d src s n).
Proof.
  revert dst d s. induction n as [|n IH]; intros dst d s H; simpl; [exact H|].
  apply IH. now apply Forall_poke.
Qed.

Lemma Forall_store (bs msg : list Z) (pos : Z) :
  Forall is_byte msg -> Forall is_byte (store msg pos bs).
Proof.
  revert msg pos. induction bs as [|b bs IH]; intros msg pos H; simpl; [exact H|].
  apply IH. now apply Forall_poke.
Qed.

Lemma Forall_bytes_at (buf : list Z) (n : Z) :
  Forall is_byte buf -> Forall is_byte (bytes_at buf n).
Proof.
  intros H. unfold bytes_at. apply Forall_fmap, Forall_forall.
  intros i _. simpl. now apply get_is_byte.
Qed.

Lemma modbus_send_bytes (E : modbus_h) (mb_param : modbus_param_t)
    (query : list Z) (query_length wrote : Z) :
  Forall is_byte query ->
  Forall is_byte (snd (modbus_send E mb_param query query_length wrote)).
Proof.
  intros H. unfold modbus_send, set_message_length_tcp.
  destruct (type_com mb_param); cbn [snd];
    apply Forall_bytes_at; now repeat apply Forall_poke.
Qed.

Lemma build_query_basis_bytes (mb_param : modbus_param_t)
    (function start_addr nb : Z) (query : list Z) (t_id : Z) :
  Forall is_byte query ->
  Forall is_byte (snd (fst (build_query_basis mb_param function start_addr nb
                              query t_id))).
Proof.
  intros H. unfold build_query_basis, build_query_basis_rtu, build_query_basis_tcp.
  destruct (type_com mb_param); cbn [fst snd]; now repeat apply Forall_poke.
Qed.

Lemma build_response_basis_bytes (mb_param : modbus_param_t) (sft : sft_t)
    (response : list Z) :
  Forall is_byte response ->
  Forall is_byte (snd (build_response_basis mb_param sft response)).
Proof.
  intros H. unfold build_response_basis, build_response_basis_rtu,
    build_response_basis_tcp.
  destruct (type_com mb_param); cbn [snd]; now repeat apply Forall_poke.
Qed.

Lemma response_exception_bytes (mb_param : modbus_param_t) (sft : sft_t)
    (exception_code : Z) (response : list Z) :
  Forall is_byte response ->
  Forall is_byte (snd (response_exception mb_param sft exception_code response)).
Proof.
  intros H. unfold response_exception. cbv zeta.
  match goal with
  | |- context [build_response_basis ?m ?s ?r] =>
      pose proof (build_response_basis_bytes m s r H) as Hb;
      destruct (build_response_basis m s r) as [len resp]
  end.
  cbn [snd] in *. now apply Forall_poke.
Qed.

Lemma response_io_status_loop_bytes (n : nat) (i : Z) (tab response : list Z)
    (offset shift byte : Z) :
  Forall is_byte response ->
  Forall is_byte
    (fst (fst (fst (response_io_status_loop n i tab response offset shift byte)))).
Proof.
  revert i response offset shift byte.
  induction n as [|n IH]; intros i response offset shift byte H; simpl;
    [exact H|].
  destruct (shift =? 7); apply IH; [now apply Forall_poke|exact H].
Qed.

Lemma response_io_status_bytes (address nb : Z) (tab response : list Z)
    (offset : Z) :
  Forall is_byte response ->
  Forall is_byte (snd (response_io_status address nb tab response offset)).
Proof.
  intros H. unfold response_io_status.
  pose proof (response_io_status_loop_bytes (Z.to_nat nb) address tab response
                offset 0 0 H) as Hl.
  destruct (response_io_status_loop _ _ _ _ _ _ _) as [[[resp off] shift] byte].
  cbn [fst] in Hl. destruct (shift =? 0); cbn [snd]; [exact Hl|].
  now apply Forall_poke.
Qed.

Lemma read_registers_loop_bytes (n : nat) (i : Z) (tab response : list Z)
    (len : Z) :
  Forall is_byte response ->
  Forall is_byte (snd (read_registers_loop n i tab response len)).
Proof.
  revert i response len. induction n as [|n IH]; intros i response len H; simpl;
    [exact H|].
  apply IH. now repeat apply Forall_poke.
Qed.

Lemma manage_switch_bytes (mb_param : modbus_param_t) (sft : sft_t)
    (query : list Z) (query_length : Z) (mb_mapping : modbus_mapping_t)
    (response : list Z) :
  Forall is_byte response ->
  Forall is_byte
    (snd (fst (manage_switch mb_param sft query query_length mb_mapping response))).
Proof.
  intros H. unfold manage_switch. cbv zeta.
  pose proof (response_exception_bytes mb_param sft ILLEGAL_DATA_ADDRESS response H)
    as He1.
  pose proof (response_exception_bytes mb_param sft ILLEGAL_DATA_VALUE response H)
    as He2.
  pose proof (build_response_basis_bytes mb_param sft response H) as Hb.
  destruct (response_exception mb_param sft ILLEGAL_DATA_ADDRESS response).
  destruct (response_exception mb_param sft ILLEGAL_DATA_VALUE response).
  destruct (build_response_basis mb_param sft response) as [len resp].
  cbn [snd] in He1, He2, Hb.
  repeat match goal with
         | |- context [if ?c then _ else _] => destruct c
         end;
    cbn [fst snd]; try assumption;
    try (apply Forall_memcpy; assumption);
    match goal with
    | |- context [response_io_status ?a ?n ?t ?r ?o] =>
        pose proof (response_io_status_bytes a n t r o
                      (Forall_poke _ _ _ Hb)) as Hr;
        destruct (response_io_status a n t r o); exact Hr
    | |- context [read_registers_loop ?n ?i ?t ?r ?l] =>
        pose proof (read_registers_loop_bytes n i t r l
                      (Forall_poke _ _ _ Hb)) as Hr;
        destruct (read_registers_loop n i t r l); exact Hr
    end.
Qed.

(** Every frame the server sends is made of bytes. *)
Lemma modbus_slave_manage_bytes (E : modbus_h) (mb_param : modbus_param_t)
    (query : list Z) (query_length : Z) (mb_mapping : modbus_mapping_t)
    (response : list Z) (wrote : Z) :
  Forall is_byte response ->
  Forall (Forall is_byte)
    (snd (modbus_slave_manage E mb_param query query_length mb_mapping
            response wrote)).
Proof.
  intros H. unfold modbus_slave_manage.
  destruct (negb _ && negb _); [constructor|].
  destruct (type_com mb_param) eqn:Ht;
    match goal with
    | |- context [manage_switch ?a ?b ?c ?d ?e ?f] =>
        pose proof (manage_switch_bytes a b c d e f H) as Hs;
        destruct (manage_switch a b c d e f) as [[m' resp] len]
    end;
    cbn [fst snd] in Hs;
    pose proof (modbus_send_bytes E mb_param resp len wrote Hs) as Hf;
    destruct (modbus_send E mb_param resp len wrote) as [[r0 q'] frame];
    cbn [snd] in *; repeat constructor; exact Hf.
Qed.

(** [crc16] and [check_crc16] look at the first bytes of the buffer only. *)
Lemma crc16_loop_ext (n : nat) (a b : list Z) (p : Z) (st : Z * Z) :
  (forall i, p <= i < p + Z.of_nat n -> get a i = get b i) ->
  crc16_loop n a p st = crc16_loop n b p st.
Proof.
  revert p st. induction n as [|n IH]; intros p st H; simpl; [reflexivity|].
  rewrite (H p) by lia. apply IH. intros i Hi. apply H. lia.
Qed.

Lemma crc16_ext (a b : list Z) (n : Z) :
  0 <= n -> (forall i, 0 <= i < n -> get a i = get b i) ->
  crc16 a n = crc16 b n.
Proof.
  intros Hn H. unfold crc16.
  rewrite (crc16_loop_ext _ a b); [reflexivity|].
  intros i Hi. apply H.
  pose proof (Z.mod_le n 65536 Hn ltac:(lia)).
  pose proof (Z.mod_pos_bound n 65536 ltac:(lia)).
  unfold uint16 in Hi. lia.
Qed.

Lemma check_crc16_ext (E : modbus_h) (a b : list Z) (n : Z) :
  2 <= n -> (forall i, 0 <= i < n -> get a i = get b i) ->
  check_crc16 E a n = check_crc16 E b n.
Proof.
  intros Hn H. unfold check_crc16.
  rewrite (crc16_ext a b) by (try lia; intros; apply H; lia).
  now rewrite !H by lia.
Qed.

(** The RTU frame of [modbus_send]: the body and its CRC. *)
Lemma modbus_send_rtu_frame (E : modbus_h) (mb_param : modbus_param_t)
    (query : list Z) (query_length wrote : Z) :
  type_com mb_param = RTU -> 0 <= query_length < 65534 ->
  snd (modbus_send E mb_param query query_length wrote)
  = bytes_at query query_length ++ crc16_bytes (bytes_at query query_length).
Proof.
  intros Ht Hlen. unfold modbus_send. rewrite Ht. cbn [snd].
  assert (Hl : Z.of_nat (length (bytes_at query query_length)) = query_length)
    by (rewrite length_bytes_at; lia).
  assert (Hcrc : crc16 query query_length
                 = crc16 (bytes_at query query_length)
                     (Z.of_nat (length (bytes_at query query_length)))).
  { rewrite Hl. apply crc16_ext; [lia|].
    intros i Hi. now rewrite get_bytes_at. }
  apply bytes_at_eq.
  - rewrite length_app, length_bytes_at. unfold crc16_bytes. simpl. lia.
  - intros i Hi. rewrite !get_poke by lia.
    unfold crc16_bytes. rewrite <- Hcrc.
    destruct (Z.eqb_spec i (query_length + 1)) as [->|H1].
    + rewrite get_app_2 by lia. rewrite Hl.
      replace (query_length + 1 - query_length) with 1 by lia. reflexivity.
    + destruct (Z.eqb_spec i query_length) as [->|H0].
      * rewrite get_app_2 by lia. rewrite Hl.
        replace (query_length - query_length) with 0 by lia. reflexivity.
      * rewrite get_app_1 by lia. now rewrite get_bytes_at by lia.
Qed.

(** A frame sent by [modbus_send], once it is stored in the buffer of the
    receiver, is what [receive_msg] delivers with the length of the frame. *)
Lemma modbus_send_delivered (E : modbus_h) (mb_param : modbus_param_t)
    (query : list Z) (query_length wrote : Z) (msg : list Z) :
  Forall is_byte query -> 0 <= query_length < 65534 ->
  let frame := snd (modbus_send E mb_param query query_length wrote) in
  delivered E mb_param (store msg 0 frame) (Z.of_nat (length frame))
  = Z.of_nat (length frame).
Proof.
  intros Hq Hlen frame. unfold delivered.
  destruct (type_com mb_param) eqn:Ht; [|reflexivity].
  pose proof (length_modbus_send E mb_param query query_length wrote ltac:(lia))
    as Hl. rewrite Ht in Hl. simpl in Hl. unfold CHECKSUM_LENGTH_RTU in Hl.
  fold frame in Hl.
  rewrite (check_crc16_ext E _ frame).
  - subst frame. rewrite modbus_send_rtu_frame by (auto; lia).
    rewrite length_app. unfold crc16_bytes at 2. simpl length.
    replace (Z.of_nat (length (bytes_at query query_length) + 2))
      with (Z.of_nat (length (bytes_at query query_length)) + 2) by lia.
    apply check_crc16_accepts.
    + now apply Forall_bytes_at.
    + rewrite length_bytes_at. lia.
  - lia.
  - intros i Hi. rewrite get_store by lia.
    destruct (Z.leb_spec 0 i); [|lia].
    destruct (Z.ltb_spec i (0 + Z.of_nat (length frame))); [|lia].
    simpl. replace (i - 0) with i by lia.
    apply uint8_byte, get_is_byte. subst frame. now apply modbus_send_bytes.
Qed.

(** A frame of the expected length, readable in the pieces [chunks]. *)
Lemma receive_msg_frame (E : modbus_h) (mb_param : modbus_param_t)
    (msg : list Z) (chunks : list (list Z)) (rest : wire) :
  let frame := concat chunks in
  let n := Z.of_nat (length frame) in
  chunks <> [] -> Forall (fun c => c <> []) chunks ->
  n <> MSG_LENGTH_UNDEFINED E -> n < 2 ^ 64 ->
  receive_msg E mb_param n msg (wire_of_chunks chunks ++ rest)
  = Some (delivered E mb_param (store msg 0 frame) n, store msg 0 frame, rest).
Proof.
  intros frame n Hne Hall Hdef Hn. unfold receive_msg.
  destruct (Z.eqb_spec n (MSG_LENGTH_UNDEFINED E)); [contradiction|].
  destruct chunks as [|c chunks]; [congruence|].
  cbn [wire_of_chunks fmap list_fmap app WAIT_DATA]. fold (wire_of_chunks chunks).
  apply Forall_cons in Hall. destruct Hall as [Hc Hall].
  replace n with (n - 0) at 2 by lia.
  apply receive_loop_chunks; auto; try lia.
  - subst n frame. simpl. rewrite length_app. lia.
  - pose proof (wire_weight_chunks chunks rest). simpl.
    fold (wire_of_chunks chunks). lia.
Qed.


Lemma build_query_basis_spec (mb_param : modbus_param_t)
    (function start_addr nb : Z) (query : list Z) (t_id : Z) :
  is_byte (slave mb_param) -> is_byte function ->
  0 <= start_addr < 65536 -> 0 <= nb < 65536 ->
  let offset := TAB_HEADER_LENGTH (type_com mb_param) in
  let r := build_query_basis mb_param function start_addr nb query t_id in
  fst (fst r) = offset + 5 /\
  get (snd (fst r)) (offset - 1) = slave mb_param /\
  get (snd (fst r)) offset = function /\
  address_field mb_param (snd (fst r)) = start_addr /\
  quantity_field mb_param (snd (fst r)) = nb.
Proof.
  intros Hs Hf Ha Hn offset r. subst r offset.
  unfold build_query_basis, build_query_basis_rtu, build_query_basis_tcp,
    address_field, quantity_field.
  destruct (type_com mb_param); cbn [fst snd TAB_HEADER_LENGTH];
    unfold HEADER_LENGTH_RTU, HEADER_LENGTH_TCP, PRESET_QUERY_LENGTH_RTU,
      PRESET_QUERY_LENGTH_TCP;
    rewrite !get_poke by lia; simpl;
    rewrite !(uint8_byte (slave mb_param)), !(uint8_byte function) by assumption;
    repeat split; try reflexivity; now apply split16.
Qed.

(** The buffer [modbus_send] leaves to its caller: the CRC or the MBAP
    length is written into it, the rest is as before. *)
Lemma modbus_send_buffer (E : modbus_h) (mb_param : modbus_param_t)
    (query : list Z) (query_length wrote i : Z) :
  0 <= query_length -> i < query_length ->
  (type_com mb_param = TCP -> i <> 4 /\ i <> 5) ->
  get (snd (fst (modbus_send E mb_param query query_length wrote))) i
  = get query i.
Proof.
  intros Hl Hi Ht. unfold modbus_send, set_message_length_tcp.
  destruct (type_com mb_param); cbn [fst snd]; rewrite !get_poke by lia.
  - destruct (Z.eqb_spec i (query_length + 1)); [lia|].
    destruct (Z.eqb_spec i query_length); [lia|]. reflexivity.
  - destruct (Ht eq_refl) as [H4 H5].
    destruct (Z.eqb_spec i 5); [lia|].
    destruct (Z.eqb_spec i 4); [lia|]. reflexivity.
Qed.

Lemma modbus_send_ret (E : modbus_h) (mb_param : modbus_param_t)
    (query : list Z) (query_length : Z) :
  0 <= query_length ->
  let wrote :=
    Z.of_nat (length (snd (modbus_send E mb_param query query_length 0))) in
  fst (fst (modbus_send E mb_param query query_length wrote)) = wrote /\
  snd (modbus_send E mb_param query query_length wrote)
  = snd (modbus_send E mb_param query query_length 0) /\
  snd (fst (modbus_send E mb_param query query_length wrote))
  = snd (fst (modbus_send E mb_param query query_length 0)).
Proof.
  intros Hl wrote.
  pose proof (length_modbus_send E mb_param query query_length 0 Hl) as Hw.
  fold wrote in Hw. clearbody wrote.
  unfold modbus_send. destruct (type_com mb_param);
    cbn [fst snd TAB_CHECKSUM_LENGTH] in *;
    unfold CHECKSUM_LENGTH_RTU, CHECKSUM_LENGTH_TCP in Hw.
  - destruct (Z.eqb_spec wrote (-1)); [lia|].
    destruct (Z.eqb_spec wrote (query_length + 2)); [|lia]. auto.
  - destruct (Z.eqb_spec wrote (-1)); [lia|].
    destruct (Z.eqb_spec wrote query_length); [|lia]. auto.
Qed.

Lemma compute_response_length_ext (E : modbus_h) (mb_param : modbus_param_t)
    (a b : list Z) (data_type : Z) :
  (forall i, TAB_HEADER_LENGTH (type_com mb_param) <= i
             <= TAB_HEADER_LENGTH (type_com mb_param) + 4 ->
             get a i = get b i) ->
  compute_response_length E mb_param a data_type
  = compute_response_length E mb_param b data_type.
Proof.
  intros H. unfold compute_response_length. cbv zeta.
  now rewrite !H by lia.
Qed.

(** The frame a client sends for a request. *)
Lemma request_frame_spec (E : modbus_h) (mb_param : modbus_param_t)
    (function start_addr nb t_id : Z) :
  is_byte (slave mb_param) -> is_byte function ->
  0 <= start_addr < 65536 -> 0 <= nb < 65536 ->
  let offset := TAB_HEADER_LENGTH (type_com mb_param) in
  let request := request_frame E mb_param function start_addr nb t_id in
  Forall is_byte request /\
  Z.of_nat (length request) = offset + 5 + TAB_CHECKSUM_LENGTH (type_com mb_param) /\
  addressed mb_param request /\
  get request offset = function /\
  address_field mb_param request = start_addr /\
  quantity_field mb_param request = nb.
Proof.
  intros Hs Hf Ha Hn offset request.
  destruct (build_query_basis_spec mb_param function start_addr nb [] t_id
              Hs Hf Ha Hn) as (H1 & H2 & H3 & H4 & H5).
  cbv zeta in H1, H2, H3, H4, H5. fold offset in H1, H2, H3.
  pose proof (build_query_basis_bytes mb_param function start_addr nb [] t_id
                ltac:(constructor)) as Hb.
  subst request. unfold request_frame.
  destruct (build_query_basis mb_param function start_addr nb [] t_id)
    as [[ql q] t']. cbn [fst snd] in *. subst ql.
  assert (Hoff : offset = 1 /\ type_com mb_param = RTU \/
                 offset = 7 /\ type_com mb_param = TCP)
    by (subst offset; destruct (type_com mb_param); auto).
  assert (Hget : forall i, offset - 1 <= i < offset + 5 ->
            get (snd (modbus_send E mb_param q (offset + 5) 0)) i = get q i).
  { intros i Hi. apply modbus_send_frame; [lia|].
    intros Ht. destruct Hoff as [[Ho Ht']|[Ho _]]; [congruence|lia]. }
  split; [now apply modbus_send_bytes|].
  split; [apply length_modbus_send; lia|].
  split; [left; fold offset; rewrite Hget by lia; exact H2|].
  split; [rewrite Hget by lia; exact H3|].
  unfold address_field, quantity_field in *. fold offset in H4, H5 |- *.
  rewrite !Hget by lia. auto.
Qed.

(** A frame of the server, once stored in the buffer of the client, is
    delivered by [receive_msg] with its length: in RTU mode its CRC is
    right. *)
Lemma modbus_slave_manage_delivered (E : modbus_h) (mb_param : modbus_param_t)
    (query : list Z) (query_length : Z) (mb_mapping : modbus_mapping_t)
    (response : list Z) (wrote : Z) (frame msg : list Z) :
  Forall is_byte response ->
  snd (modbus_slave_manage E mb_param query query_length mb_mapping response wrote)
  = [frame] ->
  2 <= Z.of_nat (length frame) < 65536 ->
  delivered E mb_param (store msg 0 frame) (Z.of_nat (length frame))
  = Z.of_nat (length frame).
Proof.
  intros Hr Hf Hlen. unfold modbus_slave_manage in Hf.
  destruct (negb _ && negb _); [discriminate|].
  assert (Hsend : exists resp len,
            Forall is_byte resp /\
            frame = snd (modbus_send E mb_param resp len wrote)).
  { destruct (type_com mb_param);
      match type of Hf with
      | context [manage_switch ?a ?b ?c ?d ?e ?f] =>
          pose proof (manage_switch_bytes a b c d e f Hr) as Hs;
          destruct (manage_switch a b c d e f) as [[m' resp] len]
      end;
      cbn [fst snd] in Hs; exists resp, len; split; [exact Hs| |exact Hs|];
      destruct (modbus_send _ mb_param resp len wrote) as [[r0 q'] fr];
      cbn [snd] in *; congruence. }
  destruct Hsend as (resp & len & Hb & ->).
  destruct (type_com mb_param) eqn:Ht.
  - assert (Hl : 0 <= len < 65534).
    { unfold modbus_send in Hlen. rewrite Ht in Hlen. cbn [snd] in Hlen.
      rewrite length_bytes_at in Hlen. lia. }
    now apply modbus_send_delivered.
  - unfold delivered. now rewrite Ht.
Qed.

Lemma get_decode_loop (n : nat) (i data_type : Z) (response : list Z)
    (offset : Z) (data_dest : list Z) (k : Z) :
  0 <= i -> i + Z.of_nat n <= Z.of_nat (length data_dest) ->
  get (decode_loop n i data_type response offset data_dest) k =
  if (i <=? k) && (k <? i + Z.of_nat n)
  then decode_switch data_type response offset k
  else get data_dest k.
Proof.
  revert i data_dest. induction n as [|n IH]; intros i data_dest Hi Hlen.
  - simpl. destruct (Z.leb_spec i k), (Z.ltb_spec k (i + Z.of_nat 0));
      simpl; try lia; reflexivity.
  - cbn [decode_loop].
    rewrite IH by (rewrite ?length_tab_set; lia).
    rewrite get_tab_set by lia.
    destruct (Z.leb_spec (i + 1) k), (Z.ltb_spec k (i + 1 + Z.of_nat n)),
      (Z.leb_spec i k), (Z.ltb_spec k (i + Z.of_nat (S n))),
      (Z.eqb_spec k i); simpl; try lia; try reflexivity.
    now subst k.
Qed.


Lemma get_store_frame (msg frame : list Z) (k : Z) :
  Forall is_byte frame -> 0 <= k < Z.of_nat (length frame) ->
  get (store msg 0 frame) k = get frame k.
Proof.
  intros Hf Hk. rewrite get_store by lia.
  destruct (Z.leb_spec 0 k); [|lia].
  destruct (Z.ltb_spec k (0 + Z.of_nat (length frame))); [|lia].
  simpl. replace (k - 0) with k by lia.
  now apply uint8_byte, get_is_byte.
Qed.

(** The client after [modbus_send]: when the reply of the server has the
    length the client computes from its request and comes in on the line,
    [receive_msg] delivers it whole. *)
Lemma client_receive (E : modbus_h) (mb_param : modbus_param_t)
    (q : list Z) (ql : Z) (response : list Z) (data_type : Z)
    (chunks : list (list Z)) (rest : wire) (reply : list Z)
    (squery : list Z) (sql : Z) (mb_mapping : modbus_mapping_t)
    (sresponse : list Z) (swrote : Z) :
  let offset := TAB_HEADER_LENGTH (type_com mb_param) in
  let request := snd (modbus_send E mb_param q ql 0) in
  let q2 := snd (fst (modbus_send E mb_param q ql (Z.of_nat (length request)))) in
  offset + 5 <= ql ->
  Forall is_byte sresponse -> MSG_LENGTH_UNDEFINED E < 0 ->
  snd (modbus_slave_manage E mb_param squery sql mb_mapping sresponse swrote)
  = [reply] ->
  Z.of_nat (length reply) = compute_response_length E mb_param request data_type ->
  2 <= Z.of_nat (length reply) < 65536 ->
  chunks <> [] -> Forall (fun c => c <> []) chunks -> concat chunks = reply ->
  receive_msg E mb_param (compute_response_length E mb_param q2 data_type)
    response (wire_of_chunks chunks ++ rest)
  = Some (Z.of_nat (length reply), store response 0 reply, rest) /\
  (forall k, 0 <= k < Z.of_nat (length reply) ->
     get (store response 0 reply) k = get reply k) /\
  (forall i, offset <= i <= offset + 4 -> get q2 i = get request i).
Proof.
  intros offset request q2 Hql Hsr Hmlu Hm Hlen Hrange Hne Hall Hcat.
  assert (Hoff : offset = 1 /\ type_com mb_param = RTU \/
                 offset = 7 /\ type_com mb_param = TCP)
    by (subst offset; destruct (type_com mb_param); auto).
  assert (Hq2 : forall i, offset <= i <= offset + 4 -> get q2 i = get request i).
  { intros i Hi. subst q2 request.
    rewrite modbus_send_buffer, modbus_send_frame;
      first [reflexivity | lia
            | intros Ht; destruct Hoff as [[Ho Ht']|[Ho _]]; [congruence|lia]]. }
  assert (Hbytes : Forall is_byte reply).
  { pose proof (modbus_slave_manage_bytes E mb_param squery sql mb_mapping
                  sresponse swrote Hsr) as Hb.
    rewrite Hm in Hb. now apply Forall_inv in Hb. }
  split; [|split; [|exact Hq2]].
  - rewrite (compute_response_length_ext E mb_param q2 request)
      by (intros; apply Hq2; fold offset; lia).
    rewrite <- Hlen.
    pose proof (modbus_slave_manage_delivered E mb_param squery sql mb_mapping
                  sresponse swrote reply response Hsr Hm Hrange) as Hd.
    subst reply.
    rewrite receive_msg_frame by (auto; lia).
    now rewrite Hd.
  - intros k Hk. now apply get_store_frame.
Qed.

Lemma compute_response_length_registers (E : modbus_h)
    (mb_param : modbus_param_t) (query : list Z) :
  let offset := TAB_HEADER_LENGTH (type_com mb_param) in
  Forall is_byte query ->
  get query offset = 0x03 \/ get query offset = 0x04 ->
  compute_response_length E mb_param query UINT16
  = offset + 2 + 2 * quantity_field mb_param query
    + TAB_CHECKSUM_LENGTH (type_com mb_param).
Proof.
  intros offset Hq Hfc. unfold compute_response_length. cbv zeta.
  rewrite (quantity_field_or mb_param query Hq). fold offset.
  destruct Hfc as [Hfc|Hfc]; rewrite Hfc; simpl; lia.
Qed.

(** What [read_registers] stores for the data type UINT16. *)
Lemma decode_switch_uint16 (response : list Z) (offset i : Z) :
  is_byte (get response (offset + 2 + 2 * i)) ->
  is_byte (get response (offset + 3 + 2 * i)) -> 0 <= i ->
  decode_switch UINT16 response offset i
  = get response (offset + 2 + 2 * i) * 256 + get response (offset + 3 + 2 * i).
Proof.
  intros Hhi Hlo Hi. unfold decode_switch, UINT16, decode16_unsigned.
  rewrite !(Z.shiftl_mul_pow2 i 1) by lia. change (2 ^ 1) with 2.
  replace (i * 2) with (2 * i) by lia.
  fold (word_or (get response (offset + 2 + 2 * i))
                (get response (offset + 3 + 2 * i))).
  rewrite word_or_add by assumption. rewrite word_add_eq.
  unfold is_byte in *. unfold uint32, uint16.
  rewrite (Z.mod_small _ 65536) by lia. apply Z.mod_small. lia.
Qed.


(** X18: a client reads holding registers from a server.  The request of
    [read_holding_registers] (data type UINT16), handled by
    [modbus_slave_manage] on a well-formed map that holds the registers
    asked for, leaves the map as it is; and when the reply of the server
    comes in on the line of the client, in whatever pieces, the client
    returns [nb] and [data_dest[i]] is the register [start_addr + i] of the
    server for every [i < nb], the rest of [data_dest] and of the line being
    untouched. *)
Theorem read_holding_registers_served (E : modbus_h) (mb_param : modbus_param_t)
    (mb_mapping : modbus_mapping_t) (start_addr nb : Z) (data_dest : list Z)
    (t_id : Z) (response : list Z) (junk : Z)
    (sresponse : list Z) (swrote : Z)
    (chunks : list (list Z)) (rest : wire) :
  let request :=
    request_frame E mb_param FC_READ_HOLDING_REGISTERS start_addr nb t_id in
  let served :=
    modbus_slave_manage E mb_param request (Z.of_nat (length request))
      mb_mapping sresponse swrote in
  MSG_LENGTH_UNDEFINED E < 0 ->
  is_byte (slave mb_param) ->
  mapping_ok mb_mapping ->
  0 <= start_addr < 65536 -> 0 < nb <= MAX_REGISTERS ->
  start_addr + nb <= nb_holding_registers mb_mapping ->
  nb <= Z.of_nat (length data_dest) ->
  Forall is_byte sresponse ->
  chunks <> [] -> Forall (fun c => c <> []) chunks ->
  concat chunks = concat (snd served) ->
  fst served = mb_mapping /\
  exists data_dest' t_id',
    read_holding_registers E mb_param start_addr nb data_dest UINT16 t_id
      (Z.of_nat (length request)) response junk (wire_of_chunks chunks ++ rest)
    = Some (nb, data_dest', t_id', rest) /\
    (forall i, 0 <= i < nb ->
       get data_dest' i = get (tab_holding_registers mb_mapping) (start_addr + i)) /\
    (forall i, nb <= i -> get data_dest' i = get data_dest i).
Proof.
  intros request served Hmlu Hs Hok Hstart Hnb Hin Hdest Hsr Hne Hall Hcat.
  set (offset := TAB_HEADER_LENGTH (type_com mb_param)).
  assert (Hoff : offset = 1 /\ TAB_CHECKSUM_LENGTH (type_com mb_param) = 2 \/
                 offset = 7 /\ TAB_CHECKSUM_LENGTH (type_com mb_param) = 0)
    by (subst offset; destruct (type_com mb_param); auto).
  unfold MAX_REGISTERS in Hnb.
  destruct (request_frame_spec E mb_param FC_READ_HOLDING_REGISTERS start_addr nb
              t_id Hs ltac:(unfold is_byte, FC_READ_HOLDING_REGISTERS; lia)
              Hstart ltac:(lia)) as (Rb & Rl & Ra & Rf & Raddr & Rq).
  fold request offset in Rb, Rl, Ra, Rf, Raddr, Rq.
  pose proof Hok as (L1 & L2 & L3 & L4 & _).
  destruct (modbus_slave_manage_read_registers_reply E mb_param request
              (Z.of_nat (length request)) mb_mapping sresponse swrote Rb Ra)
    as (reply & Hm & Hlen & Hfc & Hbc & Hdata).
  { left. exact Rf. }
  { exact Hok. }
  { fold offset. rewrite Rf, Raddr, Rq. unfold target_registers. simpl. lia. }
  { rewrite Rq. unfold MAX_REGISTERS. lia. }
  fold offset in Hfc, Hbc, Hdata. rewrite Rf in Hfc, Hdata.
  rewrite Raddr in Hdata. rewrite Rq in Hbc, Hdata.
  fold served in Hm. rewrite Hm in Hcat |- *. cbn [fst snd concat] in Hcat |- *.
  rewrite app_nil_r in Hcat.
  split; [reflexivity|].
  fold offset in Hlen. rewrite Rq in Hlen. pose proof Hlen as Hlen'.
  pose proof (compute_response_length_registers E mb_param request Rb
                (or_introl Rf)) as Hcrl.
  cbv zeta in Hcrl. fold offset in Hcrl. rewrite Rq, <- Hlen in Hcrl.
  clear Hlen. assert (Hlen := eq_sym Hcrl). clear Hcrl.
  assert (Hreply : Forall is_byte reply).
  { pose proof (modbus_slave_manage_bytes E mb_param request
                  (Z.of_nat (length request)) mb_mapping sresponse swrote Hsr) as Hb.
    fold served in Hb. rewrite Hm in Hb. now apply Forall_inv in Hb. }
  assert (Hm' : snd served = [reply]) by now rewrite Hm.
  unfold read_holding_registers, read_registers.
  unfold MAX_REGISTERS. destruct (Z.ltb_spec 125 nb); [lia|].
  destruct (build_query_basis_spec mb_param FC_READ_HOLDING_REGISTERS start_addr nb
              [] t_id Hs ltac:(unfold is_byte, FC_READ_HOLDING_REGISTERS; lia)
              Hstart ltac:(lia)) as (Hql & _).
  fold offset in Hql.
  subst served request. unfold request_frame in *.
  destruct (build_query_basis mb_param FC_READ_HOLDING_REGISTERS start_addr nb
              [] t_id) as [[ql q] t']. cbn [fst snd] in Hql. subst ql.
  destruct (modbus_send_ret E mb_param q (offset + 5) ltac:(lia))
    as (Hret & Hfr & Hbuf).
  destruct (client_receive E mb_param q (offset + 5) response UINT16 chunks rest
              reply _ _ _ _ _ ltac:(fold offset; lia) Hsr Hmlu Hm' Hlen
              ltac:(lia) Hne Hall Hcat) as (Hrcv & Hstore & Hq2).
  fold offset in Hq2.
  destruct (modbus_send E mb_param q (offset + 5)
              (Z.of_nat (length (snd (modbus_send E mb_param q (offset + 5) 0)))))
    as [[ret q2] fr]. cbn [fst snd] in *. subst ret.
  destruct (Z.ltb_spec 0
              (Z.of_nat (length (snd (modbus_send E mb_param q (offset + 5) 0)))));
    [|lia].
  unfold modbus_receive. cbv zeta. fold offset. rewrite Hrcv.
  destruct (Z.leb_spec 0 (Z.of_nat (length reply))); [|lia].
  rewrite !Hstore by lia. rewrite Hfc, Hbc.
  change (FC_READ_HOLDING_REGISTERS =? FC_READ_COIL_STATUS) with false.
  change (FC_READ_HOLDING_REGISTERS =? FC_READ_INPUT_STATUS) with false.
  change (FC_READ_HOLDING_REGISTERS =? FC_READ_HOLDING_REGISTERS) with true.
  cbn [orb UINT16].
  rewrite !Hq2 by lia. rewrite word_add_eq.
  unfold quantity_field in Rq. fold offset in Rq. rewrite Rq.
  replace (Z.quot (2 * nb) 2) with nb
    by (rewrite Z.quot_div_nonneg by lia; apply Z.div_unique with 0; lia).
  rewrite Z.eqb_refl.
  eexists _, _. split; [reflexivity|]. split.
  - intros i Hi. rewrite get_decode_loop by lia.
    destruct (Z.leb_spec 0 i); [|lia].
    destruct (Z.ltb_spec i (0 + Z.of_nat (Z.to_nat nb))); [|lia].
    cbn [andb].
    rewrite decode_switch_uint16;
      rewrite ?Hstore by lia; try apply get_is_byte; try assumption; try lia.
    apply Hdata. lia.
  - intros i Hi. rewrite get_decode_loop by lia.
    destruct (Z.leb_spec 0 i), (Z.ltb_spec i (0 + Z.of_nat (Z.to_nat nb)));
      try lia; reflexivity.
Qed.

Lemma read_holding_registers_served_witness :
  let mb_param := {| type_com := RTU; slave := 1 |} in
  let mb_mapping :=
    set_tab_holding_registers (snd (modbus_mapping_new 0 0 3 0))
      [0x1111; 0x1234; 0xABCD] in
  let request :=
    request_frame libmodbus_h mb_param FC_READ_HOLDING_REGISTERS 1 2 0 in
  let served :=
    modbus_slave_manage libmodbus_h mb_param request (Z.of_nat (length request))
      mb_mapping [] 9 in
  fst served = mb_mapping /\
  exists data_dest' t_id',
    read_holding_registers libmodbus_h mb_param 1 2 [7; 7; 7] UINT16 0
      (Z.of_nat (length request)) [] 0
      (wire_of_chunks [[0x01; 0x03; 0x04; 0x12]; [0x34; 0xAB; 0xCD; 0x00; 0x20]]
       ++ [Silence])
    = Some (2, data_dest', t_id', [Silence]) /\
    (forall i, 0 <= i < 2 ->
       get data_dest' i = get (tab_holding_registers mb_mapping) (1 + i)) /\
    (forall i, 2 <= i -> get data_dest' i = get [7; 7; 7] i).
Proof.
  intros mb_param mb_mapping request served.
  apply (read_holding_registers_served libmodbus_h mb_param mb_mapping 1 2
           [7; 7; 7] 0 [] 0 [] 9
           [[0x01; 0x03; 0x04; 0x12]; [0x34; 0xAB; 0xCD; 0x00; 0x20]] [Silence]).
  - reflexivity.
  - unfold is_byte. simpl. lia.
  - unfold mapping_ok. simpl.
    repeat split; repeat constructor; unfold is_word; lia.
  - lia.
  - unfold MAX_REGISTERS. lia.
  - simpl. lia.
  - simpl. lia.
  - constructor.
  - discriminate.
  - repeat constructor; discriminate.
  - vm_compute. reflexivity.
Defined.


(** ** Reading bits *)

Lemma bit_in_byte (s : Z) :
  0 <= s <= 8 -> (Z.land (Z.shiftl 1 s) 0xff =? 0) = (s =? 8).
Proof.
  intros Hs. rewrite Z.land_comm, land_bit by lia.
  assert (H : s = 0 \/ s = 1 \/ s = 2 \/ s = 3 \/ s = 4 \/ s = 5 \/ s = 6 \/
              s = 7 \/ s = 8) by lia.
  repeat (destruct H as [->|H]; [reflexivity|]). subst s. reflexivity.
Qed.

(** The inner loop of [read_io_status], entered with [bit = 1 << s]: it
    stores the bits [s ..] of [temp] from [pos] on, up to bit 7 and up to
    [nb] values. *)
Lemma read_io_bits_spec (fuel : nat) (s temp pos nb : Z) (dest : list Z) :
  0 <= s <= 8 -> 9 - s <= Z.of_nat fuel -> 0 <= pos ->
  nb <= Z.of_nat (length dest) ->
  let r := read_io_bits fuel (Z.shiftl 1 s) temp pos nb dest in
  let m := Z.min (8 - s) (Z.max 0 (nb - pos)) in
  fst r = pos + m /\ length (snd r) = length dest /\
  (forall k, get (snd r) k =
     if (pos <=? k) && (k <? pos + m)
     then if Z.testbit temp (s + (k - pos)) then TRUE else FALSE
     else get dest k).
Proof.
  revert s pos dest. induction fuel as [|fuel IH]; intros s pos dest Hs Hf Hp Hl;
    [simpl in Hf; lia|].
  cbn [read_io_bits]. rewrite bit_in_byte by lia.
  destruct (Z.eqb_spec s 8) as [->|Hs8]; cbn [negb andb].
  - cbv zeta. cbn [fst snd]. split; [lia|]. split; [reflexivity|].
    intros k.
    destruct (Z.leb_spec pos k),
      (Z.ltb_spec k (pos + Z.min (8 - 8) (Z.max 0 (nb - pos))));
      simpl; try lia; reflexivity.
  - destruct (Z.ltb_spec pos nb) as [Hlt|Hge].
    + rewrite Z.shiftl_shiftl by lia.
      specialize (IH (s + 1) (pos + 1)
                    (tab_set dest pos
                       (if Z.land temp (Z.shiftl 1 s) =? 0 then FALSE else TRUE))
                    ltac:(lia) ltac:(lia) ltac:(lia)
                    ltac:(rewrite length_tab_set; lia)).
      cbv zeta in IH |- *. destruct IH as (H1 & H2 & H3).
      split; [lia|]. split; [now rewrite H2, length_tab_set|].
      intros k. rewrite H3. rewrite get_tab_set by lia. rewrite land_bit by lia.
      destruct (Z.leb_spec (pos + 1) k),
        (Z.ltb_spec k (pos + 1 + Z.min (8 - (s + 1)) (Z.max 0 (nb - (pos + 1))))),
        (Z.leb_spec pos k),
        (Z.ltb_spec k (pos + Z.min (8 - s) (Z.max 0 (nb - pos)))),
        (Z.eqb_spec k pos); simpl; try lia; try reflexivity.
      * replace (s + 1 + (k - (pos + 1))) with (s + (k - pos)) by lia.
        reflexivity.
      * subst k. replace (s + (pos - pos)) with s by lia.
        now destruct (Z.testbit temp s).
    + cbv zeta. cbn [fst snd]. split; [lia|]. split; [reflexivity|].
      intros k.
      destruct (Z.leb_spec pos k),
        (Z.ltb_spec k (pos + Z.min (8 - s) (Z.max 0 (nb - pos))));
        simpl; try lia; reflexivity.
Qed.

(** The loops of [read_io_status]: the value [pos + 8 * j + b] is the bit
    [b] of the data byte [j]. *)
Lemma read_io_bytes_spec (n : nat) (i : Z) (response : list Z) (pos nb : Z)
    (dest : list Z) :
  0 <= pos -> nb <= Z.of_nat (length dest) ->
  let r := snd (read_io_bytes n i response pos nb dest) in
  (forall j b, 0 <= j < Z.of_nat n -> 0 <= b < 8 -> pos + 8 * j + b < nb ->
     get r (pos + 8 * j + b)
     = if Z.testbit (get response (i + 2 + j)) b then TRUE else FALSE) /\
  (forall k, k < pos \/ nb <= k \/ pos + 8 * Z.of_nat n <= k ->
     get r k = get dest k).
Proof.
  revert i pos dest. induction n as [|n IH]; intros i pos dest Hp Hl.
  - cbv zeta. simpl. split; [intros; lia|reflexivity].
  - cbn [read_io_bytes].
    destruct (read_io_bits_spec 9 0 (get response (i + 2)) pos nb dest
                ltac:(lia) ltac:(simpl; lia) Hp Hl) as (H1 & H2 & H3).
    cbv zeta in H1, H2, H3. change (Z.shiftl 1 0) with 1 in H1, H2, H3.
    destruct (read_io_bits 9 1 (get response (i + 2)) pos nb dest)
      as [pos' dest']. cbn [fst snd] in H1, H2, H3.
    specialize (IH (i + 1) pos' dest' ltac:(lia) ltac:(lia)).
    cbv zeta in IH |- *. destruct IH as [I1 I2].
    split.
    + intros j b Hj Hb Hlt. destruct (Z.eq_dec j 0) as [->|Hj0].
      * rewrite I2 by lia. rewrite H3.
        destruct (Z.leb_spec pos (pos + 8 * 0 + b)); [|lia].
        destruct (Z.ltb_spec (pos + 8 * 0 + b)
                    (pos + Z.min (8 - 0) (Z.max 0 (nb - pos)))); [|lia].
        cbn [andb]. replace (0 + (pos + 8 * 0 + b - pos)) with b by lia.
        now replace (i + 2 + 0) with (i + 2) by lia.
      * assert (Hp' : pos' = pos + 8) by lia.
        replace (pos + 8 * j + b) with (pos' + 8 * (j - 1) + b) by lia.
        rewrite I1 by lia.
        now replace (i + 1 + 2 + (j - 1)) with (i + 2 + j) by lia.
    + intros k Hk. rewrite I2 by lia. rewrite H3.
      destruct (Z.leb_spec pos k),
        (Z.ltb_spec k (pos + Z.min (8 - 0) (Z.max 0 (nb - pos))));
        simpl; try lia; reflexivity.
Qed.

Lemma compute_response_length_status (E : modbus_h)
    (mb_param : modbus_param_t) (query : list Z) :
  let offset := TAB_HEADER_LENGTH (type_com mb_param) in
  Forall is_byte query ->
  get query offset = 0x01 \/ get query offset = 0x02 ->
  compute_response_length E mb_param query UINT16
  = offset + 2 + ceil_div8 (quantity_field mb_param query)
    + TAB_CHECKSUM_LENGTH (type_com mb_param).
Proof.
  intros offset Hq Hfc. unfold compute_response_length. cbv zeta.
  rewrite (quantity_field_or mb_param query Hq). fold offset.
  pose proof (quantity_field_nonneg mb_param query Hq) as Hn.
  pose proof (byte_count_ceil _ (proj1 Hn)) as Hc. unfold byte_count in Hc.
  destruct (Z.rem (quantity_field mb_param query) 8 =? 0);
    (destruct Hfc as [Hfc|Hfc]; rewrite Hfc;
     [change (1 =? FC_READ_COIL_STATUS) with true
     |change (2 =? FC_READ_COIL_STATUS) with false;
      change (2 =? FC_READ_INPUT_STATUS) with true];
     cbn [orb]; lia).
Qed.


Lemma ceil_div8_bounds (nb : Z) :
  0 <= nb -> 8 * ceil_div8 nb - 8 < nb <= 8 * ceil_div8 nb.
Proof.
  intros Hnb. unfold ceil_div8.
  pose proof (Z.mul_succ_div_gt (nb + 7) 8 ltac:(lia)).
  pose proof (Z.mul_div_le (nb + 7) 8 ltac:(lia)). lia.
Qed.

(** A read of bits, from the request of the client to the values it
    stores. *)
Lemma read_io_status_served (E : modbus_h) (mb_param : modbus_param_t)
    (mb_mapping : modbus_mapping_t) (fc start_addr nb : Z) (data_dest : list Z)
    (t_id : Z) (response : list Z) (junk : Z)
    (sresponse : list Z) (swrote : Z)
    (chunks : list (list Z)) (rest : wire) :
  let request := request_frame E mb_param fc start_addr nb t_id in
  let served :=
    modbus_slave_manage E mb_param request (Z.of_nat (length request))
      mb_mapping sresponse swrote in
  MSG_LENGTH_UNDEFINED E < 0 ->
  is_byte (slave mb_param) ->
  mapping_ok mb_mapping ->
  fc = 0x01 \/ fc = 0x02 ->
  0 <= start_addr < 65536 -> 0 < nb <= MAX_STATUS ->
  start_addr + nb <= Z.of_nat (length (target_status mb_mapping fc)) ->
  nb <= Z.of_nat (length data_dest) ->
  Forall is_byte sresponse ->
  chunks <> [] -> Forall (fun c => c <> []) chunks ->
  concat chunks = concat (snd served) ->
  fst served = mb_mapping /\
  exists data_dest' t_id',
    read_io_status E mb_param fc start_addr nb data_dest t_id
      (Z.of_nat (length request)) response junk (wire_of_chunks chunks ++ rest)
    = Some (ceil_div8 nb, data_dest', t_id', rest) /\
    (forall i, 0 <= i < nb ->
       get data_dest' i = get (target_status mb_mapping fc) (start_addr + i)) /\
    (forall i, nb <= i -> get data_dest' i = get data_dest i).
Proof.
  intros request served Hmlu Hs Hok Hfc Hstart Hnb Hin Hdest Hsr Hne Hall Hcat.
  set (offset := TAB_HEADER_LENGTH (type_com mb_param)).
  assert (Hoff : offset = 1 /\ TAB_CHECKSUM_LENGTH (type_com mb_param) = 2 \/
                 offset = 7 /\ TAB_CHECKSUM_LENGTH (type_com mb_param) = 0)
    by (subst offset; destruct (type_com mb_param); auto).
  unfold MAX_STATUS in Hnb.
  assert (Hfb : is_byte fc) by (destruct Hfc as [-> | ->]; unfold is_byte; lia).
  destruct (request_frame_spec E mb_param fc start_addr nb t_id Hs Hfb
              Hstart ltac:(lia)) as (Rb & Rl & Ra & Rf & Raddr & Rq).
  fold request offset in Rb, Rl, Ra, Rf, Raddr, Rq.
  destruct (modbus_slave_manage_read_status_reply E mb_param request
              (Z.of_nat (length request)) mb_mapping sresponse swrote Rb Ra)
    as (reply & Hm & Hlen & Hf & Hbc & Hdata).
  { fold offset. rewrite Rf. exact Hfc. }
  { exact Hok. }
  { fold offset. rewrite Rf, Raddr, Rq. exact Hin. }
  { rewrite Rq. unfold MAX_STATUS. lia. }
  fold offset in Hlen, Hf, Hbc, Hdata. rewrite Rf in Hf, Hdata.
  rewrite Raddr in Hdata. rewrite Rq in Hlen, Hbc, Hdata.
  fold served in Hm. rewrite Hm in Hcat |- *. cbn [fst snd concat] in Hcat |- *.
  rewrite app_nil_r in Hcat.
  split; [reflexivity|].
  pose proof (ceil_div8_bounds nb ltac:(lia)) as Hceil.
  assert (Hbits : Forall is_bit (target_status mb_mapping fc)).
  { destruct Hok as (_ & _ & _ & _ & F1 & F2 & _).
    destruct Hfc as [-> | ->]; unfold target_status; simpl; assumption. }
  pose proof Hlen as Hlen'.
  pose proof (compute_response_length_status E mb_param request Rb) as Hcrl.
  cbv zeta in Hcrl. fold offset in Hcrl. rewrite Rf, Rq, <- Hlen in Hcrl.
  specialize (Hcrl Hfc).
  clear Hlen. assert (Hlen := eq_sym Hcrl). clear Hcrl.
  assert (Hm' : snd served = [reply]) by now rewrite Hm.
  unfold read_io_status.
  destruct (build_query_basis_spec mb_param fc start_addr nb
              [] t_id Hs Hfb Hstart ltac:(lia)) as (Hql & _).
  fold offset in Hql.
  subst served request. unfold request_frame in *.
  destruct (build_query_basis mb_param fc start_addr nb [] t_id)
    as [[ql q] t']. cbn [fst snd] in Hql. subst ql.
  destruct (modbus_send_ret E mb_param q (offset + 5) ltac:(lia))
    as (Hret & Hfr & Hbuf).
  destruct (client_receive E mb_param q (offset + 5) response UINT16 chunks rest
              reply _ _ _ _ _ ltac:(fold offset; lia) Hsr Hmlu Hm' Hlen
              ltac:(lia) Hne Hall Hcat) as (Hrcv & Hstore & Hq2).
  fold offset in Hq2.
  destruct (modbus_send E mb_param q (offset + 5)
              (Z.of_nat (length (snd (modbus_send E mb_param q (offset + 5) 0)))))
    as [[ret q2] fr]. cbn [fst snd] in *. subst ret.
  destruct (Z.ltb_spec 0
              (Z.of_nat (length (snd (modbus_send E mb_param q (offset + 5) 0)))));
    [|lia].
  unfold modbus_receive. cbv zeta. fold offset. rewrite Hrcv.
  destruct (Z.leb_spec 0 (Z.of_nat (length reply))); [|lia].
  rewrite !Hstore by lia. rewrite Hf, Hbc.
  replace ((fc =? FC_READ_COIL_STATUS) || (fc =? FC_READ_INPUT_STATUS)) with true
    by (destruct Hfc as [-> | ->]; reflexivity).
  rewrite !Hq2 by lia. rewrite word_add_eq.
  unfold quantity_field in Rq. fold offset in Rq. rewrite Rq.
  fold (byte_count nb). rewrite byte_count_ceil by lia.
  rewrite Z.eqb_refl.
  destruct (Z.ltb_spec (ceil_div8 nb) 0); [lia|].
  eexists _, _. split; [reflexivity|].
  destruct (read_io_bytes_spec (Z.to_nat (ceil_div8 nb)) offset
              (store response 0 reply) 0 nb data_dest ltac:(lia) Hdest)
    as [Hval Hout].
  cbv zeta in Hval, Hout. split.
  - intros i Hi.
    pose proof (Z.div_mod i 8 ltac:(lia)) as Hdm.
    pose proof (Z.mod_pos_bound i 8 ltac:(lia)) as Hmb.
    assert (Hj : 0 <= i / 8) by (apply Z.div_pos; lia).
    replace i with (0 + 8 * (i / 8) + i mod 8) at 1 by lia.
    rewrite Hval by lia. rewrite Hstore by lia.
    rewrite Hdata by lia.
    replace (8 * (i / 8) + i mod 8) with i by lia.
    destruct (Z.ltb_spec i nb); [|lia]. cbn [andb].
    destruct (get_is_bit (target_status mb_mapping fc) (start_addr + i) Hbits)
      as [-> | ->]; reflexivity.
  - intros i Hi. apply Hout. lia.
Qed.

(** X19: a client reads coils from a server.  The request of
    [read_coil_status], handled by [modbus_slave_manage] on a well-formed
    map that holds the coils asked for, leaves the map as it is; and when
    the reply of the server comes in on the line of the client, in whatever
    pieces, the client returns [nb] and [data_dest[i]] is the coil
    [start_addr + i] of the server for every [i < nb], the rest of
    [data_dest] and of the line being untouched. *)
Theorem read_coil_status_served (E : modbus_h) (mb_param : modbus_param_t)
    (mb_mapping : modbus_mapping_t) (start_addr nb : Z) (data_dest : list Z)
    (t_id : Z) (response : list Z) (junk : Z)
    (sresponse : list Z) (swrote : Z)
    (chunks : list (list Z)) (rest : wire) :
  let request :=
    request_frame E mb_param FC_READ_COIL_STATUS start_addr nb t_id in
  let served :=
    modbus_slave_manage E mb_param request (Z.of_nat (length request))
      mb_mapping sresponse swrote in
  MSG_LENGTH_UNDEFINED E < 0 ->
  is_byte (slave mb_param) ->
  mapping_ok mb_mapping ->
  0 <= start_addr < 65536 -> 0 < nb <= MAX_STATUS ->
  start_addr + nb <= nb_coil_status mb_mapping ->
  nb <= Z.of_nat (length data_dest) ->
  Forall is_byte sresponse ->
  chunks <> [] -> Forall (fun c => c <> []) chunks ->
  concat chunks = concat (snd served) ->
  fst served = mb_mapping /\
  exists data_dest' t_id',
    read_coil_status E mb_param start_addr nb data_dest t_id
      (Z.of_nat (length request)) response junk (wire_of_chunks chunks ++ rest)
    = Some (nb, data_dest', t_id', rest) /\
    (forall i, 0 <= i < nb ->
       get data_dest' i = get (tab_coil_status mb_mapping) (start_addr + i)) /\
    (forall i, nb <= i -> get data_dest' i = get data_dest i).
Proof.
  intros request served Hmlu Hs Hok Hstart Hnb Hin Hdest Hsr Hne Hall Hcat.
  pose proof Hok as (L1 & _).
  destruct (read_io_status_served E mb_param mb_mapping FC_READ_COIL_STATUS
              start_addr nb data_dest t_id response junk sresponse swrote
              chunks rest Hmlu Hs Hok (or_introl eq_refl) Hstart Hnb
              ltac:(unfold target_status; simpl; lia) Hdest Hsr Hne Hall Hcat)
    as (Hmap & data_dest' & t_id' & Hread & Hval & Hout).
  split; [exact Hmap|]. exists data_dest', t_id'.
  split; [|split; [exact Hval|exact Hout]].
  unfold read_coil_status. subst request. rewrite Hread.
  pose proof (ceil_div8_bounds nb ltac:(lia)).
  destruct (Z.ltb_spec MAX_STATUS nb); [lia|].
  destruct (Z.ltb_spec 0 (ceil_div8 nb)); [reflexivity|lia].
Qed.

Lemma read_coil_status_served_witness :
  let mb_param := {| type_com := TCP; slave := 1 |} in
  let mb_mapping :=
    set_tab_coil_status (snd (modbus_mapping_new 12 0 0 0))
      [0; 1; 0; 1; 1; 0; 0; 1; 1; 0; 1; 1] in
  let request := request_frame libmodbus_h mb_param FC_READ_COIL_STATUS 1 10 0 in
  let served :=
    modbus_slave_manage libmodbus_h mb_param request (Z.of_nat (length request))
      mb_mapping [] 11 in
  fst served = mb_mapping /\
  exists data_dest' t_id',
    read_coil_status libmodbus_h mb_param 1 10 (replicate 11 7) 0
      (Z.of_nat (length request)) [] 0
      (wire_of_chunks [[0x00; 0x01; 0x00; 0x00; 0x00; 0x05; 0x01];
                       [0x01; 0x02; 0xCD; 0x02]] ++ [Silence])
    = Some (10, data_dest', t_id', [Silence]) /\
    (forall i, 0 <= i < 10 ->
       get data_dest' i = get (tab_coil_status mb_mapping) (1 + i)) /\
    (forall i, 10 <= i -> get data_dest' i = get (replicate 11 7) i).
Proof.
  intros mb_param mb_mapping request served.
  apply (read_coil_status_served libmodbus_h mb_param mb_mapping 1 10
           (replicate 11 7) 0 [] 0 [] 11
           [[0x00; 0x01; 0x00; 0x00; 0x00; 0x05; 0x01];
            [0x01; 0x02; 0xCD; 0x02]] [Silence]).
  - reflexivity.
  - unfold is_byte. simpl. lia.
  - unfold mapping_ok. simpl.
    repeat split; repeat constructor; unfold is_bit; lia.
  - lia.
  - unfold MAX_STATUS. lia.
  - simpl. lia.
  - simpl. lia.
  - constructor.
  - discriminate.
  - repeat constructor; discriminate.
  - vm_compute. reflexivity.
Defined.


(** X20: a client reads discrete inputs from a server.  As for the coils:
    the request of [read_input_status] leaves the map of the server as it
    is, and on the reply of the server the client returns [nb] and
    [data_dest[i]] is the input [start_addr + i] of the server for every
    [i < nb]. *)
Theorem read_input_status_served (E : modbus_h) (mb_param : modbus_param_t)
    (mb_mapping : modbus_mapping_t) (start_addr nb : Z) (data_dest : list Z)
    (t_id : Z) (response : list Z) (junk : Z)
    (sresponse : list Z) (swrote : Z)
    (chunks : list (list Z)) (rest : wire) :
  let request :=
    request_frame E mb_param FC_READ_INPUT_STATUS start_addr nb t_id in
  let served :=
    modbus_slave_manage E mb_param request (Z.of_nat (length request))
      mb_mapping sresponse swrote in
  MSG_LENGTH_UNDEFINED E < 0 ->
  is_byte (slave mb_param) ->
  mapping_ok mb_mapping ->
  0 <= start_addr < 65536 -> 0 < nb <= MAX_STATUS ->
  start_addr + nb <= nb_input_status mb_mapping ->
  nb <= Z.of_nat (length data_dest) ->
  Forall is_byte sresponse ->
  chunks <> [] -> Forall (fun c => c <> []) chunks ->
  concat chunks = concat (snd served) ->
  fst served = mb_mapping /\
  exists data_dest' t_id',
    read_input_status E mb_param start_addr nb data_dest t_id
      (Z.of_nat (length request)) response junk (wire_of_chunks chunks ++ rest)
    = Some (nb, data_dest', t_id', rest) /\
    (forall i, 0 <= i < nb ->
       get data_dest' i = get (tab_input_status mb_mapping) (start_addr + i)) /\
    (forall i, nb <= i -> get data_dest' i = get data_dest i).
Proof.
  intros request served Hmlu Hs Hok Hstart Hnb Hin Hdest Hsr Hne Hall Hcat.
  pose proof Hok as (_ & L2 & _).
  destruct (read_io_status_served E mb_param mb_mapping FC_READ_INPUT_STATUS
              start_addr nb data_dest t_id response junk sresponse swrote
              chunks rest Hmlu Hs Hok (or_intror eq_refl) Hstart Hnb
              ltac:(unfold target_status; simpl; lia) Hdest Hsr Hne Hall Hcat)
    as (Hmap & data_dest' & t_id' & Hread & Hval & Hout).
  split; [exact Hmap|]. exists data_dest', t_id'.
  split; [|split; [exact Hval|exact Hout]].
  unfold read_input_status. subst request. rewrite Hread.
  pose proof (ceil_div8_bounds nb ltac:(lia)).
  destruct (Z.ltb_spec MAX_STATUS nb); [lia|].
  destruct (Z.ltb_spec 0 (ceil_div8 nb)); [reflexivity|lia].
Qed.

Lemma read_input_status_served_witness :
  let mb_param := {| type_com := RTU; slave := 1 |} in
  let mb_mapping :=
    {| nb_coil_status := 0; nb_input_status := 4; nb_holding_registers := 0;
       nb_input_registers := 0; tab_coil_status := [];
       tab_input_status := [1; 0; 1; 1]; tab_holding_registers := [];
       tab_input_registers := [] |} in
  let request := request_frame libmodbus_h mb_param FC_READ_INPUT_STATUS 1 3 0 in
  let served :=
    modbus_slave_manage libmodbus_h mb_param request (Z.of_nat (length request))
      mb_mapping [] 6 in
  fst served = mb_mapping /\
  exists data_dest' t_id',
    read_input_status libmodbus_h mb_param 1 3 [7; 7; 7; 7] 0
      (Z.of_nat (length request)) [] 0
      (wire_of_chunks [concat (snd served)] ++ [])
    = Some (3, data_dest', t_id', []) /\
    (forall i, 0 <= i < 3 ->
       get data_dest' i = get (tab_input_status mb_mapping) (1 + i)) /\
    (forall i, 3 <= i -> get data_dest' i = get [7; 7; 7; 7] i).
Proof.
  intros mb_param mb_mapping request served.
  apply (read_input_status_served libmodbus_h mb_param mb_mapping 1 3
           [7; 7; 7; 7] 0 [] 0 [] 6 [concat (snd served)] []).
  - reflexivity.
  - unfold is_byte. simpl. lia.
  - unfold mapping_ok. simpl.
    repeat split; repeat constructor; unfold is_bit; lia.
  - lia.
  - unfold MAX_STATUS. lia.
  - simpl. lia.
  - simpl. lia.
  - constructor.
  - discriminate.
  - repeat constructor. vm_compute. discriminate.
  - vm_compute. reflexivity.
Defined.


(** ** Writing *)

Lemma compute_response_length_write (E : modbus_h)
    (mb_param : modbus_param_t) (query : list Z) (data_type : Z) :
  let offset := TAB_HEADER_LENGTH (type_com mb_param) in
  In (get query offset) [0x05; 0x06; 0x0F; 0x10] ->
  compute_response_length E mb_param query data_type
  = offset + 5 + TAB_CHECKSUM_LENGTH (type_com mb_param).
Proof.
  intros offset Hfc. unfold compute_response_length. cbv zeta. fold offset.
  simpl in Hfc.
  destruct Hfc as [<-|[<-|[<-|[<-|[]]]]]; simpl; lia.
Qed.

(** The client after a write: the confirmation of the server is accepted,
    with the result 1 for a single write and the quantity for a write of
    several values. *)
Lemma client_write_receive (E : modbus_h) (mb_param : modbus_param_t)
    (q : list Z) (ql : Z) (response : list Z) (junk : Z)
    (chunks : list (list Z)) (rest : wire) (reply : list Z)
    (squery : list Z) (sql : Z) (mb_mapping : modbus_mapping_t)
    (sresponse : list Z) (swrote : Z) :
  let offset := TAB_HEADER_LENGTH (type_com mb_param) in
  let request := snd (modbus_send E mb_param q ql 0) in
  let q2 := snd (fst (modbus_send E mb_param q ql (Z.of_nat (length request)))) in
  let fc := get request offset in
  offset + 5 <= ql ->
  Forall is_byte sresponse -> MSG_LENGTH_UNDEFINED E < 0 ->
  snd (modbus_slave_manage E mb_param squery sql mb_mapping sresponse swrote)
  = [reply] ->
  Z.of_nat (length reply) = offset + 5 + TAB_CHECKSUM_LENGTH (type_com mb_param) ->
  chunks <> [] -> Forall (fun c => c <> []) chunks -> concat chunks = reply ->
  Forall is_byte request ->
  In fc [0x05; 0x06; 0x0F; 0x10] ->
  get reply offset = fc ->
  quantity_field mb_param reply = quantity_field mb_param request ->
  modbus_receive E mb_param q2 response UINT16 junk (wire_of_chunks chunks ++ rest)
  = Some (if (fc =? 0x05) || (fc =? 0x06) then 1
          else quantity_field mb_param request,
          store response 0 reply, rest).
Proof.
  intros offset request q2 fc Hql Hsr Hmlu Hm Hlen Hne Hall Hcat Hreq Hfc Hrf Hrq.
  assert (Hoff : offset = 1 /\ TAB_CHECKSUM_LENGTH (type_com mb_param) = 2 \/
                 offset = 7 /\ TAB_CHECKSUM_LENGTH (type_com mb_param) = 0)
    by (subst offset; destruct (type_com mb_param); auto).
  assert (Hcrl : Z.of_nat (length reply)
                 = compute_response_length E mb_param request UINT16).
  { rewrite compute_response_length_write by exact Hfc. exact Hlen. }
  destruct (client_receive E mb_param q ql response UINT16 chunks rest reply
              squery sql mb_mapping sresponse swrote Hql Hsr Hmlu Hm Hcrl
              ltac:(lia) Hne Hall Hcat) as (Hrcv & Hstore & Hq2).
  fold offset request q2 in Hrcv, Hstore, Hq2.
  assert (Hreply : Forall is_byte reply).
  { pose proof (modbus_slave_manage_bytes E mb_param squery sql mb_mapping
                  sresponse swrote Hsr) as Hb.
    rewrite Hm in Hb. now apply Forall_inv in Hb. }
  pose proof (quantity_field_or mb_param reply Hreply) as Hor.
  fold offset in Hor.
  unfold modbus_receive. cbv zeta. fold offset. rewrite Hrcv.
  destruct (Z.leb_spec 0 (Z.of_nat (length reply))); [|lia].
  rewrite !Hstore by lia. rewrite Hrf, Hor, Hrq.
  rewrite !Hq2 by lia. rewrite word_add_eq.
  fold (quantity_field mb_param request).
  simpl in Hfc.
  destruct Hfc as [<-|[<-|[<-|[<-|[]]]]]; cbn; rewrite ?Z.eqb_refl; reflexivity.
Qed.








(** The client side of a single write: the server's echo of the request is
    accepted with the result 1. *)
Lemma set_single_echoed (E : modbus_h) (mb_param : modbus_param_t)
    (mb_mapping : modbus_mapping_t) (fc addr value : Z)
    (t_id : Z) (response : list Z) (junk : Z)
    (sresponse : list Z) (swrote : Z)
    (chunks : list (list Z)) (rest : wire) :
  let offset := TAB_HEADER_LENGTH (type_com mb_param) in
  let request := request_frame E mb_param fc addr value t_id in
  let served :=
    modbus_slave_manage E mb_param request (Z.of_nat (length request))
      mb_mapping sresponse swrote in
  let reply :=
    snd (modbus_send E mb_param
           (memcpy sresponse 0 request 0 (Z.to_nat (offset + 5)))
           (offset + 5) swrote) in
  MSG_LENGTH_UNDEFINED E < 0 ->
  is_byte (slave mb_param) ->
  fc = 0x05 \/ fc = 0x06 ->
  0 <= addr < 65536 -> 0 <= value < 65536 ->
  Forall is_byte sresponse ->
  snd served = [reply] ->
  chunks <> [] -> Forall (fun c => c <> []) chunks ->
  concat chunks = reply ->
  exists t_id',
    set_single E mb_param fc addr value t_id (Z.of_nat (length request))
      response junk (wire_of_chunks chunks ++ rest)
    = Some (1, t_id', rest).
Proof.
  intros offset request served reply Hmlu Hs Hfc Haddr Hval Hsr Hserved
    Hne Hall Hcat.
  assert (Hoff : offset = 1 /\ type_com mb_param = RTU /\
                 TAB_CHECKSUM_LENGTH (type_com mb_param) = 2 \/
                 offset = 7 /\ type_com mb_param = TCP /\
                 TAB_CHECKSUM_LENGTH (type_com mb_param) = 0)
    by apply header_offset_cases.
  assert (Hfb : is_byte fc) by (destruct Hfc as [-> | ->]; unfold is_byte; lia).
  destruct (request_frame_spec E mb_param fc addr value t_id Hs Hfb Haddr Hval)
    as (Rb & Rl & Ra & Rf & Raddr & Rq).
  fold request offset in Rb, Rl, Ra, Rf, Raddr, Rq.
  assert (Hecho : forall i, offset <= i < offset + 5 -> get reply i = get request i).
  { intros i Hi. subst reply. apply modbus_send_echo; [exact Rb|lia|].
    intros Ht. destruct Hoff as [(Ho & Ht' & _)|(Ho & _)]; [congruence|lia]. }
  assert (Cl : Z.of_nat (length reply)
               = offset + 5 + TAB_CHECKSUM_LENGTH (type_com mb_param)).
  { subst reply. apply length_modbus_send. lia. }
  destruct (build_query_basis_spec mb_param fc addr value [] t_id Hs Hfb Haddr Hval)
    as (Hql & _).
  fold offset in Hql.
  unfold set_single.
  subst served request. unfold request_frame in *.
  destruct (build_query_basis mb_param fc addr value [] t_id) as [[ql q] t'].
  cbn [fst snd] in Hql. subst ql.
  set (request := snd (modbus_send E mb_param q (offset + 5) 0)) in *.
  destruct (modbus_send_ret E mb_param q (offset + 5) ltac:(lia))
    as (Hret & Hfr & Hbuf).
  fold request in Hret, Hfr, Hbuf.
  pose proof (client_write_receive E mb_param q (offset + 5) response
                junk chunks rest reply request (Z.of_nat (length request))
                mb_mapping sresponse swrote) as Hrcv.
  cbv zeta in Hrcv. fold offset request in Hrcv.
  rewrite Rf in Hrcv.
  feed Hrcv. { lia. }
  feed Hrcv. { exact Hsr. }
  feed Hrcv. { exact Hmlu. }
  feed Hrcv. { exact Hserved. }
  feed Hrcv. { exact Cl. }
  feed Hrcv. { exact Hne. }
  feed Hrcv. { exact Hall. }
  feed Hrcv. { exact Hcat. }
  feed Hrcv. { exact Rb. }
  feed Hrcv. { simpl. destruct Hfc as [-> | ->]; auto. }
  feed Hrcv. { rewrite Hecho by lia. exact Rf. }
  feed Hrcv. { unfold quantity_field. fold offset. now rewrite !Hecho by lia. }
  destruct (modbus_send E mb_param q (offset + 5) (Z.of_nat (length request)))
    as [[ret q2] fr].
  cbn [fst snd] in *. subst ret.
  destruct (Z.ltb_spec 0 (Z.of_nat (length request))); [|lia].
  rewrite Hrcv. exists t'.
  destruct Hfc as [-> | ->]; reflexivity.
Qed.

(** X22: a client writes one register to a server.  The request of
    [preset_single_register], handled by [modbus_slave_manage] on a map that
    holds the register, stores [value] in the holding register [reg_addr]
    and changes nothing else; and when the reply of the server comes in on
    the line of the client, the client returns 1. *)
Theorem preset_single_register_served (E : modbus_h)
    (mb_param : modbus_param_t) (mb_mapping : modbus_mapping_t)
    (reg_addr value : Z)
    (t_id : Z) (response : list Z) (junk : Z)
    (sresponse : list Z) (swrote : Z)
    (chunks : list (list Z)) (rest : wire) :
  let request :=
    request_frame E mb_param FC_PRESET_SINGLE_REGISTER reg_addr value t_id in
  let served :=
    modbus_slave_manage E mb_param request (Z.of_nat (length request))
      mb_mapping sresponse swrote in
  MSG_LENGTH_UNDEFINED E < 0 ->
  is_byte (slave mb_param) ->
  mapping_ok mb_mapping ->
  0 <= reg_addr < 65536 -> reg_addr < nb_holding_registers mb_mapping ->
  0 <= value < 65536 ->
  Forall is_byte sresponse ->
  chunks <> [] -> Forall (fun c => c <> []) chunks ->
  concat chunks = concat (snd served) ->
  get (tab_holding_registers (fst served)) reg_addr = value /\
  (forall j, j <> reg_addr ->
     get (tab_holding_registers (fst served)) j
     = get (tab_holding_registers mb_mapping) j) /\
  fst served
  = set_tab_holding_registers mb_mapping (tab_holding_registers (fst served)) /\
  exists t_id',
    preset_single_register E mb_param reg_addr value t_id
      (Z.of_nat (length request)) response junk (wire_of_chunks chunks ++ rest)
    = Some (1, t_id', rest).
Proof.
  intros request served Hmlu Hs Hok Haddr Hin Hval Hsr Hne Hall Hcat.
  set (offset := TAB_HEADER_LENGTH (type_com mb_param)).
  pose proof Hok as (_ & _ & L3 & _).
  destruct (request_frame_spec E mb_param FC_PRESET_SINGLE_REGISTER reg_addr value
              t_id Hs ltac:(unfold is_byte, FC_PRESET_SINGLE_REGISTER; lia)
              Haddr Hval) as (Rb & Rl & Ra & Rf & Raddr & Rq).
  fold request offset in Rb, Rl, Ra, Rf, Raddr, Rq.
  assert (Hrl : request_length mb_param (Z.of_nat (length request)) = offset + 5).
  { unfold request_length. rewrite Rl. subst offset.
    destruct (type_com mb_param); simpl;
      unfold CHECKSUM_LENGTH_RTU, CHECKSUM_LENGTH_TCP; lia. }
  assert (Hserved :
    served =
    (set_tab_holding_registers mb_mapping
       (tab_set (tab_holding_registers mb_mapping) reg_addr value),
     [snd (modbus_send E mb_param
             (memcpy sresponse 0 request 0 (Z.to_nat (offset + 5)))
             (offset + 5) swrote)])).
  { subst served. rewrite modbus_slave_manage_addressed by exact Ra. cbv zeta.
    rewrite manage_switch_preset_single_register;
      [|exact Rb|exact Rf|rewrite Raddr; lia].
    cbn [fst snd]. now rewrite Raddr, Rq, Hrl. }
  destruct (set_single_echoed E mb_param mb_mapping FC_PRESET_SINGLE_REGISTER
              reg_addr value t_id response junk sresponse swrote chunks rest
              Hmlu Hs (or_intror eq_refl) Haddr Hval Hsr) as (t' & Hset);
    try assumption.
  { fold request served offset. now rewrite Hserved. }
  { fold request offset. rewrite Hcat. fold served. rewrite Hserved.
    cbn [snd concat]. now rewrite app_nil_r. }
  rewrite Hserved. cbn [fst tab_holding_registers set_tab_holding_registers].
  split; [|split; [|split]].
  - rewrite get_tab_set by lia. now rewrite Z.eqb_refl.
  - intros j Hj. rewrite get_tab_set by lia.
    destruct (Z.eqb_spec j reg_addr); [contradiction|reflexivity].
  - reflexivity.
  - exists t'. exact Hset.
Qed.

Lemma preset_single_register_served_witness :
  let mb_param := {| type_com := TCP; slave := 1 |} in
  let mb_mapping := snd (modbus_mapping_new 0 0 3 0) in
  let request :=
    request_frame libmodbus_h mb_param FC_PRESET_SINGLE_REGISTER 1 0xBEEF 0 in
  let served :=
    modbus_slave_manage libmodbus_h mb_param request (Z.of_nat (length request))
      mb_mapping [] 12 in
  tab_holding_registers (fst served) = [0; 0xBEEF; 0] /\
  get (tab_holding_registers (fst served)) 1 = 0xBEEF /\
  (forall j, j <> 1 ->
     get (tab_holding_registers (fst served)) j
     = get (tab_holding_registers mb_mapping) j) /\
  fst served
  = set_tab_holding_registers mb_mapping (tab_holding_registers (fst served)) /\
  exists t_id',
    preset_single_register libmodbus_h mb_param 1 0xBEEF 0
      (Z.of_nat (length request)) [] 0
      (wire_of_chunks [concat (snd served)] ++ [Silence])
    = Some (1, t_id', [Silence]).
Proof.
  intros mb_param mb_mapping request served. split; [reflexivity|].
  apply (preset_single_register_served libmodbus_h mb_param mb_mapping 1 0xBEEF
           0 [] 0 [] 12 [concat (snd served)] [Silence]).
  - reflexivity.
  - unfold is_byte. simpl. lia.
  - apply modbus_mapping_new_ok; lia.
  - lia.
  - simpl. lia.
  - lia.
  - constructor.
  - discriminate.
  - repeat constructor. vm_compute. discriminate.
  - vm_compute. reflexivity.
Defined.

(** X23: a client switches one coil of a server.  The request of
    [force_single_coil], handled by [modbus_slave_manage] on a map that
    holds the coil, sets the coil [coil_addr] to OFF when [state] is 0 and
    to ON for every other [state], and changes nothing else; and when the
    reply of the server comes in on the line of the client, the client
    returns 1. *)
Theorem force_single_coil_served (E : modbus_h)
    (mb_param : modbus_param_t) (mb_mapping : modbus_mapping_t)
    (coil_addr state : Z)
    (t_id : Z) (response : list Z) (junk : Z)
    (sresponse : list Z) (swrote : Z)
    (chunks : list (list Z)) (rest : wire) :
  let request :=
    request_frame E mb_param FC_FORCE_SINGLE_COIL coil_addr
      (if state =? 0 then state else 0xFF00) t_id in
  let served :=
    modbus_slave_manage E mb_param request (Z.of_nat (length request))
      mb_mapping sresponse swrote in
  MSG_LENGTH_UNDEFINED E < 0 ->
  is_byte (slave mb_param) ->
  mapping_ok mb_mapping ->
  0 <= coil_addr < 65536 -> coil_addr < nb_coil_status mb_mapping ->
  Forall is_byte sresponse ->
  chunks <> [] -> Forall (fun c => c <> []) chunks ->
  concat chunks = concat (snd served) ->
  get (tab_coil_status (fst served)) coil_addr
  = (if state =? 0 then OFF else ON) /\
  (forall j, j <> coil_addr ->
     get (tab_coil_status (fst served)) j = get (tab_coil_status mb_mapping) j) /\
  fst served = set_tab_coil_status mb_mapping (tab_coil_status (fst served)) /\
  exists t_id',
    force_single_coil E mb_param coil_addr state t_id
      (Z.of_nat (length request)) response junk (wire_of_chunks chunks ++ rest)
    = Some (1, t_id', rest).
Proof.
  intros request served Hmlu Hs Hok Haddr Hin Hsr Hne Hall Hcat.
  set (offset := TAB_HEADER_LENGTH (type_com mb_param)).
  set (value := if state =? 0 then state else 0xFF00) in *.
  assert (Hval : value = 0xFF00 /\ state <> 0 \/ value = 0 /\ state = 0).
  { subst value. destruct (Z.eqb_spec state 0); auto. }
  assert (Hv : 0 <= value < 65536) by (destruct Hval as [[-> _]|[-> _]]; lia).
  pose proof Hok as (L1 & _).
  destruct (request_frame_spec E mb_param FC_FORCE_SINGLE_COIL coil_addr value
              t_id Hs ltac:(unfold is_byte, FC_FORCE_SINGLE_COIL; lia)
              Haddr Hv) as (Rb & Rl & Ra & Rf & Raddr & Rq).
  fold request offset in Rb, Rl, Ra, Rf, Raddr, Rq.
  assert (Hrl : request_length mb_param (Z.of_nat (length request)) = offset + 5).
  { unfold request_length. rewrite Rl. subst offset.
    destruct (type_com mb_param); simpl;
      unfold CHECKSUM_LENGTH_RTU, CHECKSUM_LENGTH_TCP; lia. }
  assert (Hserved :
    served =
    (set_tab_coil_status mb_mapping
       (tab_set (tab_coil_status mb_mapping) coil_addr
          (if state =? 0 then OFF else ON)),
     [snd (modbus_send E mb_param
             (memcpy sresponse 0 request 0 (Z.to_nat (offset + 5)))
             (offset + 5) swrote)])).
  { subst served. rewrite modbus_slave_manage_addressed by exact Ra. cbv zeta.
    rewrite manage_switch_force_single_coil;
      [|exact Rb|exact Rf|rewrite Raddr; lia].
    rewrite Raddr, Rq, Hrl.
    destruct Hval as [[-> Hst]|[-> Hst]]; cbn [fst snd Z.eqb orb].
    - destruct (Z.eqb_spec state 0); [contradiction|reflexivity].
    - destruct (Z.eqb_spec state 0); [reflexivity|contradiction]. }
  destruct (set_single_echoed E mb_param mb_mapping FC_FORCE_SINGLE_COIL
              coil_addr value t_id response junk sresponse swrote chunks rest
              Hmlu Hs (or_introl eq_refl) Haddr Hv Hsr) as (t' & Hset);
    try assumption.
  { fold request served offset. now rewrite Hserved. }
  { fold request offset. rewrite Hcat. fold served. rewrite Hserved.
    cbn [snd concat]. now rewrite app_nil_r. }
  rewrite Hserved. cbn [fst tab_coil_status set_tab_coil_status].
  split; [|split; [|split]].
  - rewrite get_tab_set by lia. now rewrite Z.eqb_refl.
  - intros j Hj. rewrite get_tab_set by lia.
    destruct (Z.eqb_spec j coil_addr); [contradiction|reflexivity].
  - reflexivity.
  - exists t'. unfold force_single_coil. exact Hset.
Qed.

Lemma force_single_coil_served_witness :
  let mb_param := {| type_com := RTU; slave := 1 |} in
  let mb_mapping := snd (modbus_mapping_new 4 0 0 0) in
  let request :=
    request_frame libmodbus_h mb_param FC_FORCE_SINGLE_COIL 2
      (if 7 =? 0 then 7 else 0xFF00) 0 in
  let served :=
    modbus_slave_manage libmodbus_h mb_param request (Z.of_nat (length request))
      mb_mapping [] 8 in
  tab_coil_status (fst served) = [0; 0; 1; 0] /\
  get (tab_coil_status (fst served)) 2 = (if 7 =? 0 then OFF else ON) /\
  (forall j, j <> 2 ->
     get (tab_coil_status (fst served)) j = get (tab_coil_status mb_mapping) j) /\
  fst served = set_tab_coil_status mb_mapping (tab_coil_status (fst served)) /\
  exists t_id',
    force_single_coil libmodbus_h mb_param 2 7 0
      (Z.of_nat (length request)) [] 0
      (wire_of_chunks [concat (snd served)] ++ [Silence])
    = Some (1, t_id', [Silence]).
Proof.
  intros mb_param mb_mapping request served. split; [reflexivity|].
  apply (force_single_coil_served libmodbus_h mb_param mb_mapping 2 7
           0 [] 0 [] 8 [concat (snd served)] [Silence]).
  - reflexivity.
  - unfold is_byte. simpl. lia.
  - apply modbus_mapping_new_ok; lia.
  - lia.
  - simpl. lia.
  - constructor.
  - discriminate.
  - repeat constructor. vm_compute. discriminate.
  - vm_compute. reflexivity.
Defined.









(** ** The server receives a request *)

Lemma takeZ_dropZ_app (a b : list Z) :
  takeZ (Z.of_nat (length a)) (a ++ b) = a /\
  dropZ (Z.of_nat (length a)) (a ++ b) = b.
Proof.
  induction a as [|x a [IH1 IH2]].
  - simpl. destruct b; auto.
  - cbn [length app takeZ dropZ].
    destruct (Z.leb_spec (Z.of_nat (S (length a))) 0); [lia|].
    replace (Z.of_nat (S (length a)) - 1) with (Z.of_nat (length a)) by lia.
    now rewrite IH1, IH2.
Qed.

(** One read of [receive_msg] that completes what was to be read, [a], and
    leaves [b] readable. *)
Lemma sys_read_app (a b : list Z) (w : wire) :
  Z.of_nat (length a) < 2 ^ 64 ->
  sys_read (Bytes (a ++ b)) (Z.of_nat (length a)) w
  = (Z.of_nat (length a), a, match b with [] => w | _ => Readable (Bytes b) :: w end).
Proof.
  intros Hlen. unfold sys_read. rewrite size_t_small by lia.
  destruct (takeZ_dropZ_app a b) as [-> ->]. reflexivity.
Qed.

Lemma receive_loop_function (fuel : nat) (E : modbus_h) (mb_param : modbus_param_t)
    (a b : list Z) (w : wire) (msg : list Z) :
  let n := Z.of_nat (length a) in
  let msg' := store msg 0 a in
  let h := compute_query_length_header
             (get msg' (TAB_HEADER_LENGTH (type_com mb_param))) in
  0 < n < 2 ^ 64 -> 0 < h -> b <> [] ->
  receive_loop (S fuel) E mb_param (Bytes (a ++ b)) w msg 0 n n FUNCTION
  = receive_loop fuel E mb_param (Bytes b) w msg' n (n + h) h BYTE.
Proof.
  intros n msg' h Hn Hh Hb. cbn [receive_loop].
  rewrite sys_read_app by (fold n; lia). fold n.
  destruct (Z.eqb_spec n 0); [lia|]. destruct (Z.ltb_spec n 0); [lia|].
  replace (0 + n) with n by lia. fold msg'.
  destruct (Z.ltb_spec n n); [lia|]. fold h.
  destruct (Z.ltb_spec 0 h); [|lia].
  destruct b as [|x b]; [congruence|]. reflexivity.
Qed.

Lemma receive_loop_byte (fuel : nat) (E : modbus_h) (mb_param : modbus_param_t)
    (a b : list Z) (w : wire) (msg : list Z) (ml : Z) :
  let n := Z.of_nat (length a) in
  let msg' := store msg ml a in
  let d := compute_query_length_data mb_param msg' in
  0 <= ml -> 0 < n < 2 ^ 64 -> 0 <= d -> Z.of_nat (length b) = d ->
  ml + n + d <= TAB_MAX_ADU_LENGTH (type_com mb_param) ->
  receive_loop (S fuel) E mb_param (Bytes (a ++ b)) w msg ml (ml + n) n BYTE
  = if 0 <? d
    then receive_loop fuel E mb_param (Bytes b) w msg' (ml + n) (ml + n + d) d
           COMPLETE
    else Some (delivered E mb_param msg' (ml + n), msg', w).
Proof.
  intros n msg' d Hml Hn Hd Hb Hmax. cbn [receive_loop].
  rewrite sys_read_app by (fold n; lia). fold n.
  destruct (Z.eqb_spec n 0); [lia|]. destruct (Z.ltb_spec n 0); [lia|].
  fold msg'.
  destruct (Z.ltb_spec (ml + n) (ml + n)); [lia|]. fold d.
  destruct (Z.ltb_spec (TAB_MAX_ADU_LENGTH (type_com mb_param)) (ml + n + d));
    [lia|].
  destruct (Z.ltb_spec 0 d).
  - destruct b as [|x b]; [simpl in Hb; lia|]. reflexivity.
  - destruct b as [|x b]; [|simpl in Hb; lia].
    unfold delivered. now destruct (type_com mb_param).
Qed.

Lemma receive_loop_complete (fuel : nat) (E : modbus_h)
    (mb_param : modbus_param_t) (a : list Z) (w : wire) (msg : list Z) (ml : Z) :
  let n := Z.of_nat (length a) in
  let msg' := store msg ml a in
  0 <= ml -> 0 < n < 2 ^ 64 ->
  receive_loop (S fuel) E mb_param (Bytes a) w msg ml (ml + n) n COMPLETE
  = Some (delivered E mb_param msg' (ml + n), msg', w).
Proof.
  intros n msg' Hml Hn. cbn [receive_loop].
  pose proof (sys_read_app a [] w ltac:(fold n; lia)) as Hr.
  rewrite app_nil_r in Hr. fold n in Hr. rewrite Hr.
  destruct (Z.eqb_spec n 0); [lia|]. destruct (Z.ltb_spec n 0); [lia|].
  fold msg'.
  destruct (Z.ltb_spec (ml + n) (ml + n)); [lia|].
  change (0 <? 0) with false. cbv iota.
  unfold delivered. now destruct (type_com mb_param).
Qed.

(** [compute_query_length_data] reads the function byte and, for three
    function codes, one byte of the part of the header that the function
    code announces. *)
Lemma compute_query_length_data_ext (mb_param : modbus_param_t) (a b : list Z) :
  let offset := TAB_HEADER_LENGTH (type_com mb_param) in
  (forall i, 0 <= i < offset + 1 + compute_query_length_header (get a offset) ->
             get a i = get b i) ->
  compute_query_length_data mb_param a = compute_query_length_data mb_param b.
Proof.
  intros offset H. unfold compute_query_length_data. fold offset.
  assert (Ho : 1 <= offset)
    by (subst offset; destruct (type_com mb_param); simpl;
        unfold HEADER_LENGTH_RTU, HEADER_LENGTH_TCP; lia).
  assert (Hh : 0 <= compute_query_length_header (get a offset)).
  { unfold compute_query_length_header.
    repeat match goal with |- context [if ?c then _ else _] => destruct c end;
      lia. }
  rewrite <- (H offset) by lia.
  unfold compute_query_length_header in H.
  unfold FC_FORCE_SINGLE_COIL, FC_PRESET_SINGLE_REGISTER, FC_FORCE_MULTIPLE_COILS,
    FC_PRESET_MULTIPLE_REGISTERS, FC_REPORT_SLAVE_ID in *.
  revert H.
  destruct (Z.leb_spec (get a offset) 5) as [L1|L1],
    (Z.eqb_spec (get a offset) 6) as [L2|L2],
    (Z.eqb_spec (get a offset) 15) as [L3|L3],
    (Z.eqb_spec (get a offset) 16) as [L4|L4],
    (Z.eqb_spec (get a offset) 17) as [L5|L5]; cbn [orb]; intros H; try lia;
    try reflexivity; rewrite H by lia; reflexivity.
Qed.


Lemma get_store_prefix (msg p s : list Z) (i : Z) :
  Forall is_byte (p ++ s) -> 0 <= i < Z.of_nat (length p) ->
  get (store msg 0 p) i = get (p ++ s) i.
Proof.
  intros Hb Hi. apply Forall_app in Hb. destruct Hb as [Hp _].
  rewrite get_store_frame by assumption. now rewrite get_app_1 by lia.
Qed.

Lemma compute_query_length_data_nonneg (mb_param : modbus_param_t)
    (msg : list Z) :
  Forall is_byte msg -> 0 <= compute_query_length_data mb_param msg.
Proof.
  intros Hm. unfold compute_query_length_data.
  pose proof (get_is_byte msg (TAB_HEADER_LENGTH (type_com mb_param) + 5) Hm).
  pose proof (get_is_byte msg (TAB_HEADER_LENGTH (type_com mb_param) + 1) Hm).
  unfold is_byte in *.
  assert (0 <= TAB_CHECKSUM_LENGTH (type_com mb_param))
    by (destruct (type_com mb_param); simpl;
        unfold CHECKSUM_LENGTH_RTU, CHECKSUM_LENGTH_TCP; lia).
  repeat match goal with |- context [if ?c then _ else _] => destruct c end; lia.
Qed.

(** X25: the server receives a whole request.  When a frame of bytes is
    readable at once whose length is the one the receiver works out from
    it (the header and the function byte, the bytes
    [compute_query_length_header] announces for the function, at least one,
    and those [compute_query_length_data] announces, the checksum
    included), and that is no longer than the largest ADU,
    [modbus_slave_receive] takes exactly this frame from the line, stores it
    at the start of the buffer, and returns its length in TCP mode and the
    verdict of [check_crc16] on it in RTU mode. *)
Theorem modbus_slave_receive_whole (E : modbus_h) (mb_param : modbus_param_t)
    (query frame : list Z) (rest : wire) :
  let offset := TAB_HEADER_LENGTH (type_com mb_param) in
  let h := compute_query_length_header (get frame offset) in
  let d := compute_query_length_data mb_param frame in
  let n := Z.of_nat (length frame) in
  Forall is_byte frame ->
  0 < h -> n = offset + 1 + h + d ->
  n <= TAB_MAX_ADU_LENGTH (type_com mb_param) ->
  modbus_slave_receive E mb_param query (Readable (Bytes frame) :: rest)
  = Some (delivered E mb_param (store query 0 frame) n, store query 0 frame, rest) /\
  (forall i, 0 <= i < n -> get (store query 0 frame) i = get frame i).
Proof.
  intros offset h d n Hb Hh Hn Hmax.
  split; [|intros i Hi; now apply get_store_frame].
  assert (Ho : 1 <= offset <= 7)
    by (subst offset; destruct (type_com mb_param); simpl;
        unfold HEADER_LENGTH_RTU, HEADER_LENGTH_TCP; lia).
  assert (Hadu : TAB_MAX_ADU_LENGTH (type_com mb_param) <= 260)
    by (destruct (type_com mb_param); simpl;
        unfold MAX_ADU_LENGTH_RTU, MAX_ADU_LENGTH_TCP; lia).
  pose proof (compute_query_length_data_nonneg mb_param frame Hb) as Hd.
  fold d in Hd.
  set (head := take (Z.to_nat (offset + 1)) frame).
  set (ext := take (Z.to_nat h) (drop (Z.to_nat (offset + 1)) frame)).
  set (tail := drop (Z.to_nat h) (drop (Z.to_nat (offset + 1)) frame)).
  assert (Hframe : frame = head ++ ext ++ tail).
  { subst head ext tail. now rewrite !take_drop. }
  assert (H1 : Z.of_nat (length head) = offset + 1).
  { subst head. rewrite length_take. subst n. lia. }
  assert (H2 : Z.of_nat (length ext) = h).
  { subst ext. rewrite length_take, length_drop. subst n. lia. }
  assert (H3 : Z.of_nat (length tail) = d).
  { subst tail. rewrite !length_drop. subst n. lia. }
  assert (Hext : ext ++ tail <> []).
  { intros Hnil. apply (f_equal length) in Hnil. rewrite length_app in Hnil.
    simpl in Hnil. lia. }
  assert (Hm1 : forall i, 0 <= i < offset + 1 ->
            get (store query 0 head) i = get frame i).
  { intros i Hi. rewrite Hframe. apply get_store_prefix; [|lia].
    now rewrite <- Hframe. }
  assert (Hm2 : forall i, 0 <= i < offset + 1 + h ->
            get (store query 0 (head ++ ext)) i = get frame i).
  { intros i Hi. rewrite Hframe. rewrite app_assoc.
    apply get_store_prefix; [|rewrite length_app; lia].
    now rewrite <- app_assoc, <- Hframe. }
  unfold modbus_slave_receive, receive_msg. rewrite Z.eqb_refl.
  cbn [WAIT_DATA wire_weight]. fold offset.
  assert (Hfuel : exists k, (length frame + wire_weight rest)%nat = S (S k)).
  { exists (length frame + wire_weight rest - 2)%nat. subst n. lia. }
  destruct Hfuel as [k ->].
  rewrite Hframe at 1. rewrite <- H1.
  rewrite receive_loop_function; [|lia| |exact Hext].
  2:{ fold offset. rewrite Hm1 by lia. exact Hh. }
  fold offset. rewrite Hm1 by lia. fold h. rewrite <- H2.
  assert (Hd2 : compute_query_length_data mb_param
                  (store (store query 0 head) (Z.of_nat (length head)) ext) = d).
  { replace (Z.of_nat (length head)) with (0 + Z.of_nat (length head)) by lia.
    rewrite <- store_app. subst d. symmetry.
    apply compute_query_length_data_ext. fold offset h.
    intros i Hi. symmetry. apply Hm2. lia. }
  rewrite receive_loop_byte; rewrite ?Hd2; try lia.
  assert (Hs2 : store (store query 0 head) (Z.of_nat (length head)) ext
                = store query 0 (head ++ ext)).
  { rewrite store_app. f_equal. }
  rewrite Hs2.
  destruct (Z.ltb_spec 0 d) as [Hpos|Hzero].
  - rewrite <- H3. rewrite receive_loop_complete by lia.
    replace (Z.of_nat (length head) + Z.of_nat (length ext))
      with (0 + Z.of_nat (length (head ++ ext)))
      by (rewrite length_app; lia).
    rewrite <- store_app, <- app_assoc, <- Hframe.
    do 4 f_equal. rewrite length_app. lia.
  - assert (tail = []) as Ht by (destruct tail; [reflexivity|simpl in H3; lia]).
    rewrite Ht, app_nil_r in Hframe. rewrite <- Hframe.
    do 4 f_equal. lia.
Qed.

Lemma modbus_slave_receive_whole_witness :
  let mb_param := {| type_com := RTU; slave := 1 |} in
  let frame := [0x01; 0x10; 0x00; 0x01; 0x00; 0x02; 0x04; 0x12; 0x34; 0xAB; 0xCD;
                0xC8; 0x70] in
  delivered libmodbus_h mb_param (store [] 0 frame) 13 = 13 /\
  modbus_slave_receive libmodbus_h mb_param [] (Readable (Bytes frame) :: [Silence])
  = Some (delivered libmodbus_h mb_param (store [] 0 frame)
            (Z.of_nat (length frame)), store [] 0 frame, [Silence]) /\
  (forall i, 0 <= i < Z.of_nat (length frame) ->
     get (store [] 0 frame) i = get frame i).
Proof.
  intros mb_param frame. split; [reflexivity|].
  apply (modbus_slave_receive_whole libmodbus_h mb_param [] frame [Silence]).
  - repeat constructor; unfold is_byte; lia.
  - reflexivity.
  - reflexivity.
  - vm_compute. discriminate.
Defined.


(** ** The tool: a query is sent and the answer is read by rcv_msg *)

(** X26: every frame the server sends is accepted by [rcv_msg].  Whatever
    the query was, when the frame [modbus_slave_manage] has sent (at least
    two bytes) is readable at once, [rcv_msg] takes it from the line whole,
    stores it at the start of the buffer and returns its length: in RTU mode
    the CRC of a frame of the server is always found right. *)
Theorem rcv_msg_served (E : modbus_h) (mb_param : modbus_param_t)
    (squery : list Z) (sql : Z) (mb_mapping : modbus_mapping_t)
    (sresponse : list Z) (swrote : Z) (reply msg : list Z) (junk : Z)
    (rest : wire) :
  Forall is_byte sresponse ->
  snd (modbus_slave_manage E mb_param squery sql mb_mapping sresponse swrote)
  = [reply] ->
  2 <= Z.of_nat (length reply) <= 1024 ->
  rcv_msg E mb_param msg junk (Readable (Bytes reply) :: rest)
  = (Z.of_nat (length reply), store msg 0 reply, rest).
Proof.
  intros Hsr Hm Hlen.
  pose proof (modbus_slave_manage_delivered E mb_param squery sql mb_mapping
                sresponse swrote reply msg Hsr Hm ltac:(lia)) as Hd.
  unfold rcv_msg. cbn [WAIT_DATA]. unfold sys_read.
  rewrite size_t_small by lia.
  destruct (takeZ_all 1024 reply ltac:(lia)) as [-> ->].
  destruct (Z.eqb_spec (Z.of_nat (length reply)) 0); [lia|].
  destruct (Z.ltb_spec (Z.of_nat (length reply)) 0); [lia|].
  unfold delivered in Hd. destruct (type_com mb_param); [now rewrite Hd|reflexivity].
Qed.

Lemma rcv_msg_served_witness :
  let mb_param := {| type_com := RTU; slave := 1 |} in
  let mb_mapping := snd (modbus_mapping_new 4 0 0 0) in
  let reply := [0x01; 0x83; 0x02; 0xC0; 0xF1] in
  rcv_msg libmodbus_h mb_param [] 0 (Readable (Bytes reply) :: [Silence])
  = (Z.of_nat (length reply), store [] 0 reply, [Silence]).
Proof.
  intros mb_param mb_mapping reply.
  apply (rcv_msg_served libmodbus_h mb_param
           [0x01; 0x03; 0x00; 0x00; 0x00; 0x01; 0x84; 0x0A] 8 mb_mapping [] 5
           reply [] 0 [Silence]).
  - constructor.
  - vm_compute. reflexivity.
  - simpl. lia.
Defined.

(** X27: the server never answers "illegal function".  For a query
    addressed to it whose function code is none of 0x01 .. 0x06, 0x0F and
    0x10, [modbus_slave_manage] leaves the map as it is and sends no
    exception response: it calls [modbus_send] with an empty response, which
    puts the two bytes FF FF (the CRC of nothing) on the line in RTU mode
    and no byte in TCP mode. *)
Theorem modbus_slave_manage_unknown_function (E : modbus_h)
    (mb_param : modbus_param_t) (query : list Z) (query_length : Z)
    (mb_mapping : modbus_mapping_t) (response : list Z) (wrote : Z) :
  let offset := TAB_HEADER_LENGTH (type_com mb_param) in
  addressed mb_param query ->
  ~ In (get query offset) [0x01; 0x02; 0x03; 0x04; 0x05; 0x06; 0x0F; 0x10] ->
  modbus_slave_manage E mb_param query query_length mb_mapping response wrote =
  (mb_mapping,
   [match type_com mb_param with RTU => [0xFF; 0xFF] | TCP => [] end]).
Proof.
  intros offset Hunit Hfc.
  rewrite modbus_slave_manage_addressed by exact Hunit. cbv zeta.
  assert (Hsw : forall sft ql,
            manage_switch mb_param sft query ql mb_mapping response =
            (mb_mapping, response, 0)).
  { intros sft ql. unfold manage_switch. cbv zeta. fold offset.
    simpl in Hfc.
    unfold FC_READ_COIL_STATUS, FC_READ_INPUT_STATUS, FC_READ_HOLDING_REGISTERS,
      FC_READ_INPUT_REGISTERS, FC_FORCE_SINGLE_COIL, FC_PRESET_SINGLE_REGISTER,
      FC_FORCE_MULTIPLE_COILS, FC_PRESET_MULTIPLE_REGISTERS.
    repeat match goal with
           | |- context [?x =? ?k] =>
               destruct (Z.eqb_spec x k) as [Heq|_];
               [exfalso; apply Hfc; rewrite Heq; tauto|]
           end.
    reflexivity. }
  rewrite Hsw. cbn [fst snd]. f_equal.
  unfold modbus_send. destruct (type_com mb_param); cbn [snd]; [|reflexivity].
  change (crc16 response 0) with 0xFFFF.
  unfold bytes_at.
  change (seq 0 (Z.to_nat (0 + 2))) with [0%nat; 1%nat].
  cbn [fmap list_fmap].
  change (Z.of_nat 0) with 0. change (Z.of_nat 1) with 1.
  rewrite !get_poke by lia. reflexivity.
Qed.

Lemma modbus_slave_manage_unknown_function_witness :
  let mb_param := {| type_com := RTU; slave := 1 |} in
  let mb_mapping := snd (modbus_mapping_new 4 0 0 0) in
  modbus_slave_manage libmodbus_h mb_param [0x01; 0x2B; 0x0E; 0x01; 0x00] 5
    mb_mapping [] 2
  = (mb_mapping, [[0xFF; 0xFF]]).
Proof.
  intros mb_param mb_mapping.
  apply (modbus_slave_manage_unknown_function libmodbus_h mb_param
           [0x01; 0x2B; 0x0E; 0x01; 0x00] 5 mb_mapping [] 2).
  - left. reflexivity.
  - simpl. intros H. repeat (destruct H as [H|H]; [discriminate|]). exact H.
Defined.
